(** * asky: the prompts and what they write

    A shallow embedding of the Go package [asky]: the selection prompts
    ([singleSelect.Render], [multiSelect.Render]) with [makeSpace] and
    [getTermDimensions], the text prompts ([textInput.Render],
    [SecureInput.Render]), the colours and text attributes of
    [asky_styles.go], the counter of the progress bar and the frames of the
    spinner, and the properties proved on them.

    Conventions of the embedding:
    - a Go [int] is a [Z]; [+] and [-] are [Int.add] and [Int.sub], which wrap
      around at 64 bits as the Go operators do;
    - a Go [string] is a [string] of Rocq, a sequence of bytes ([ascii]);
      [len(s)] is its number of bytes;
    - a slice is a [list]; an index expression [s[i]] is [index s i], which is
      [None] where Go panics;
    - the local variables of [Render] which its closures share are the fields
      of a [session]; the closures are functions on it;
    - what a prompt writes to the terminal is a list of [output] events; the
      text of a frame (styles, markers, escape sequences) is not modelled, a
      frame records what [redraw] reads; the escape sequences of the text
      attributes are modelled with [styles.Sprint], by themselves;
    - the keys [keyboard.Listen] delivers are a list of [input]s. *)

From Stdlib Require Import ZArith List String Ascii Bool Lia Permutation.
From Stdlib Require Import DecimalString Setoid.
Import ListNotations.

Local Open Scope string_scope.
Local Open Scope list_scope.
Local Open Scope Z_scope.

(** ** Go integers *)

Module Int.

Definition minInt : Z := - 2 ^ 63.
Definition maxInt : Z := 2 ^ 63 - 1.

(** The value of a 64-bit two's complement integer holding [z]. *)
Definition wrap (z : Z) : Z := (z + 2 ^ 63) mod 2 ^ 64 - 2 ^ 63.

Definition add (x y : Z) : Z := wrap (x + y).
Definition sub (x y : Z) : Z := wrap (x - y).

Definition inRange (z : Z) : Prop := minInt <= z <= maxInt.

End Int.

(** [len(l)] of a slice. *)
Definition len {A : Type} (l : list A) : Z := Z.of_nat (List.length l).

(** [s[i]]: [None] stands for the run-time panic of an index out of range. *)
Definition index {A : Type} (l : list A) (i : Z) : option A :=
  if i <? 0 then None else nth_error l (Z.to_nat i).

(** [strconv.Itoa]. *)
Definition Itoa (z : Z) : string := NilZero.string_of_int (Z.to_int z).

(** ** Go strings *)

(** [len(s)], in bytes. *)
Definition strlen (s : string) : Z := Z.of_nat (String.length s).

(** [s == ""]. *)
Definition isEmpty (s : string) : bool :=
  match s with EmptyString => true | String _ _ => false end.

(** The slice expression [s[:n]]: the first [n] bytes of [s]. *)
Definition sliceTo (s : string) (n : Z) : string := substring 0 (Z.to_nat n) s.

Definition byte (z : Z) : ascii := ascii_of_N (Z.to_N (z mod 256)).

Definition bytes (l : list Z) : string :=
  fold_right (fun z s => String (byte z) s) EmptyString l.

(** [string(r)] for a rune [r] (an [int32]): its UTF-8 encoding, and the
    encoding of U+FFFD for what is no Unicode scalar value. *)
Definition runeString (r : Z) : string :=
  if (r <? 0) || (0x10FFFF <? r) || ((0xD800 <=? r) && (r <=? 0xDFFF)) then
    bytes [0xEF; 0xBF; 0xBD]
  else if r <? 0x80 then
    bytes [r]
  else if r <? 0x800 then
    bytes [Z.lor 0xC0 (Z.shiftr r 6); Z.lor 0x80 (Z.land r 0x3F)]
  else if r <? 0x10000 then
    bytes [Z.lor 0xE0 (Z.shiftr r 12);
           Z.lor 0x80 (Z.land (Z.shiftr r 6) 0x3F);
           Z.lor 0x80 (Z.land r 0x3F)]
  else
    bytes [Z.lor 0xF0 (Z.shiftr r 18);
           Z.lor 0x80 (Z.land (Z.shiftr r 12) 0x3F);
           Z.lor 0x80 (Z.land (Z.shiftr r 6) 0x3F);
           Z.lor 0x80 (Z.land r 0x3F)].

(** Go's [strings] package. *)
Module strings.

Definition isASCIIByte (c : ascii) : bool := (N_of_ascii c <? 128)%N.

Fixpoint isASCII (s : string) : bool :=
  match s with
  | EmptyString => true
  | String c rest => isASCIIByte c && isASCII rest
  end.

Definition lowerByte (c : ascii) : ascii :=
  let n := N_of_ascii c in
  if ((65 <=? n) && (n <=? 90))%N then ascii_of_N (n + 32) else c.

(** The ASCII path of [ToLower]: ['A'..'Z'] become ['a'..'z']. *)
Fixpoint lowerASCII (s : string) : string :=
  match s with
  | EmptyString => EmptyString
  | String c rest => String (lowerByte c) (lowerASCII rest)
  end.

(** The case tables of Go's [unicode] package are no part of this repository:
    [mapToLower s] stands for [strings.Map(unicode.ToLower, s)], which
    [strings.ToLower] returns for a string with a byte above 127. *)
Class UnicodeTables : Type := { mapToLower : string -> string }.

(** [strings.ToLower]. *)
Definition ToLower {U : UnicodeTables} (s : string) : string :=
  if isASCII s then lowerASCII s else mapToLower s.

(** [strings.HasPrefix]. *)
Fixpoint HasPrefix (s prefix : string) : bool :=
  match prefix, s with
  | EmptyString, _ => true
  | String p prefix', String c s' => Ascii.eqb c p && HasPrefix s' prefix'
  | String _ _, EmptyString => false
  end.

(** [strings.Contains]: [substr] occurs in [s] at some byte offset. *)
Fixpoint Contains (s substr : string) : bool :=
  HasPrefix s substr ||
  match s with
  | EmptyString => false
  | String _ s' => Contains s' substr
  end.

End strings.
Import strings.

(** ** Choices, keys and the terminal *)

Record Choice : Type := mkChoice {
  Value : string;
  Label : string;
  Disabled : bool
}.

(** [Choice{}]. *)
Definition zeroChoice : Choice := mkChoice EmptyString EmptyString false.

(** [a == b] on the struct: all three fields. *)
Definition Choice_eqb (a b : Choice) : bool :=
  String.eqb (Value a) (Value b) && String.eqb (Label a) (Label b)
  && Bool.eqb (Disabled a) (Disabled b).

Inductive error : Type :=
| ErrInterrupted
| ErrTerminalTooSmall
| ErrNoSelectionChoices
| ErrInvalidSelectionCount
| ErrKeyboard.    (* an error of the keyboard source, passed through *)

(** The package [atomicgo.dev/keyboard/keys]: the codes [Render] switches on;
    [Other] is any code it has no case for. *)
Module keys.

Inductive KeyCode : Type :=
| CtrlC | Up | Left | Down | Right | Tab | Escape | Enter | Space
| Backspace | RuneKey | Other.

Record Key : Type := mkKey { Code : KeyCode; Runes : list Z }.

End keys.

(** What [keyboard.Listen] gets from the keyboard: a key, or an error. *)
Inductive input : Type :=
| Pressed (key : keys.Key)
| ReadError.

Definition press (c : keys.KeyCode) : input := Pressed (keys.mkKey c []).
Definition typed (r : Z) : input := Pressed (keys.mkKey keys.RuneKey [r]).

(** The answer of [term.GetSize] for standard output. *)
Record Terminal : Type := mkTerminal {
  termWidth : Z;
  termHeight : Z;
  termErr : bool
}.

(** [getTermDimensions]: width, height and whether the call failed. *)
Definition getTermDimensions (t : Terminal) : Z * Z * bool :=
  (termWidth t, termHeight t, termErr t).

(** ** What the prompts write *)

(** What [redraw] reads when it draws a frame: the visible rows (the choice,
    whether it is under the cursor, whether it is selected), the number of
    blank rows after them, and the search and validation lines. *)
Record frame : Type := mkFrame {
  rows : list (Choice * bool * bool);
  blankRows : Z;
  shownQuery : string;
  shownSearchMode : bool;
  shownHits : Z;
  shownSelected : Z;
  shownMessage : string
}.

Inductive output : Type :=
| Newline                    (* one line feed of [makeSpace] *)
| CursorUp (n : Z)           (* [ansiCursorUp] *)
| HideAndSaveCursor          (* [ansiHideCursor + ansiSaveCursor] *)
| Draw (f : frame)           (* one call of [redraw] *)
| ResetState.                (* the deferred [resetState] *)

Definition ansiCursorUp (n : Z) : list output :=
  if 0 <? n then [CursorUp n] else [].

(** [makeSpace]: the error of [getTermDimensions] is dropped, the sizes are
    compared as they are. *)
Definition makeSpace (t : Terminal) (lines : Z) : option error * list output :=
  let '(width, height, _) := getTermDimensions t in
  if (height <? lines) || (width <? 50) then (Some ErrTerminalTooSmall, [])
  else (None, repeat Newline (Z.to_nat lines) ++ ansiCursorUp lines).

(** The width [padLine] (banner) works with: its first statement after the
    call of [getTermDimensions]. *)
Definition padLineWidth (t : Terminal) : Z :=
  let '(termWidth, _, err) := getTermDimensions t in
  if err || (termWidth <=? 0) then 80 else termWidth.

(** The width the progress bar's [redraw] works with. *)
Definition progressWidth (t : Terminal) : Z :=
  let '(termWidth, _, _) := getTermDimensions t in
  if termWidth <=? 0 then 80 else termWidth.

(** ** The state both prompts share *)

(** The cursor and the visible slice [startIdx, endIdx) of the filtered
    choices. *)
Record window : Type := mkWindow {
  filteredChoices : list Choice;
  cursorIdx : Z;
  startIdx : Z;
  endIdx : Z
}.

(** The variables of one call of [Render]; [selection] is the receiver's
    [selectedChoice] (a [Choice]) or [selectedChoices] (a slice), [written]
    what went to the terminal so far. *)
Record session (S : Type) : Type := mkSession {
  win : window;
  searchQuery : string;
  searchMode : bool;
  valMessage : string;
  interrupted : bool;
  selection : S;
  written : list output
}.

Arguments mkSession {S}.
Arguments win {S}.
Arguments searchQuery {S}.
Arguments searchMode {S}.
Arguments valMessage {S}.
Arguments interrupted {S}.
Arguments selection {S}.
Arguments written {S}.

Section Setters.
Context {S : Type}.

Definition set_win (w : window) (s : session S) : session S :=
  mkSession w (searchQuery s) (searchMode s) (valMessage s) (interrupted s)
            (selection s) (written s).

Definition set_searchQuery (q : string) (s : session S) : session S :=
  mkSession (win s) q (searchMode s) (valMessage s) (interrupted s)
            (selection s) (written s).

Definition set_searchMode (b : bool) (s : session S) : session S :=
  mkSession (win s) (searchQuery s) b (valMessage s) (interrupted s)
            (selection s) (written s).

Definition set_valMessage (m : string) (s : session S) : session S :=
  mkSession (win s) (searchQuery s) (searchMode s) m (interrupted s)
            (selection s) (written s).

Definition set_interrupted (b : bool) (s : session S) : session S :=
  mkSession (win s) (searchQuery s) (searchMode s) (valMessage s) b
            (selection s) (written s).

Definition set_selection (x : S) (s : session S) : session S :=
  mkSession (win s) (searchQuery s) (searchMode s) (valMessage s)
            (interrupted s) x (written s).

Definition write (o : output) (s : session S) : session S :=
  mkSession (win s) (searchQuery s) (searchMode s) (valMessage s)
            (interrupted s) (selection s) (written s ++ [o]).

End Setters.

(** ** The closures both prompts define alike *)

(** [filterChoices]: the loop appends each matching choice in turn. *)
Definition filterChoices {U : UnicodeTables} (choices : list Choice)
    (query : string) : list Choice :=
  if isEmpty query then choices
  else
    let query := ToLower query in
    fold_left
      (fun filtered choice =>
         if Contains (ToLower (Label choice)) query
         then filtered ++ [choice] else filtered)
      choices [].

(** [resetCursorAfterFilter], called once [filteredChoices] is reassigned. *)
Definition resetCursorAfterFilter (pageSize : Z) (w : window) : window :=
  let filtered := filteredChoices w in
  if len filtered =? 0 then mkWindow filtered 0 0 0
  else
    let cursor :=
      if len filtered <=? cursorIdx w then Int.sub (len filtered) 1
      else cursorIdx w in
    let start := if cursor <? startIdx w then cursor else startIdx w in
    let start :=
      if Int.add start pageSize <=? cursor
      then Z.max 0 (Int.add (Int.sub cursor pageSize) 1) else start in
    mkWindow filtered cursor start (Z.min (Int.add start pageSize) (len filtered)).

(** [navigateUp]. *)
Definition navigateUp (pageSize : Z) (w : window) : window :=
  if 0 <? cursorIdx w then
    let cursor := Int.sub (cursorIdx w) 1 in
    if cursor <? startIdx w then
      mkWindow (filteredChoices w) cursor cursor
               (Z.min (Int.add cursor pageSize) (len (filteredChoices w)))
    else mkWindow (filteredChoices w) cursor (startIdx w) (endIdx w)
  else w.

(** [navigateDown]. *)
Definition navigateDown (pageSize : Z) (w : window) : window :=
  if cursorIdx w <? Int.sub (len (filteredChoices w)) 1 then
    let cursor := Int.add (cursorIdx w) 1 in
    if endIdx w <=? cursor then
      let e := Int.add cursor 1 in
      mkWindow (filteredChoices w) cursor (Z.max 0 (Int.sub e pageSize)) e
    else mkWindow (filteredChoices w) cursor (startIdx w) (endIdx w)
  else w.

(** The search query is reassigned, the choices filtered again and the cursor
    reset: the three statements of the Backspace and rune cases. *)
Definition search {U : UnicodeTables} {S : Type} (choices : list Choice)
    (pageSize : Z) (query : string) (s : session S) : session S :=
  let w := win s in
  let w := mkWindow (filterChoices choices query)
                    (cursorIdx w) (startIdx w) (endIdx w) in
  set_win (resetCursorAfterFilter pageSize w) (set_searchQuery query s).

(** The rows [redraw] draws: [filteredChoices[i]] for [start <= i < end]. *)
Fixpoint drawRows (isSelected : Choice -> bool) (filtered : list Choice)
    (cursor i : Z) (n : nat) : option (list (Choice * bool * bool)) :=
  match n with
  | O => Some []
  | S n' =>
      match index filtered i, drawRows isSelected filtered cursor (i + 1) n' with
      | Some c, Some rest => Some ((c, i =? cursor, isSelected c) :: rest)
      | _, _ => None
      end
  end.

(** [redraw(cursorIdx, startIdx, endIdx)], given how a row is found selected
    and the count shown on the search line; [None] when a row is out of
    range. *)
Definition redraw {S : Type} (isSelected : S -> Choice -> bool)
    (selectedCount : S -> Z) (pageSize : Z) (s : session S)
    : option (session S) :=
  let w := win s in
  match drawRows (isSelected (selection s)) (filteredChoices w) (cursorIdx w)
                 (startIdx w) (Z.to_nat (endIdx w - startIdx w)) with
  | None => None
  | Some rs =>
      Some (write (Draw (mkFrame rs
                           (Z.max 0 (pageSize - Int.sub (endIdx w) (startIdx w)))
                           (searchQuery s) (searchMode s)
                           (len (filteredChoices w))
                           (selectedCount (selection s))
                           (valMessage s))) s)
  end.

(** ** [keyboard.Listen] *)

(** Where the loop stands when the input at hand is used up: still listening,
    stopped by the handler, failed on the keyboard source, or lost to a
    panic. *)
Inductive loop (S : Type) : Type :=
| Listening (s : S)
| Stopped (s : S)
| Failed (s : S)
| Panicked (s : S).

Arguments Listening {S}.
Arguments Stopped {S}.
Arguments Failed {S}.
Arguments Panicked {S}.

Fixpoint Listen {S : Type} (handler : S -> keys.Key -> option (S * bool))
    (s : S) (ins : list input) : loop S :=
  match ins with
  | [] => Listening s
  | ReadError :: _ => Failed s
  | Pressed key :: rest =>
      match handler s key with
      | None => Panicked s
      | Some (s', true) => Stopped s'
      | Some (s', false) => Listen handler s' rest
      end
  end.

(** What a call of [Render] comes to: its two results, or it still waits for a
    key, or it panicked. *)
Inductive outcome (A : Type) : Type :=
| Returns (v : A) (err : option error)
| Waiting
| Panics.

Arguments Returns {A}.
Arguments Waiting {A}.
Arguments Panics {A}.

(** ** The single-select prompt *)

Module singleSelect.

(** The fields of the struct the prompt's logic reads; the others (theme,
    style, prefix, label, description, markers) only shape the text drawn. *)
Record t : Type := mk {
  choices : list Choice;
  defaultChoice : Z;
  optional : bool;
  pageSize : Z;
  selectedChoice : Choice
}.

Definition NewSingleSelect : t := mk [] (-1) false 10 zeroChoice.

Definition WithDefaultChoice (idx : Z) (ss : t) : t :=
  mk (choices ss) (Z.max 0 idx) (optional ss) (pageSize ss) (selectedChoice ss).

Definition Optional (ss : t) : t :=
  mk (choices ss) (defaultChoice ss) true (pageSize ss) (selectedChoice ss).

Definition WithChoices (ch : list Choice) (ss : t) : t :=
  mk ch (defaultChoice ss) (optional ss) (pageSize ss) (selectedChoice ss).

Definition WithPageSize (n : Z) (ss : t) : t :=
  mk (choices ss) (defaultChoice ss) (optional ss) n (selectedChoice ss).

(** The local [pageSize] of [Render]. *)
Definition pageSizeOf (ss : t) : Z := Z.min (pageSize ss) (len (choices ss)).

(** [sel := c.Value == ss.selectedChoice.Value] *)
Definition isSelected (selected c : Choice) : bool :=
  String.eqb (Value c) (Value selected).

(** The count of the search line: 1 unless [ss.selectedChoice == Choice{}]. *)
Definition selectedCount (selected : Choice) : Z :=
  if Choice_eqb selected zeroChoice then 0 else 1.

Definition redraw (ss : t) (s : session Choice) : option (session Choice) :=
  redraw isSelected selectedCount (pageSizeOf ss) s.

Section Handler.
Context {U : UnicodeTables}.

(** The [switch] of the function passed to [keyboard.Listen]: the state it
    leaves, and whether the case returned [true, nil] itself; [None] for a
    panic. *)
Definition switch (ss : t) (s : session Choice) (key : keys.Key)
    : option (session Choice * bool) :=
  let break s := Some (s, false) in
  let pageSize := pageSizeOf ss in
  match keys.Code key with
  | keys.CtrlC => Some (set_interrupted true s, true)
  | keys.Up | keys.Left => break (set_win (navigateUp pageSize (win s)) s)
  | keys.Down | keys.Right => break (set_win (navigateDown pageSize (win s)) s)
  | keys.Tab => break (set_searchMode (negb (searchMode s)) s)
  | keys.Escape =>
      break (if searchMode s then set_searchMode false s else s)
  | keys.Enter =>
      if (len (filteredChoices (win s)) =? 0)
         || Choice_eqb (selection s) zeroChoice then
        if optional ss then Some (s, true)
        else break (set_valMessage "No selection made (required)" s)
      else Some (s, true)
  | keys.Space =>
      if len (filteredChoices (win s)) =? 0 then
        break (set_valMessage "No choices available" s)
      else
        match index (filteredChoices (win s)) (cursorIdx (win s)) with
        | None => None
        | Some currentChoice =>
            if Disabled currentChoice then
              break (set_valMessage "Cannot select a disabled choice" s)
            else
              let s :=
                if String.eqb (Value (selection s)) (Value currentChoice)
                then set_selection zeroChoice s
                else set_selection currentChoice s in
              break (set_valMessage EmptyString s)
        end
  | keys.Backspace =>
      if searchMode s && (0 <? strlen (searchQuery s)) then
        let query :=
          sliceTo (searchQuery s) (Int.sub (strlen (searchQuery s)) 1) in
        break (search (choices ss) pageSize query s)
      else break s
  | keys.RuneKey =>
      match keys.Runes key with
      | [] => break s
      | r :: _ =>
          let keyPressed := runeString r in
          if searchMode s then
            break (search (choices ss) pageSize
                            (append (searchQuery s) keyPressed) s)
          else if String.eqb keyPressed "j" || String.eqb keyPressed "l" then
            break (set_win (navigateDown pageSize (win s)) s)
          else if String.eqb keyPressed "k" || String.eqb keyPressed "h" then
            break (set_win (navigateUp pageSize (win s)) s)
          else break s
      end
  | keys.Other => break s
  end.

(** The function passed to [keyboard.Listen]: a case that does not return
    falls out of the [switch] to [redraw] and [return false, nil]. *)
Definition handler (ss : t) (s : session Choice) (key : keys.Key)
    : option (session Choice * bool) :=
  match switch ss s key with
  | None => None
  | Some (s', true) => Some (s', true)
  | Some (s', false) => option_map (fun drawn => (drawn, false)) (redraw ss s')
  end.

(** [Render] up to the call of [keyboard.Listen]: the entry checks, the
    state variables, the default choice and the first frame. An entry check
    that fails gives the error and what [makeSpace] had written. *)
Definition start (term : Terminal) (ss : t)
    : outcome Choice * list output + session Choice :=
  let filtered := choices ss in
  let pageSize := pageSizeOf ss in
  let w := mkWindow filtered 0 0 (Z.min (len filtered) pageSize) in
  match makeSpace term (Int.add 9 pageSize) with
  | (Some _, out) => inl (Returns zeroChoice (Some ErrTerminalTooSmall), out)
  | (None, out) =>
      if len (choices ss) =? 0 then
        inl (Returns zeroChoice (Some ErrNoSelectionChoices), out)
      else
        let selected :=
          if (0 <=? defaultChoice ss) && (defaultChoice ss <? len (choices ss))
          then index (choices ss) (defaultChoice ss)
          else Some (selectedChoice ss) in
        match selected with
        | None => inl (Panics, out)
        | Some selected =>
            let s := mkSession w EmptyString false EmptyString false selected
                               (out ++ [HideAndSaveCursor]) in
            match redraw ss s with
            | None => inl (Panics, written s ++ [ResetState])
            | Some s => inr s
            end
        end
  end.

(** The state of the loop once the keys [ins] are handled. *)
Definition listen (term : Terminal) (ss : t) (ins : list input)
    : outcome Choice * list output + loop (session Choice) :=
  match start term ss with
  | inl failed => inl failed
  | inr s => inr (Listen (handler ss) s ins)
  end.

(** [Render]: its results and what it wrote, when the keyboard delivers
    [ins]. *)
Definition Render (term : Terminal) (ss : t) (ins : list input)
    : outcome Choice * list output :=
  match listen term ss ins with
  | inl failed => failed
  | inr (Listening s) => (Waiting, written s)
  | inr (Failed s) =>
      (Returns zeroChoice (Some ErrKeyboard), written s ++ [ResetState])
  | inr (Stopped s) =>
      if interrupted s then
        (Returns zeroChoice (Some ErrInterrupted), written s ++ [ResetState])
      else (Returns (selection s) None, written s ++ [ResetState])
  | inr (Panicked s) => (Panics, written s ++ [ResetState])
  end.

End Handler.

End singleSelect.

(** ** The multi-select prompt *)

Module multiSelect.

Record t : Type := mk {
  choices : list Choice;
  defaultChoices : list Z;
  optional : bool;
  minSelectedCount : Z;
  maxSelectedCount : Z;
  pageSize : Z;
  selectedChoices : list Choice
}.

Definition NewMultiSelect : t := mk [] [] false 0 0 7 [].

Definition WithDefaultChoice (idxs : list Z) (ms : t) : t :=
  if 0 <? len idxs then
    mk (choices ms) idxs (optional ms) (minSelectedCount ms)
       (maxSelectedCount ms) (pageSize ms) (selectedChoices ms)
  else ms.

Definition Optional (ms : t) : t :=
  mk (choices ms) (defaultChoices ms) true (minSelectedCount ms)
     (maxSelectedCount ms) (pageSize ms) (selectedChoices ms).

Definition WithMinSelectedCount (n : Z) (ms : t) : t :=
  mk (choices ms) (defaultChoices ms) (optional ms) (Z.max n 0)
     (maxSelectedCount ms) (pageSize ms) (selectedChoices ms).

Definition WithMaxSelectedCount (n : Z) (ms : t) : t :=
  mk (choices ms) (defaultChoices ms) (optional ms) (minSelectedCount ms)
     (Z.max n 0) (pageSize ms) (selectedChoices ms).

Definition WithChoices (ch : list Choice) (ms : t) : t :=
  mk ch (defaultChoices ms) (optional ms) (minSelectedCount ms)
     (maxSelectedCount ms) (pageSize ms) (selectedChoices ms).

Definition WithPageSize (n : Z) (ms : t) : t :=
  mk (choices ms) (defaultChoices ms) (optional ms) (minSelectedCount ms)
     (maxSelectedCount ms) n (selectedChoices ms).

(** The locals [pageSize], [minRequired] and [maxAllowed] of [Render]. *)
Definition pageSizeOf (ms : t) : Z := Z.min (pageSize ms) (len (choices ms)).

Definition minRequired (ms : t) : Z :=
  let m := Z.max (minSelectedCount ms) 0 in
  if negb (optional ms) && (m =? 0) then 1 else m.

Definition maxAllowed (ms : t) : Z :=
  let m := Z.max (maxSelectedCount ms) 0 in
  if m =? 0 then len (choices ms) else m.

(** [isSelected]: some selected choice has the value of [choice]. *)
Definition isSelected (selected : list Choice) (choice : Choice) : bool :=
  existsb (fun c => String.eqb (Value c) (Value choice)) selected.

(** The first loop of [toggleSelection]: the slice without the first choice
    that has the value of [choice], when there is one. *)
Fixpoint removeSelected (selected : list Choice) (choice : Choice)
    : option (list Choice) :=
  match selected with
  | [] => None
  | c :: rest =>
      if String.eqb (Value c) (Value choice) then Some rest
      else option_map (cons c) (removeSelected rest choice)
  end.

(** [toggleSelection]. *)
Definition toggleSelection (ms : t) (selected : list Choice) (choice : Choice)
    : list Choice :=
  match removeSelected selected choice with
  | Some without => without
  | None =>
      if (maxSelectedCount ms =? 0) || (len selected <? maxSelectedCount ms)
      then selected ++ [choice] else selected
  end.

(** The selection the default choices give: each index in range appends its
    choice. *)
Definition defaultSelection (ms : t) : list Choice :=
  fold_left
    (fun selected defaultIdx =>
       if (0 <=? defaultIdx) && (defaultIdx <? len (choices ms)) then
         match index (choices ms) defaultIdx with
         | Some c => selected ++ [c]
         | None => selected      (* not reached: the index is in range *)
         end
       else selected)
    (defaultChoices ms) [].

(** [ms.selectedChoices] when the first frame is drawn. *)
Definition initialSelection (ms : t) : list Choice :=
  if 0 <? len (defaultChoices ms) then defaultSelection ms
  else selectedChoices ms.

Definition atLeastMessage (ms : t) : string :=
  append "At least " (append (Itoa (minRequired ms)) " choices must be selected").

Definition noMoreThanMessage (ms : t) : string :=
  append "Cannot select more than " (append (Itoa (maxAllowed ms)) " choices").

Definition redraw (ms : t) (s : session (list Choice))
    : option (session (list Choice)) :=
  redraw isSelected (fun selected => len selected) (pageSizeOf ms) s.

Section Handler.
Context {U : UnicodeTables}.

(** The [switch] of the function passed to [keyboard.Listen]. *)
Definition switch (ms : t) (s : session (list Choice)) (key : keys.Key)
    : option (session (list Choice) * bool) :=
  let break s := Some (s, false) in
  let pageSize := pageSizeOf ms in
  match keys.Code key with
  | keys.CtrlC => Some (set_interrupted true s, true)
  | keys.Up | keys.Left => break (set_win (navigateUp pageSize (win s)) s)
  | keys.Down | keys.Right => break (set_win (navigateDown pageSize (win s)) s)
  | keys.Tab => break (set_searchMode (negb (searchMode s)) s)
  | keys.Escape =>
      break (if searchMode s then set_searchMode false s else s)
  | keys.Enter =>
      if len (selection s) <? minRequired ms then
        break (set_valMessage (atLeastMessage ms) s)
      else Some (s, true)
  | keys.Space =>
      if len (filteredChoices (win s)) =? 0 then
        break (set_valMessage "No choices available" s)
      else
        match index (filteredChoices (win s)) (cursorIdx (win s)) with
        | None => None
        | Some currentChoice =>
            if Disabled currentChoice then
              break (set_valMessage "Cannot select a disabled choice" s)
            else
              let alreadySelected := isSelected (selection s) currentChoice in
              if negb alreadySelected && (maxAllowed ms <=? len (selection s))
              then break (set_valMessage (noMoreThanMessage ms) s)
              else
                let s :=
                  set_selection
                    (toggleSelection ms (selection s) currentChoice) s in
                if len (selection s) <? minRequired ms then
                  break (set_valMessage (atLeastMessage ms) s)
                else break (set_valMessage EmptyString s)
        end
  | keys.Backspace =>
      if searchMode s && (0 <? strlen (searchQuery s)) then
        let query :=
          sliceTo (searchQuery s) (Int.sub (strlen (searchQuery s)) 1) in
        break (search (choices ms) pageSize query s)
      else break s
  | keys.RuneKey =>
      match keys.Runes key with
      | [] => break s
      | r :: _ =>
          let keyPressed := runeString r in
          if searchMode s then
            break (search (choices ms) pageSize
                            (append (searchQuery s) keyPressed) s)
          else if String.eqb keyPressed "j" || String.eqb keyPressed "l" then
            break (set_win (navigateDown pageSize (win s)) s)
          else if String.eqb keyPressed "k" || String.eqb keyPressed "h" then
            break (set_win (navigateUp pageSize (win s)) s)
          else break s
      end
  | keys.Other => break s
  end.

(** The function passed to [keyboard.Listen]. *)
Definition handler (ms : t) (s : session (list Choice)) (key : keys.Key)
    : option (session (list Choice) * bool) :=
  match switch ms s key with
  | None => None
  | Some (s', true) => Some (s', true)
  | Some (s', false) => option_map (fun drawn => (drawn, false)) (redraw ms s')
  end.

(** [Render] up to the call of [keyboard.Listen]. *)
Definition start (term : Terminal) (ms : t)
    : outcome (list Choice) * list output + session (list Choice) :=
  let filtered := choices ms in
  let pageSize := pageSizeOf ms in
  let w := mkWindow filtered 0 0 (Z.min (len filtered) pageSize) in
  match makeSpace term (Int.add 9 pageSize) with
  | (Some _, out) => inl (Returns [] (Some ErrTerminalTooSmall), out)
  | (None, out) =>
      if len (choices ms) =? 0 then
        inl (Returns [] (Some ErrNoSelectionChoices), out)
      else if maxAllowed ms <? minRequired ms then
        inl (Returns [] (Some ErrInvalidSelectionCount), out)
      else
        let s := mkSession w EmptyString false EmptyString false
                           (initialSelection ms) (out ++ [HideAndSaveCursor]) in
        match redraw ms s with
        | None => inl (Panics, written s ++ [ResetState])
        | Some s => inr s
        end
  end.

Definition listen (term : Terminal) (ms : t) (ins : list input)
    : outcome (list Choice) * list output + loop (session (list Choice)) :=
  match start term ms with
  | inl failed => inl failed
  | inr s => inr (Listen (handler ms) s ins)
  end.

(** [Render]. *)
Definition Render (term : Terminal) (ms : t) (ins : list input)
    : outcome (list Choice) * list output :=
  match listen term ms ins with
  | inl failed => failed
  | inr (Listening s) => (Waiting, written s)
  | inr (Failed s) => (Returns [] (Some ErrKeyboard), written s ++ [ResetState])
  | inr (Stopped s) =>
      if interrupted s then
        (Returns [] (Some ErrInterrupted), written s ++ [ResetState])
      else (Returns (selection s) None, written s ++ [ResetState])
  | inr (Panicked s) => (Panics, written s ++ [ResetState])
  end.

End Handler.

End multiSelect.

(** ** The words of the specification *)


(** [Selects P l l']: [l'] is [l] with the elements that fail [P] left out,
    the others kept in the order they have in [l]. *)
Inductive Selects {A : Type} (P : A -> Prop) : list A -> list A -> Prop :=
| Selects_nil : Selects P [] []
| Selects_keep x l l' : P x -> Selects P l l' -> Selects P (x :: l) (x :: l')
| Selects_skip x l l' : ~ P x -> Selects P l l' -> Selects P (x :: l) l'.

(** The invariant of the cursor and the window, for a page of [pageSize]
    rows. *)
Definition windowOk (pageSize : Z) (w : window) : Prop :=
  filteredChoices w <> [] ->
  0 <= cursorIdx w < len (filteredChoices w) /\
  startIdx w <= cursorIdx w < endIdx w /\
  endIdx w - startIdx w <= pageSize.

(** A window [redraw] and the Space case can read without a panic. *)
Definition sound (w : window) : Prop :=
  0 <= startIdx w /\ endIdx w <= len (filteredChoices w) /\
  0 <= cursorIdx w <= len (filteredChoices w) /\
  (filteredChoices w <> [] -> cursorIdx w < len (filteredChoices w)).

(** What [windowOk] needs to last through every step. *)
Definition paged (pageSize : Z) (w : window) : Prop :=
  0 <= startIdx w <= cursorIdx w /\
  cursorIdx w <= len (filteredChoices w) /\
  endIdx w <= len (filteredChoices w) /\
  (filteredChoices w <> [] ->
   cursorIdx w < endIdx w /\ endIdx w - startIdx w <= pageSize).

(** A slice of choices that fits a 64-bit address space: a [Choice] takes 40
    bytes, so its length stays far below [2 ^ 62]. *)
Definition allocatable (choices : list Choice) : Prop := len choices < 2 ^ 62.

(** The state a loop carries, wherever it stands. *)
Definition loopState {S : Type} (l : loop S) : S :=
  match l with
  | Listening s | Stopped s | Failed s | Panicked s => s
  end.

(** Whether [filterChoices] keeps a choice, for a query that is not empty. *)
Definition matches {U : UnicodeTables} (query : string) (c : Choice) : bool :=
  Contains (ToLower (Label c)) (ToLower query).

(** What a key can do to the window: nothing, move the cursor, or filter
    again by some query. *)
Definition winStep {U : UnicodeTables} (choices : list Choice) (p : Z)
    (w w' : window) : Prop :=
  w' = w \/ w' = navigateUp p w \/ w' = navigateDown p w \/
  exists query,
    w' = resetCursorAfterFilter p
           (mkWindow (filterChoices choices query)
                     (cursorIdx w) (startIdx w) (endIdx w)).

(** A window no step leads out of, whatever the page size. *)
Definition good (choices : list Choice) (w : window) : Prop :=
  sound w /\ len (filteredChoices w) <= len choices.

(** With a page of one row at least, the steps keep the window [paged]. *)
Definition pagedIn (choices : list Choice) (p : Z) (w : window) : Prop :=
  paged p w /\ len (filteredChoices w) <= len choices.

(** What Space leaves selected in the single-select prompt, with [c] under
    the cursor. *)
Definition toggled (selected c : Choice) : Choice :=
  if String.eqb (Value selected) (Value c) then zeroChoice else c.

(** What Space leaves selected in the multi-select prompt, with [c] under the
    cursor: the selection as it was when [c] would be one too many, and
    toggled otherwise. *)
Definition toggledIn (ms : multiSelect.t) (selected : list Choice) (c : Choice)
    : list Choice :=
  if negb (multiSelect.isSelected selected c)
     && (multiSelect.maxAllowed ms <=? len selected)
  then selected
  else multiSelect.toggleSelection ms selected c.

(** The tables of the closed examples below. Their labels and queries are
    ASCII, for which [ToLower] never consults the tables. *)
Definition noTables : UnicodeTables := {| mapToLower := fun s => s |}.

Definition Apple : Choice := mkChoice "A" "Apple" false.
Definition Banana : Choice := mkChoice "B" "Banana" false.
Definition Cherry : Choice := mkChoice "C" "Cherry" false.

Definition Durian : Choice := mkChoice "D" "Durian" true.
Definition Unnamed : Choice := mkChoice EmptyString "None" false.

(** A terminal of 80 columns and 24 rows, one of 40 columns, and standard
    output that is no terminal: [term.GetSize] fails with zero sizes. *)
Definition tty : Terminal := mkTerminal 80 24 false.
Definition narrow : Terminal := mkTerminal 40 24 false.
Definition notty : Terminal := mkTerminal 0 0 true.

(** Apple and Banana to choose from, Apple selected by default. *)
Definition appleByDefault : singleSelect.t :=
  singleSelect.WithDefaultChoice 0
    (singleSelect.WithChoices [Apple; Banana] singleSelect.NewSingleSelect).

(** Apple and Banana, on a page of no rows. *)
Definition pageOfNoRows : singleSelect.t :=
  singleSelect.WithPageSize 0
    (singleSelect.WithChoices [Apple; Banana] singleSelect.NewSingleSelect).

(** Apple and the disabled Durian, Durian selected by default. *)
Definition durianByDefault : singleSelect.t :=
  singleSelect.WithDefaultChoice 1
    (singleSelect.WithChoices [Apple; Durian] singleSelect.NewSingleSelect).

(** A choice with the empty value, and Apple. *)
Definition withUnnamed : singleSelect.t :=
  singleSelect.WithChoices [Unnamed; Apple] singleSelect.NewSingleSelect.

(** Three choices, all three selected by default, one selection allowed. *)
Definition threeDefaultsMaxOne : multiSelect.t :=
  multiSelect.WithMaxSelectedCount 1
    (multiSelect.WithDefaultChoice [0; 1; 2]
       (multiSelect.WithChoices [Apple; Banana; Cherry]
          multiSelect.NewMultiSelect)).

(** Three choices, of which exactly two are to be selected. *)
Definition twoOfThree : multiSelect.t :=
  multiSelect.WithMaxSelectedCount 2
    (multiSelect.WithMinSelectedCount 2
       (multiSelect.WithChoices [Apple; Banana; Cherry]
          multiSelect.NewMultiSelect)).

(** Apple, Banana and the disabled Durian; Apple and Durian selected by
    default. *)
Definition fruitBasket : multiSelect.t :=
  multiSelect.WithDefaultChoice [0; 2]
    (multiSelect.WithChoices [Apple; Banana; Durian]
       multiSelect.NewMultiSelect).

(** ** Colours and text attributes *)

(** The slice expressions [s[n:]] and [s[i:j]] of a string, at offsets the
    code has found in range. *)
Definition sliceFrom (s : string) (n : Z) : string :=
  substring (Z.to_nat n) (String.length s - Z.to_nat n) s.

Definition slice (s : string) (i j : Z) : string :=
  substring (Z.to_nat i) (Z.to_nat j - Z.to_nat i) s.

(** The escape character, and the cutset of carriage return and line feed. *)
Definition ESC : string := String (ascii_of_nat 27) EmptyString.
Definition CRLF : string :=
  String (ascii_of_nat 13) (String (ascii_of_nat 10) EmptyString).

(** [strings.TrimPrefix]. *)
Definition TrimPrefix (s prefix : string) : string :=
  if HasPrefix s prefix then sliceFrom s (strlen prefix) else s.

(** The bytes [strings.TrimSpace] takes for white space on its ASCII path:
    tab, line feed, vertical tab, form feed, carriage return and space. *)
Definition asciiSpace (c : ascii) : bool :=
  let n := N_of_ascii c in (((9 <=? n) && (n <=? 13)) || (n =? 32))%N.

(** Where [strings.TrimSpace] meets a byte above 127 it hands over to
    [TrimFunc(s, unicode.IsSpace)] or [TrimRightFunc(s, unicode.IsSpace)],
    which decode runes and consult the tables of Go's [unicode] package. *)
Class UnicodeSpaces : Type := {
  trimFunc : string -> string;
  trimRightFunc : string -> string
}.

(** The second loop of [strings.TrimSpace], from the end of [s[start:]];
    [r] holds the bytes of [s[start:stop]], the last one first. *)
Fixpoint trimSpaceEnd {W : UnicodeSpaces} (r : list ascii) : string :=
  match r with
  | [] => EmptyString
  | c :: r' =>
      if negb (isASCIIByte c) then trimRightFunc (string_of_list_ascii (rev r))
      else if asciiSpace c then trimSpaceEnd r'
      else string_of_list_ascii (rev r)
  end.

(** [strings.TrimSpace]: the first loop, from the start of [s]. *)
Fixpoint TrimSpace {W : UnicodeSpaces} (s : string) : string :=
  match s with
  | EmptyString => EmptyString
  | String c rest =>
      if negb (isASCIIByte c) then trimFunc s
      else if asciiSpace c then TrimSpace rest
      else trimSpaceEnd (rev (list_ascii_of_string s))
  end.

(** [strings.TrimRight(s, cutset)] for a cutset of ASCII bytes: the bytes of
    the cutset at the end of [s] are removed. *)
Fixpoint inCutset (cutset : string) (c : ascii) : bool :=
  match cutset with
  | EmptyString => false
  | String x rest => Ascii.eqb c x || inCutset rest c
  end.

Fixpoint TrimRight (s cutset : string) : string :=
  match s with
  | EmptyString => EmptyString
  | String c rest =>
      match TrimRight rest cutset with
      | EmptyString =>
          if inCutset cutset c then EmptyString else String c EmptyString
      | kept => String c kept
      end
  end.

(** The value [strconv.ParseUint] gives a byte: a decimal digit, or a letter
    of either case from 10 on. *)
Definition digitValue (c : ascii) : option Z :=
  let n := Z.of_N (N_of_ascii c) in
  if (48 <=? n) && (n <=? 57) then Some (n - 48)
  else
    let l := Z.lor n 32 in
    if (97 <=? l) && (l <=? 122) then Some (l - 97 + 10) else None.

(** The loop of [strconv.ParseUint] for a base given by the caller (no
    prefix, no underscore): a byte that is no digit of the base is a syntax
    error, a value above [maxVal] a range error. *)
Fixpoint parseDigits (base maxVal : Z) (s : string) (n : Z) : option Z :=
  match s with
  | EmptyString => Some n
  | String c rest =>
      match digitValue c with
      | None => None
      | Some d =>
          if base <=? d then None
          else
            let n1 := n * base + d in
            if maxVal <? n1 then None else parseDigits base maxVal rest n1
      end
  end.

(** [strconv.ParseUint(s, base, bitSize)] for a base from 2 to 36; [None]
    where it returns an error. *)
Definition ParseUint (s : string) (base bitSize : Z) : option Z :=
  if isEmpty s then None else parseDigits base (2 ^ bitSize - 1) s 0.

(** The file [asky_styles.go]. *)
Module styles.

(** [type color string]. *)
Definition color : Type := string.

(** The loop of [toSGR] over [s[i:]]: the offsets of the first and second
    comma, [-1] for one that is missing; [i] stays below [len(s)]. *)
Fixpoint commas (s : string) (i c1 : Z) : Z * Z :=
  match s with
  | EmptyString => (c1, -1)
  | String ch rest =>
      if Ascii.eqb ch "," then
        if c1 =? -1 then commas rest (i + 1) i else (c1, i)
      else commas rest (i + 1) c1
  end.

(** [toSGR]: the parameters of the escape sequence of a colour, and whether
    there are any. *)
Definition toSGR (c : color) (bg : bool) : string * bool :=
  if isEmpty c then (EmptyString, false)
  else
    let s := c in
    if (4 <? strlen s) && String.eqb (sliceTo s 4) "rgb:" then
      let s := sliceFrom s 4 in
      let '(c1, c2) := commas s 0 (-1) in
      if (c1 =? -1) || (c2 =? -1) then (EmptyString, false)
      else
        let r := sliceTo s c1 in
        let g := slice s (c1 + 1) c2 in
        let b := sliceFrom s (c2 + 1) in
        if bg then ("48;2;" ++ r ++ ";" ++ g ++ ";" ++ b, true)%string
        else ("38;2;" ++ r ++ ";" ++ g ++ ";" ++ b, true)%string
    else if (5 <? strlen s) && String.eqb (sliceTo s 5) "ansi:" then
      let n := TrimPrefix s "ansi:" in
      if isEmpty n then (EmptyString, false)
      else if bg then ("48;5;" ++ n, true)%string
      else ("38;5;" ++ n, true)%string
    else (EmptyString, false).

(** [ColorFromHex]: the loop runs for [i] = 0, 2 and 4; [None] is the
    return of the empty colour from inside it. *)
Definition ColorFromHex {W : UnicodeSpaces} (hx : string) : color :=
  let hx := TrimPrefix (TrimSpace hx) "#" in
  if negb (strlen hx =? 6) then EmptyString
  else
    let body (result : option string) (i : Z) : option string :=
      match result with
      | None => None
      | Some result =>
          match ParseUint (slice hx i (i + 2)) 16 8 with
          | None => None
          | Some val =>
              let result :=
                if 0 <? i then (result ++ ",")%string else result in
              Some (result ++ Itoa val)%string
          end
      end in
    match fold_left body [0; 2; 4] (Some "rgb:") with
    | None => EmptyString
    | Some result => result
    end.

Definition ColorFromRGB (r g b : Z) : color :=
  if (r <? 0) || (255 <? r) || (g <? 0) || (255 <? g) || (b <? 0) || (255 <? b)
  then EmptyString
  else ("rgb:" ++ Itoa r ++ "," ++ Itoa g ++ "," ++ Itoa b)%string.

Definition ColorFromANSI (i : Z) : color :=
  if (i <? 0) || (255 <? i) then EmptyString
  else ("ansi:" ++ Itoa i)%string.

Record attribs : Type := mkAttribs {
  fg : color;
  bg : color;
  dim : bool;
  bold : bool;
  italic : bool;
  underline : bool;
  strikethrough : bool
}.

Definition NewAttrib : attribs :=
  mkAttribs EmptyString EmptyString false false false false false.

Definition FG (c : color) (st : attribs) : attribs :=
  mkAttribs c (bg st) (dim st) (bold st) (italic st) (underline st)
            (strikethrough st).

Definition BG (c : color) (st : attribs) : attribs :=
  mkAttribs (fg st) c (dim st) (bold st) (italic st) (underline st)
            (strikethrough st).

Definition Dim (st : attribs) : attribs :=
  mkAttribs (fg st) (bg st) true (bold st) (italic st) (underline st)
            (strikethrough st).

Definition Bold (st : attribs) : attribs :=
  mkAttribs (fg st) (bg st) (dim st) true (italic st) (underline st)
            (strikethrough st).

Definition Italic (st : attribs) : attribs :=
  mkAttribs (fg st) (bg st) (dim st) (bold st) true (underline st)
            (strikethrough st).

Definition Underline (st : attribs) : attribs :=
  mkAttribs (fg st) (bg st) (dim st) (bold st) (italic st) true
            (strikethrough st).

Definition Strikethrough (st : attribs) : attribs :=
  mkAttribs (fg st) (bg st) (dim st) (bold st) (italic st) (underline st) true.

(** [(st *attribs) isEmpty]. *)
Definition noAttribs (st : attribs) : bool :=
  negb (bold st) && negb (dim st) && negb (italic st)
  && negb (underline st) && negb (strikethrough st)
  && isEmpty (fg st) && isEmpty (bg st).

(** The closure [write] of [Sprint], on the builder and the flag [first]. *)
Definition writeCode (code : string) (b : string * bool) : string * bool :=
  if isEmpty code then b
  else
    let '(built, first) := b in
    let built := if negb first then (built ++ ";")%string else built in
    ((built ++ code)%string, false).

(** [Sprint]; [noColor] and [noTTY] are the package variables of these
    names, set from the environment when the program starts. *)
Definition Sprint (noColor noTTY : bool) (st : attribs) (text : string)
    : string :=
  if isEmpty text || noColor || noTTY || noAttribs st then text
  else
    let b := ((ESC ++ "[")%string, true) in
    let b := if bold st then writeCode "1" b else b in
    let b := if dim st then writeCode "2" b else b in
    let b := if italic st then writeCode "3" b else b in
    let b := if underline st then writeCode "4" b else b in
    let b := if strikethrough st then writeCode "9" b else b in
    let b :=
      match toSGR (fg st) false with
      | (code, true) => writeCode code b
      | (_, false) => b
      end in
    let b :=
      match toSGR (bg st) true with
      | (code, true) => writeCode code b
      | (_, false) => b
      end in
    if snd b then text
    else (fst b ++ "m" ++ text ++ ESC ++ "[0m")%string.

End styles.

(** ** The text prompts *)

(** [string(inBuf)] for a slice of runes. *)
Definition runesString (rs : list Z) : string :=
  fold_right (fun r s => append (runeString r) s) EmptyString rs.

(** The slice expressions [l[:i]] and [l[i:]]; [None] stands for the panic of
    an offset out of range. The prompts write [l[:i]] beside [l[j:]] with
    [i <= j] only, so that the bound [len(l)] taken for [l[:i]] here, where Go
    has [cap(l)], gives the same panics. *)
Definition prefixTo {A : Type} (l : list A) (i : Z) : option (list A) :=
  if (i <? 0) || (len l <? i) then None else Some (firstn (Z.to_nat i) l).

Definition suffixFrom {A : Type} (l : list A) (i : Z) : option (list A) :=
  if (i <? 0) || (len l <? i) then None else Some (skipn (Z.to_nat i) l).

(** What [redraw] of a text prompt reads when it draws a frame: the
    placeholder line (drawn while the input is empty), the validation message
    with whether it is drawn as a failure, the text drawn after the prompt,
    and the columns the cursor is moved left after it. *)
Record inputFrame : Type := mkInputFrame {
  shownPlaceholder : option string;
  shownValidation : option (string * bool);
  shownInput : option string;
  movedLeft : option Z
}.

(** [ansiCursorLeft]: it writes for a positive count only. *)
Definition ansiCursorLeft (n : Z) : option Z :=
  if 0 <? n then Some n else None.

(** What [textInput.Render] and [SecureInput.Render] define alike. *)
Module edit.

(** The variables of one call of [Render], and what it wrote: the events
    shared with the selection prompts, and the frames. *)
Record state : Type := mkState {
  inBuf : list Z;
  cursorPos : Z;
  receivedInput : bool;
  interrupted : bool;
  written : list (output + inputFrame)
}.

Definition set_inBuf (l : list Z) (s : state) : state :=
  mkState l (cursorPos s) (receivedInput s) (interrupted s) (written s).

Definition set_cursorPos (i : Z) (s : state) : state :=
  mkState (inBuf s) i (receivedInput s) (interrupted s) (written s).

Definition set_receivedInput (b : bool) (s : state) : state :=
  mkState (inBuf s) (cursorPos s) b (interrupted s) (written s).

Definition set_interrupted (b : bool) (s : state) : state :=
  mkState (inBuf s) (cursorPos s) (receivedInput s) b (written s).

Definition draw (f : inputFrame) (s : state) : state :=
  mkState (inBuf s) (cursorPos s) (receivedInput s) (interrupted s)
          (written s ++ [inr f]).

(** The validation line of a frame: drawn for a validator, a message and a
    key received; as a failure when [ok] points at [false]. *)
Definition validationLine (hasValidator : bool) (validationMsg : string)
    (ok : option bool) (s : state) : option (string * bool) :=
  if hasValidator && negb (isEmpty validationMsg) && receivedInput s then
    match ok with
    | Some false => Some (validationMsg, true)
    | _ => Some (validationMsg, false)
    end
  else None.

Section Handler.

(** The validator, [None] for [nil]: a function of the text only. *)
Variable validator : option (string -> string * bool).

(** [redraw(input, cursor, validationMsg, ok)]. *)
Variable redraw : list Z -> Z -> string -> option bool -> state -> state.

(** [inBuf = append(inBuf[:cursorPos], append([]rune{r}, inBuf[cursorPos:]...)...)]
    and [cursorPos++]. *)
Definition insert (r : Z) (s : state) : option state :=
  match prefixTo (inBuf s) (cursorPos s), suffixFrom (inBuf s) (cursorPos s) with
  | Some before, Some rest =>
      Some (set_cursorPos (Int.add (cursorPos s) 1)
              (set_inBuf (before ++ r :: rest) s))
  | _, _ => None
  end.

(** The statements after the [switch]: the redraw with what the validator
    says of the text. *)
Definition live (s : state) : option (state * bool) :=
  match validator with
  | Some validate =>
      let '(msg, ok) := validate (runesString (inBuf s)) in
      Some (redraw (inBuf s) (cursorPos s) msg (Some ok) s, false)
  | None => Some (redraw (inBuf s) (cursorPos s) EmptyString None s, false)
  end.

(** The function passed to [keyboard.Listen]; [None] for a panic. *)
Definition handler (s : state) (key : keys.Key) : option (state * bool) :=
  let s := set_receivedInput true s in
  match keys.Code key with
  | keys.CtrlC => Some (set_interrupted true s, true)
  | keys.Enter =>
      match validator with
      | Some validate =>
          let '(msg, ok) := validate (runesString (inBuf s)) in
          if negb ok then
            Some (redraw (inBuf s) (cursorPos s) msg (Some ok) s, false)
          else Some (s, true)
      | None => Some (s, true)
      end
  | keys.Left =>
      live (if 0 <? cursorPos s
            then set_cursorPos (Int.sub (cursorPos s) 1) s else s)
  | keys.Right =>
      live (if cursorPos s <? len (inBuf s)
            then set_cursorPos (Int.add (cursorPos s) 1) s else s)
  | keys.Backspace =>
      if 0 <? cursorPos s then
        match prefixTo (inBuf s) (Int.sub (cursorPos s) 1),
              suffixFrom (inBuf s) (cursorPos s) with
        | Some before, Some rest =>
            live (set_cursorPos (Int.sub (cursorPos s) 1)
                    (set_inBuf (before ++ rest) s))
        | _, _ => None
        end
      else live s
  | keys.Space =>
      match insert 32 s with
      | Some s => live s
      | None => None
      end
  | keys.RuneKey =>
      match keys.Runes key with
      | [] => live s
      | r :: _ =>
          match insert r s with
          | Some s => live s
          | None => None
          end
      end
  | keys.Up | keys.Down | keys.Tab | keys.Escape | keys.Other => live s
  end.

(** [Render] from the entry check to the first frame. *)
Definition start (term : Terminal)
    : outcome string * list (output + inputFrame) + state :=
  match makeSpace term 8 with
  | (Some _, out) =>
      inl (Returns EmptyString (Some ErrTerminalTooSmall), map inl out)
  | (None, out) =>
      let s := mkState [] 0 false false
                       (map inl out ++ [inl HideAndSaveCursor]) in
      inr (redraw [] 0 EmptyString None s)
  end.

(** The state of the loop once the keys [ins] are handled. *)
Definition listen (term : Terminal) (ins : list input)
    : outcome string * list (output + inputFrame) + loop state :=
  match start term with
  | inl failed => inl failed
  | inr s => inr (Listen handler s ins)
  end.

(** [Render]: its results and what it wrote. *)
Definition Render (term : Terminal) (ins : list input)
    : outcome string * list (output + inputFrame) :=
  match listen term ins with
  | inl failed => failed
  | inr (Listening s) => (Waiting, written s)
  | inr (Failed s) =>
      (Returns EmptyString (Some ErrKeyboard), written s ++ [inl ResetState])
  | inr (Stopped s) =>
      if interrupted s then
        (Returns EmptyString (Some ErrInterrupted),
         written s ++ [inl ResetState])
      else
        (Returns (TrimRight (runesString (inBuf s)) CRLF) None,
         written s ++ [inl ResetState])
  | inr (Panicked s) => (Panics, written s ++ [inl ResetState])
  end.

End Handler.

End edit.

(** The text prompt. *)
Module textInput.

(** The fields of the struct the frames and the result depend on. *)
Record t : Type := mk {
  placeholder : string;
  defaultValue : string;
  validator : option (string -> string * bool)
}.

Definition NewTextInput : t := mk EmptyString EmptyString None.

Definition WithPlaceholder (txt : string) (ti : t) : t :=
  mk txt (defaultValue ti) (validator ti).

Definition WithDefaultValue (val : string) (ti : t) : t :=
  mk (placeholder ti) val (validator ti).

Definition WithValidator (fn : string -> string * bool) (ti : t) : t :=
  mk (placeholder ti) (defaultValue ti) (Some fn).

(** The text of [placeholderLine]. *)
Definition placeholderLine (ti : t) : string :=
  if negb (isEmpty (placeholder ti)) && negb (isEmpty (defaultValue ti)) then
    (placeholder ti ++ " (default: " ++ defaultValue ti ++ ")")%string
  else if negb (isEmpty (placeholder ti)) then placeholder ti
  else if negb (isEmpty (defaultValue ti)) then
    ("default: " ++ defaultValue ti)%string
  else EmptyString.

Definition redraw (ti : t) (input : list Z) (cursor : Z)
    (validationMsg : string) (ok : option bool) (s : edit.state)
    : edit.state :=
  edit.draw
    (mkInputFrame
       (if len input =? 0 then Some (placeholderLine ti) else None)
       (edit.validationLine
          (match validator ti with Some _ => true | None => false end)
          validationMsg ok s)
       (if negb (len input =? 0) then Some (runesString input) else None)
       (if negb (len input =? 0) && (cursor <? len input)
        then ansiCursorLeft (Int.sub (len input) cursor) else None))
    s.

Definition handler (ti : t)
    : edit.state -> keys.Key -> option (edit.state * bool) :=
  edit.handler (validator ti) (redraw ti).

Definition listen (term : Terminal) (ti : t) (ins : list input)
    : outcome string * list (output + inputFrame) + loop edit.state :=
  edit.listen (validator ti) (redraw ti) term ins.

Definition Render (term : Terminal) (ti : t) (ins : list input)
    : outcome string * list (output + inputFrame) :=
  edit.Render (validator ti) (redraw ti) term ins.

End textInput.

(** The prompt for a secret. *)
Module SecureInput.

Record t : Type := mk {
  placeholder : string;
  noEcho : bool;
  validator : option (string -> string * bool)
}.

Definition NewSecureInput : t := mk EmptyString false None.

Definition WithPlaceholder (txt : string) (si : t) : t :=
  mk txt (noEcho si) (validator si).

Definition WithNoEcho (si : t) : t := mk (placeholder si) true (validator si).

Definition WithValidator (fn : string -> string * bool) (si : t) : t :=
  mk (placeholder si) (noEcho si) (Some fn).

(** [strings.Repeat("*", n)]. *)
Definition stars (n : Z) : string :=
  string_of_list_ascii (repeat "*"%char (Z.to_nat n)).

Definition redraw (si : t) (input : list Z) (cursor : Z)
    (validationMsg : string) (ok : option bool) (s : edit.state)
    : edit.state :=
  let echo := negb (len input =? 0) && negb (noEcho si) in
  edit.draw
    (mkInputFrame
       (if len input =? 0 then Some (placeholder si) else None)
       (edit.validationLine
          (match validator si with Some _ => true | None => false end)
          validationMsg ok s)
       (if echo then Some (stars (len input)) else None)
       (if echo && (cursor <? len input)
        then ansiCursorLeft (Int.sub (len input) cursor) else None))
    s.

Definition handler (si : t)
    : edit.state -> keys.Key -> option (edit.state * bool) :=
  edit.handler (validator si) (redraw si).

Definition listen (term : Terminal) (si : t) (ins : list input)
    : outcome string * list (output + inputFrame) + loop edit.state :=
  edit.listen (validator si) (redraw si) term ins.

Definition Render (term : Terminal) (si : t) (ins : list input)
    : outcome string * list (output + inputFrame) :=
  edit.Render (validator si) (redraw si) term ins.

End SecureInput.

(** ** The progress bar and the spinner *)

Module Progress.

(** The fields of the struct [Increment] and the builders of the counts
    work on. *)
Record t : Type := mk {
  label : string;
  steps : Z;
  current : Z;
  width : Z
}.

Definition NewProgress : t := mk "Activity in progress" 0 0 40.

Definition WithLabel (lbl : string) (pr : t) : t :=
  mk lbl (steps pr) (current pr) (width pr).

Definition WithWidth (w : Z) (pr : t) : t :=
  mk (label pr) (steps pr) (current pr) (Z.max 0 w).

Definition WithSteps (n : Z) (pr : t) : t :=
  mk (label pr) (Z.max 0 n) (current pr) (width pr).

(** [Increment]. *)
Definition Increment (pr : t) : t :=
  if steps pr <=? 0 then pr
  else
    let current := Int.add (current pr) 1 in
    mk (label pr) (steps pr)
       (if steps pr <? current then steps pr else current) (width pr).

End Progress.

Module Spinner.

Record t : Type := mk {
  frames : list string;
  label : string
}.

Definition SpinnerPatternDefault : list string :=
  map (fun r => ("[" ++ runeString r ++ "] ")%string)
      [0x280B; 0x2819; 0x2839; 0x2838; 0x283C; 0x2834; 0x2826; 0x2827;
       0x2807; 0x280F].

Definition NewSpinner : t := mk SpinnerPatternDefault "Loading...".

Definition WithFrames (frames : list string) (sp : t) : t :=
  mk frames (label sp).

Definition WithLabel (txt : string) (sp : t) : t := mk (frames sp) txt.

(** [sp.frames[i%len(sp.frames)]]: [None] for the panic of a division by zero
    or of an index out of range. [%] is the remainder of the division that
    truncates. *)
Definition currFrame (sp : t) (i : Z) : option string :=
  if len (frames sp) =? 0 then None
  else index (frames sp) (Z.rem i (len (frames sp))).

(** The render loop, from the counter [i] on: the frames it draws when its
    body runs [passes] times before it finds [sp.stop] set. *)
Fixpoint renderLoop (sp : t) (i : Z) (passes : nat) : option (list string) :=
  match passes with
  | O => Some []
  | S passes' =>
      match currFrame sp i with
      | None => None
      | Some frame =>
          option_map (cons frame) (renderLoop sp (Int.add i 1) passes')
      end
  end.

(** [Start] with the loop it starts: nothing is drawn when the label and the
    frames are both empty. *)
Definition Start (sp : t) (passes : nat) : option (list string) :=
  if isEmpty (label sp) && (len (frames sp) =? 0) then Some []
  else renderLoop sp 0 passes.

End Spinner.

(** The closed examples of the colours consult no table of white space. *)
Definition noSpaces : UnicodeSpaces :=
  {| trimFunc := fun s => s; trimRightFunc := fun s => s |}.

(** The cursor of a text prompt stands in the buffer or right after it. *)
Definition inside (s : edit.state) : Prop :=
  0 <= edit.cursorPos s <= len (edit.inBuf s).

(** A [redraw] that draws one frame and changes nothing else. *)
Definition draws
    (redraw : list Z -> Z -> string -> option bool -> edit.state -> edit.state)
    : Prop :=
  forall input cursor msg ok s,
    exists f, redraw input cursor msg ok s = edit.draw f s.

(** What a validator, if there is one, says of a text. *)
Definition accepts (validator : option (string -> string * bool))
    (text : string) : Prop :=
  forall validate, validator = Some validate -> snd (validate text) = true.

(** A terminal with room for a prompt of [lines] lines. *)
Definition roomy (term : Terminal) (lines : Z) : Prop :=
  lines <= termHeight term /\ 50 <= termWidth term.

(** The key of a rune, and the Backspace key. *)
Definition runeKey (r : Z) : keys.Key := keys.mkKey keys.RuneKey [r].
Definition backspaceKey : keys.Key := keys.mkKey keys.Backspace [].

(** The frames a text prompt has written all are as [shows] says. *)
Definition shown (shows : inputFrame -> Prop) (s : edit.state) : Prop :=
  forall f, In (inr f) (edit.written s) -> shows f.

(** The value of a hexadecimal digit. *)
Definition hexValue (c : ascii) : option Z :=
  match digitValue c with
  | Some d => if d <? 16 then Some d else None
  | None => None
  end.

(** Whether a number fits a byte. *)
Definition isByte (z : Z) : bool := (0 <=? z) && (z <=? 255).

(** The parameters [Sprint] has to write for a set of attributes, in the
    order it writes them. *)
Definition sgrCodes (st : styles.attribs) : list string :=
  (if styles.bold st then ["1"] else [])
  ++ (if styles.dim st then ["2"] else [])
  ++ (if styles.italic st then ["3"] else [])
  ++ (if styles.underline st then ["4"] else [])
  ++ (if styles.strikethrough st then ["9"] else [])
  ++ (match styles.toSGR (styles.fg st) false with
      | (code, true) => [code]
      | (_, false) => []
      end)
  ++ (match styles.toSGR (styles.bg st) true with
      | (code, true) => [code]
      | (_, false) => []
      end).

(** A choice a key can select: one of the choices, and not disabled. *)
Definition selectable (choices : list Choice) (c : Choice) : Prop :=
  In c choices /\ Disabled c = false.

(** A validator that asks for some text, and a buffer with the cursor
    between its two runes. *)
Definition required (text : string) : string * bool :=
  if isEmpty text then ("Some text is required", false) else (EmptyString, true).

Definition betweenRunes : edit.state := edit.mkState [104; 105] 1 true false [].

(** A progress of three steps. *)
Definition threeSteps : Progress.t := Progress.WithSteps 3 Progress.NewProgress.

(** Keys of every kind a text prompt handles. *)
Definition editingKeys : list input :=
  [typed 104; press keys.Left; typed 105; press keys.Backspace;
   press keys.Backspace; press keys.Right; press keys.Space; press keys.Tab;
   press keys.Enter].

(** * Properties *)

(** ** Integers, slices and strings *)

Lemma wrap_id (z : Z) : Int.inRange z -> Int.wrap z = z.
Proof.
  unfold Int.inRange, Int.minInt, Int.maxInt, Int.wrap.
  change (2 ^ 63) with 9223372036854775808.
  change (2 ^ 64) with 18446744073709551616.
  intros H. rewrite Z.mod_small; lia.
Qed.

Lemma len_nonneg {A : Type} (l : list A) : 0 <= len l.
Proof. unfold len. lia. Qed.

Lemma len_nil_iff {A : Type} (l : list A) : len l = 0 <-> l = [].
Proof.
  unfold len. destruct l; simpl; split; intros H; try reflexivity;
    try discriminate; lia.
Qed.

Lemma len_app {A : Type} (l l' : list A) : len (l ++ l') = len l + len l'.
Proof. unfold len. rewrite length_app. lia. Qed.

Lemma len_cons {A : Type} (x : A) (l : list A) : len (x :: l) = len l + 1.
Proof. unfold len. cbn [List.length]. lia. Qed.

Lemma index_some {A : Type} (l : list A) (i : Z) :
  0 <= i < len l -> exists x, index l i = Some x.
Proof.
  unfold index, len. intros H.
  destruct (Z.ltb_spec i 0); [lia|].
  destruct (nth_error l (Z.to_nat i)) eqn:E; [eauto|].
  apply nth_error_None in E. lia.
Qed.

Lemma index_range {A : Type} (l : list A) (i : Z) (x : A) :
  index l i = Some x -> 0 <= i < len l.
Proof.
  unfold index, len. destruct (Z.ltb_spec i 0); [discriminate|].
  intros E. assert (nth_error l (Z.to_nat i) <> None) as N by congruence.
  apply nth_error_Some in N. lia.
Qed.

Lemma HasPrefix_iff (s prefix : string) :
  HasPrefix s prefix = true <-> exists rest, s = append prefix rest.
Proof.
  revert s. induction prefix as [|p prefix IH]; intros s; simpl.
  - destruct s; split; eauto.
  - destruct s as [|c s].
    + split; [discriminate | intros [rest E]; discriminate].
    + simpl. rewrite andb_true_iff, IH. split.
      * intros [E [rest ->]]. apply Ascii.eqb_eq in E. subst. eauto.
      * intros [rest E]. injection E as -> ->. split; [apply Ascii.eqb_refl | eauto].
Qed.


Lemma ToLower_ascii (U V : UnicodeTables) (s : string) :
  isASCII s = true -> @ToLower U s = @ToLower V s.
Proof. unfold ToLower. now intros ->. Qed.


(** [Selects] says what its words say: [l'] holds the elements of [l] that
    satisfy [P] and no other, and [P] and [l] leave no choice of [l']. *)
Lemma Selects_In {A : Type} (P : A -> Prop) (l l' : list A) :
  Selects P l l' -> forall x, In x l' <-> In x l /\ P x.
Proof.
  induction 1 as [|x l l' Px _ IH|x l l' Px _ IH]; intros y; simpl.
  - tauto.
  - rewrite IH. split; [intros [->|[? ?]]; auto | intros [[->|?] ?]; auto].
  - rewrite IH. split; [tauto | intros [[->|?] ?]; tauto].
Qed.

Lemma Selects_unique {A : Type} (P : A -> Prop) (l l1 l2 : list A) :
  Selects P l l1 -> Selects P l l2 -> l1 = l2.
Proof.
  intros H. revert l2.
  induction H as [|x l l' Px _ IH|x l l' Px _ IH]; intros l2 H2;
    inversion H2; subst; try contradiction; try reflexivity.
  - f_equal. now apply IH.
  - now apply IH.
Qed.

Section Filter.
Context {U : UnicodeTables}.

Lemma filter_loop (f : Choice -> bool) (l acc : list Choice) :
  fold_left (fun filtered c => if f c then filtered ++ [c] else filtered) l acc
  = acc ++ filter f l.
Proof.
  revert acc. induction l as [|c l IH]; intros acc; simpl.
  - now rewrite app_nil_r.
  - rewrite IH. destruct (f c); [|reflexivity].
    now rewrite <- app_assoc.
Qed.

Lemma filterChoices_filter (choices : list Choice) (query : string) :
  filterChoices choices query =
  if isEmpty query then choices else filter (matches query) choices.
Proof.
  unfold filterChoices. destruct (isEmpty query); [reflexivity|].
  exact (filter_loop (matches query) choices []).
Qed.

Lemma filterChoices_len (choices : list Choice) (query : string) :
  len (filterChoices choices query) <= len choices.
Proof.
  rewrite filterChoices_filter. destruct (isEmpty query); [lia|].
  unfold len. pose proof (filter_length_le (matches query) choices). lia.
Qed.


End Filter.

(** Choices with ASCII labels are filtered by an ASCII query the same way
    whatever the tables: the closed examples do not depend on [noTables]. *)
Lemma filterChoices_ascii (U V : UnicodeTables) (choices : list Choice)
    (query : string) :
  isASCII query = true ->
  forallb (fun c => isASCII (Label c)) choices = true ->
  @filterChoices U choices query = @filterChoices V choices query.
Proof.
  intros Q L. rewrite !filterChoices_filter.
  destruct (isEmpty query); [reflexivity|].
  apply filter_ext_in. intros c Hc. unfold matches.
  rewrite forallb_forall in L.
  now rewrite (ToLower_ascii U V query Q), (ToLower_ascii U V _ (L c Hc)).
Qed.

(** ** The cursor and the window *)

Lemma maxInt_eq : Int.maxInt = 9223372036854775807.
Proof. reflexivity. Qed.

Lemma minInt_eq : Int.minInt = -9223372036854775808.
Proof. reflexivity. Qed.

Lemma allocatable_lt (choices : list Choice) :
  allocatable choices -> len choices < 4611686018427387904.
Proof. intros H. exact H. Qed.

(** Removes the wrap-around of the sums and differences that stay in range. *)
Ltac unwrap_one z :=
  let E := fresh "E" in
  assert (Int.wrap z = z) as E
    by (apply wrap_id; unfold Int.inRange; rewrite maxInt_eq, minInt_eq; lia);
  rewrite !E in *; clear E.

Ltac unwrap :=
  unfold Int.add, Int.sub in *;
  repeat match goal with
    | |- context [Int.wrap ?z] => unwrap_one z
    | H : context [Int.wrap ?z] |- _ => unwrap_one z
    end.

(** Splits the first comparison the goal branches on. *)
Ltac branch :=
  match goal with
  | |- context [if ?a <? ?b then _ else _] => destruct (Z.ltb_spec a b)
  | |- context [if ?a <=? ?b then _ else _] => destruct (Z.leb_spec a b)
  | |- context [if ?a =? ?b then _ else _] => destruct (Z.eqb_spec a b)
  end.

Ltac window_cases :=
  repeat (unwrap; try branch); cbn [filteredChoices cursorIdx startIdx endIdx] in *.

Lemma nonempty_len {A : Type} (l : list A) : l <> [] -> 0 < len l.
Proof. destruct l; [congruence | unfold len; simpl; lia]. Qed.

(** Closes a conjunct of an invariant, with what the invariant said before for
    a list of choices that is not empty. *)
Ltac conjunct :=
  intros;
  repeat match goal with
    | Hn : ?f <> [] -> _, Hf : ?f <> [] |- _ => specialize (Hn Hf)
    end;
  repeat match goal with
    | Hf : _ <> [] |- _ => apply nonempty_len in Hf
    end;
  lia.

Lemma navigateUp_filtered (p : Z) (w : window) :
  filteredChoices (navigateUp p w) = filteredChoices w.
Proof. unfold navigateUp. repeat branch; reflexivity. Qed.

Lemma navigateDown_filtered (p : Z) (w : window) :
  filteredChoices (navigateDown p w) = filteredChoices w.
Proof. unfold navigateDown. repeat branch; reflexivity. Qed.

Lemma resetCursorAfterFilter_filtered (p : Z) (w : window) :
  filteredChoices (resetCursorAfterFilter p w) = filteredChoices w.
Proof. unfold resetCursorAfterFilter. cbv zeta. repeat branch; reflexivity. Qed.

Section Windows.
Variable p : Z.
Variable w : window.
Hypothesis fits : len (filteredChoices w) <= Int.maxInt.

Lemma navigateUp_sound : sound w -> sound (navigateUp p w).
Proof.
  rewrite maxInt_eq in fits. unfold sound, navigateUp.
  intros (Hs & He & Hc & Hn).
  pose proof (len_nonneg (filteredChoices w)).
  window_cases; repeat split; conjunct.
Qed.

Lemma navigateDown_sound : sound w -> sound (navigateDown p w).
Proof.
  rewrite maxInt_eq in fits. unfold sound, navigateDown.
  intros (Hs & He & Hc & Hn).
  pose proof (len_nonneg (filteredChoices w)).
  window_cases; repeat split; conjunct.
Qed.

Lemma resetCursorAfterFilter_sound :
  0 <= startIdx w -> 0 <= cursorIdx w -> sound (resetCursorAfterFilter p w).
Proof.
  rewrite maxInt_eq in fits. unfold sound, resetCursorAfterFilter.
  intros Hs Hc. pose proof (len_nonneg (filteredChoices w)). cbv zeta.
  window_cases; repeat split; conjunct.
Qed.

End Windows.

Section Pages.
Variables p n : Z.
Variable w : window.
Hypothesis page : 1 <= p <= n.
Hypothesis small : n < 4611686018427387904.
Hypothesis fits : len (filteredChoices w) <= n.

Lemma navigateUp_paged : paged p w -> paged p (navigateUp p w).
Proof.
  unfold paged, navigateUp. intros (Hs & Hc & He & Hn).
  pose proof (len_nonneg (filteredChoices w)).
  window_cases; repeat split; conjunct.
Qed.

Lemma navigateDown_paged : paged p w -> paged p (navigateDown p w).
Proof.
  unfold paged, navigateDown. intros (Hs & Hc & He & Hn).
  pose proof (len_nonneg (filteredChoices w)).
  window_cases; repeat split; conjunct.
Qed.

Lemma resetCursorAfterFilter_paged :
  0 <= startIdx w <= cursorIdx w -> cursorIdx w <= n ->
  paged p (resetCursorAfterFilter p w).
Proof.
  unfold paged, resetCursorAfterFilter. intros Hs Hc.
  pose proof (len_nonneg (filteredChoices w)). cbv zeta.
  window_cases; repeat split; conjunct.
Qed.

End Pages.

Lemma paged_windowOk (p : Z) (w : window) : paged p w -> windowOk p w.
Proof.
  unfold paged, windowOk. intros (Hs & Hc & He & Hn) Hf.
  specialize (Hn Hf). lia.
Qed.


(** ** Drawing and listening *)

Lemma drawRows_some (isSelected : Choice -> bool) (filtered : list Choice)
    (cursor : Z) (n : nat) :
  forall i, 0 <= i -> (n <> O -> i + Z.of_nat n <= len filtered) ->
  exists rs, drawRows isSelected filtered cursor i n = Some rs.
Proof.
  induction n as [|n IH]; intros i Hi Hn; simpl; [eauto|].
  assert (i + Z.of_nat (S n) <= len filtered) as Hl by (apply Hn; congruence).
  destruct (index_some filtered i) as [c ->]; [lia|].
  destruct (IH (i + 1)) as [rs ->]; [lia | lia | eauto].
Qed.

(** [redraw] draws a frame of a sound window, and changes nothing else. *)
Lemma redraw_some {S : Type} (isSelected : S -> Choice -> bool)
    (selectedCount : S -> Z) (p : Z) (s : session S) :
  sound (win s) ->
  exists f, redraw isSelected selectedCount p s = Some (write (Draw f) s).
Proof.
  intros (Hs & He & _). unfold redraw.
  destruct (drawRows_some (isSelected (selection s)) (filteredChoices (win s))
              (cursorIdx (win s)) (Z.to_nat (endIdx (win s) - startIdx (win s)))
              (startIdx (win s))) as [rs ->]; [lia | lia | eauto].
Qed.

Lemma redraw_inv {S : Type} (isSelected : S -> Choice -> bool)
    (selectedCount : S -> Z) (p : Z) (s s' : session S) :
  redraw isSelected selectedCount p s = Some s' ->
  exists f, s' = write (Draw f) s.
Proof.
  unfold redraw. destruct (drawRows _ _ _ _ _); [|discriminate].
  intros E. injection E as <-. eauto.
Qed.

Lemma Listen_app {S : Type} (h : S -> keys.Key -> option (S * bool))
    (ins ins' : list input) :
  forall s,
    Listen h s (ins ++ ins') =
    match Listen h s ins with
    | Listening s' => Listen h s' ins'
    | stopped => stopped
    end.
Proof.
  induction ins as [|[key|] ins IH]; intros s; simpl; try reflexivity.
  destruct (h s key) as [[s' [|]]|]; [reflexivity | apply IH | reflexivity].
Qed.

(** What every step of the handler keeps holds wherever the loop stands. *)
Lemma Listen_invariant {S : Type} (h : S -> keys.Key -> option (S * bool))
    (I : S -> Prop) :
  (forall s key s' stop, I s -> h s key = Some (s', stop) -> I s') ->
  forall ins s, I s -> I (loopState (Listen h s ins)).
Proof.
  intros step. induction ins as [|[key|] ins IH]; intros s Hs; simpl;
    try exact Hs.
  destruct (h s key) as [[s' [|]]|] eqn:E; simpl.
  - exact (step _ _ _ _ Hs E).
  - apply IH. exact (step _ _ _ _ Hs E).
  - exact Hs.
Qed.

(** A handler that answers every key in the states of [I] never panics. *)
Lemma Listen_never_panics {S : Type} (h : S -> keys.Key -> option (S * bool))
    (I : S -> Prop) :
  (forall s key, I s -> exists s' stop, h s key = Some (s', stop) /\ I s') ->
  forall ins s, I s -> forall s', Listen h s ins <> Panicked s'.
Proof.
  intros step. induction ins as [|[key|] ins IH]; intros s Hs s'; simpl;
    try discriminate.
  destruct (step s key Hs) as (s1 & stop & -> & H1).
  destruct stop; [discriminate | now apply IH].
Qed.

(** ** The steps of the window *)

Section Steps.
Context {U : UnicodeTables}.
Variable choices : list Choice.
Variable p : Z.

Lemma winStep_good (w w' : window) :
  allocatable choices -> good choices w -> winStep choices p w w' -> good choices w'.
Proof.
  intros Ha [Hs Hl] Hw. apply allocatable_lt in Ha.
  assert (len (filteredChoices w) <= Int.maxInt) as fits
    by (rewrite maxInt_eq; lia).
  destruct Hw as [-> | [-> | [-> | [query ->]]]]; split; auto.
  - now apply navigateUp_sound.
  - now rewrite navigateUp_filtered.
  - now apply navigateDown_sound.
  - now rewrite navigateDown_filtered.
  - destruct Hs as (Hs & _ & Hc & _).
    apply resetCursorAfterFilter_sound; simpl; try lia.
    pose proof (filterChoices_len choices query). rewrite maxInt_eq. lia.
  - rewrite resetCursorAfterFilter_filtered. simpl.
    apply filterChoices_len.
Qed.

Lemma winStep_paged (w w' : window) :
  allocatable choices -> 1 <= p <= len choices ->
  pagedIn choices p w -> winStep choices p w w' -> pagedIn choices p w'.
Proof.
  intros Ha Hp [Hs Hl] Hw. apply allocatable_lt in Ha.
  destruct Hw as [-> | [-> | [-> | [query ->]]]]; split; auto.
  - now apply (navigateUp_paged p (len choices)).
  - now rewrite navigateUp_filtered.
  - now apply (navigateDown_paged p (len choices)).
  - now rewrite navigateDown_filtered.
  - destruct Hs as (Hs & Hc & _).
    apply (resetCursorAfterFilter_paged p (len choices)); simpl; try lia.
    apply filterChoices_len.
  - rewrite resetCursorAfterFilter_filtered. simpl.
    apply filterChoices_len.
Qed.

Lemma search_win {S : Type} (query : string) (s : session S) :
  winStep choices p (win s) (win (search choices p query s)).
Proof. right. right. right. exists query. reflexivity. Qed.

End Steps.

(** Splits the hypothesis [H], an equation on the result of a [switch], into
    the cases of the [switch]. *)
Ltac switch_cases H :=
  repeat match type of H with
    | context [match ?x with _ => _ end] => destruct x eqn:?
    end;
  try discriminate H;
  first [injection H as <- <- | injection H as <-].

(** The window [Render] starts with. *)
Lemma first_window_good (l : list Choice) (q : Z) :
  l <> [] -> sound (mkWindow l 0 0 (Z.min (len l) q)).
Proof.
  intros Hne. apply nonempty_len in Hne. unfold sound. simpl.
  repeat split; lia.
Qed.

Lemma first_window_paged (l : list Choice) (q : Z) :
  l <> [] -> 1 <= q -> paged q (mkWindow l 0 0 (Z.min (len l) q)).
Proof.
  intros Hne Hq. apply nonempty_len in Hne. unfold paged. simpl.
  repeat split; lia.
Qed.

(** ** The single-select loop *)

Section Single.
Context {U : UnicodeTables}.
Variable ss : singleSelect.t.

Let choices := singleSelect.choices ss.
Let p := singleSelect.pageSizeOf ss.

Lemma single_switch_win (s s' : session Choice) (key : keys.Key) (stop : bool) :
  singleSelect.switch ss s key = Some (s', stop) ->
  winStep choices p (win s) (win s').
Proof.
  intros H. destruct key as [code runes].
  unfold singleSelect.switch in H. cbv zeta in H.
  destruct code; cbn [keys.Code keys.Runes] in H; switch_cases H;
    cbn [win set_win set_valMessage set_searchMode set_interrupted set_selection];
    try (left; reflexivity);
    try (right; left; reflexivity);
    try (right; right; left; reflexivity);
    apply search_win.
Qed.

Lemma single_switch_some (s : session Choice) (key : keys.Key) :
  sound (win s) -> exists s' stop, singleSelect.switch ss s key = Some (s', stop).
Proof.
  intros (_ & _ & Hc & Hn). destruct key as [code runes].
  unfold singleSelect.switch. cbv zeta.
  destruct code; cbn [keys.Code keys.Runes]; eauto;
    repeat match goal with
      | |- context [index ?l ?i] => fail 1
      | |- context [match ?x with _ => _ end] => destruct x eqn:?
      end; eauto.
  destruct (Z.eqb_spec (len (filteredChoices (win s))) 0) as [E|E]; eauto.
  destruct (index_some (filteredChoices (win s)) (cursorIdx (win s))) as [c ->].
  - split; [lia|]. apply Hn. intros F. apply E. now rewrite F.
  - repeat match goal with
      | |- context [match ?x with _ => _ end] => destruct x eqn:?
      end; eauto.
Qed.

(** The handler is the [switch], and a frame drawn if it did not return. *)
Lemma single_handler_inv (s s' : session Choice) (key : keys.Key) (stop : bool) :
  singleSelect.handler ss s key = Some (s', stop) ->
  exists x, singleSelect.switch ss s key = Some (x, stop) /\
            (if stop then s' = x else exists f, s' = write (Draw f) x).
Proof.
  unfold singleSelect.handler.
  destruct (singleSelect.switch ss s key) as [[x [|]]|]; try discriminate.
  - intros E. injection E as <- <-. eauto.
  - unfold singleSelect.redraw.
    destruct (redraw _ _ _ x) as [drawn|] eqn:D; [|discriminate].
    intros E. injection E as <- <-. apply redraw_inv in D. eauto.
Qed.

Lemma single_handler_some (s x : session Choice) (key : keys.Key) (stop : bool) :
  sound (win x) -> singleSelect.switch ss s key = Some (x, stop) ->
  exists s', singleSelect.handler ss s key = Some (s', stop) /\
             (if stop then s' = x else exists f, s' = write (Draw f) x).
Proof.
  intros Hx E. unfold singleSelect.handler. rewrite E.
  destruct stop; [eauto|].
  destruct (redraw_some singleSelect.isSelected singleSelect.selectedCount p x Hx)
    as [f D].
  unfold singleSelect.redraw. fold p. rewrite D. simpl. eauto.
Qed.

Lemma single_handler_win (s s' : session Choice) (key : keys.Key) (stop : bool) :
  singleSelect.handler ss s key = Some (s', stop) ->
  winStep choices p (win s) (win s').
Proof.
  intros H. apply single_handler_inv in H. destruct H as (x & E & D).
  apply single_switch_win in E.
  destruct stop; [subst; exact E | destruct D as [f ->]; exact E].
Qed.

Hypothesis alloc : allocatable choices.

Lemma single_handler_good (s : session Choice) (key : keys.Key) :
  good choices (win s) ->
  exists s' stop, singleSelect.handler ss s key = Some (s', stop) /\
                  good choices (win s').
Proof.
  intros G. destruct (single_switch_some s key (proj1 G)) as (x & stop & E).
  assert (good choices (win x)) as Gx
    by (eapply winStep_good; eauto using single_switch_win).
  destruct (single_handler_some s x key stop (proj1 Gx) E) as (s' & H & D).
  exists s', stop. split; [exact H|].
  destruct stop; [subst; exact Gx | destruct D as [f ->]; exact Gx].
Qed.

Variable term : Terminal.

(** The first state of the loop: the window is on the first page of all the
    choices, of which there is one at least. *)
Lemma single_start_inv (s : session Choice) :
  singleSelect.start term ss = inr s ->
  choices <> [] /\
  win s = mkWindow choices 0 0 (Z.min (len choices) p) /\
  searchQuery s = EmptyString /\ searchMode s = false /\
  valMessage s = EmptyString /\ interrupted s = false /\
  selection s =
    (if (0 <=? singleSelect.defaultChoice ss)
        && (singleSelect.defaultChoice ss <? len choices)
     then nth (Z.to_nat (singleSelect.defaultChoice ss)) choices zeroChoice
     else singleSelect.selectedChoice ss).
Proof.
  unfold singleSelect.start. fold choices p. cbv zeta.
  destruct (makeSpace term (Int.add 9 p)) as [[e|] out]; [discriminate|].
  destruct (Z.eqb_spec (len choices) 0) as [E|E]; [discriminate|].
  intros H.
  assert (choices <> []) as Hne by (intros F; apply E; now rewrite F).
  destruct ((0 <=? singleSelect.defaultChoice ss)
            && (singleSelect.defaultChoice ss <? len choices)) eqn:D.
  - destruct (index choices (singleSelect.defaultChoice ss)) as [c|] eqn:I;
      [|discriminate].
    destruct (singleSelect.redraw ss _) as [drawn|] eqn:R; [|discriminate].
    injection H as <-. apply redraw_inv in R. destruct R as [f ->].
    cbn. repeat split; auto.
    unfold index in I. destruct (singleSelect.defaultChoice ss <? 0); [discriminate|].
    symmetry. now apply nth_error_nth.
  - destruct (singleSelect.redraw ss _) as [drawn|] eqn:R; [|discriminate].
    injection H as <-. apply redraw_inv in R. destruct R as [f ->].
    cbn. repeat split; auto.
Qed.

Lemma single_start_good (s : session Choice) :
  singleSelect.start term ss = inr s -> good choices (win s).
Proof.
  intros H. apply single_start_inv in H. destruct H as (Hne & -> & _).
  split; [now apply first_window_good | simpl; lia].
Qed.

(** Wherever the loop stands, its window is good. *)
Lemma single_listen_good (ins : list input) (l : loop (session Choice)) :
  singleSelect.listen term ss ins = inr l -> good choices (win (loopState l)).
Proof.
  unfold singleSelect.listen.
  destruct (singleSelect.start term ss) as [failed|s] eqn:E; [discriminate|].
  intros H. injection H as <-.
  apply (Listen_invariant _ (fun s => good choices (win s))).
  - intros s0 key s' stop G H. eapply winStep_good; eauto.
    eapply single_handler_win; eauto.
  - now apply single_start_good.
Qed.

(** The single-select loop does not panic. *)
Lemma single_listen_never_panics (ins : list input) (s : session Choice) :
  singleSelect.listen term ss ins <> inr (Panicked s).
Proof.
  unfold singleSelect.listen.
  destruct (singleSelect.start term ss) as [failed|s0] eqn:E; [discriminate|].
  intros H. injection H as H. revert H.
  apply (Listen_never_panics _ (fun s => good choices (win s))).
  - intros s1 key G. apply single_handler_good. exact G.
  - now apply single_start_good.
Qed.

End Single.

(** ** The multi-select loop *)

Section Multi.
Context {U : UnicodeTables}.
Variable ms : multiSelect.t.

Let choices := multiSelect.choices ms.
Let p := multiSelect.pageSizeOf ms.

Lemma multi_switch_win (s s' : session (list Choice)) (key : keys.Key) (stop : bool) :
  multiSelect.switch ms s key = Some (s', stop) ->
  winStep choices p (win s) (win s').
Proof.
  intros H. destruct key as [code runes].
  unfold multiSelect.switch in H. cbv zeta in H.
  destruct code; cbn [keys.Code keys.Runes] in H; switch_cases H;
    cbn [win set_win set_valMessage set_searchMode set_interrupted set_selection];
    try (left; reflexivity);
    try (right; left; reflexivity);
    try (right; right; left; reflexivity);
    apply search_win.
Qed.

Lemma multi_switch_some (s : session (list Choice)) (key : keys.Key) :
  sound (win s) -> exists s' stop, multiSelect.switch ms s key = Some (s', stop).
Proof.
  intros (_ & _ & Hc & Hn). destruct key as [code runes].
  unfold multiSelect.switch. cbv zeta.
  destruct code; cbn [keys.Code keys.Runes]; eauto;
    repeat match goal with
      | |- context [index ?l ?i] => fail 1
      | |- context [match ?x with _ => _ end] => destruct x eqn:?
      end; eauto.
  destruct (Z.eqb_spec (len (filteredChoices (win s))) 0) as [E|E]; eauto.
  destruct (index_some (filteredChoices (win s)) (cursorIdx (win s))) as [c ->].
  - split; [lia|]. apply Hn. intros F. apply E. now rewrite F.
  - repeat match goal with
      | |- context [match ?x with _ => _ end] => destruct x eqn:?
      end; eauto.
Qed.

(** The handler is the [switch], and a frame drawn if it did not return. *)
Lemma multi_handler_inv (s s' : session (list Choice)) (key : keys.Key) (stop : bool) :
  multiSelect.handler ms s key = Some (s', stop) ->
  exists x, multiSelect.switch ms s key = Some (x, stop) /\
            (if stop then s' = x else exists f, s' = write (Draw f) x).
Proof.
  unfold multiSelect.handler.
  destruct (multiSelect.switch ms s key) as [[x [|]]|]; try discriminate.
  - intros E. injection E as <- <-. eauto.
  - unfold multiSelect.redraw.
    destruct (redraw _ _ _ x) as [drawn|] eqn:D; [|discriminate].
    intros E. injection E as <- <-. apply redraw_inv in D. eauto.
Qed.

Lemma multi_handler_some (s x : session (list Choice)) (key : keys.Key) (stop : bool) :
  sound (win x) -> multiSelect.switch ms s key = Some (x, stop) ->
  exists s', multiSelect.handler ms s key = Some (s', stop) /\
             (if stop then s' = x else exists f, s' = write (Draw f) x).
Proof.
  intros Hx E. unfold multiSelect.handler. rewrite E.
  destruct stop; [eauto|].
  destruct (redraw_some multiSelect.isSelected (fun selected => len selected)
              p x Hx) as [f D].
  unfold multiSelect.redraw. fold p. rewrite D. simpl. eauto.
Qed.

Lemma multi_handler_win (s s' : session (list Choice)) (key : keys.Key) (stop : bool) :
  multiSelect.handler ms s key = Some (s', stop) ->
  winStep choices p (win s) (win s').
Proof.
  intros H. apply multi_handler_inv in H. destruct H as (x & E & D).
  apply multi_switch_win in E.
  destruct stop; [subst; exact E | destruct D as [f ->]; exact E].
Qed.

Hypothesis alloc : allocatable choices.

Lemma multi_handler_good (s : session (list Choice)) (key : keys.Key) :
  good choices (win s) ->
  exists s' stop, multiSelect.handler ms s key = Some (s', stop) /\
                  good choices (win s').
Proof.
  intros G. destruct (multi_switch_some s key (proj1 G)) as (x & stop & E).
  assert (good choices (win x)) as Gx
    by (eapply winStep_good; eauto using multi_switch_win).
  destruct (multi_handler_some s x key stop (proj1 Gx) E) as (s' & H & D).
  exists s', stop. split; [exact H|].
  destruct stop; [subst; exact Gx | destruct D as [f ->]; exact Gx].
Qed.

Variable term : Terminal.

(** The first state of the loop. *)
Lemma multi_start_inv (s : session (list Choice)) :
  multiSelect.start term ms = inr s ->
  choices <> [] /\
  multiSelect.minRequired ms <= multiSelect.maxAllowed ms /\
  win s = mkWindow choices 0 0 (Z.min (len choices) p) /\
  searchQuery s = EmptyString /\ searchMode s = false /\
  valMessage s = EmptyString /\ interrupted s = false /\
  selection s = multiSelect.initialSelection ms.
Proof.
  unfold multiSelect.start. fold choices p. cbv zeta.
  destruct (makeSpace term (Int.add 9 p)) as [[e|] out]; [discriminate|].
  destruct (Z.eqb_spec (len choices) 0) as [E|E]; [discriminate|].
  destruct (Z.ltb_spec (multiSelect.maxAllowed ms) (multiSelect.minRequired ms))
    as [Hm|Hm]; [discriminate|].
  intros H.
  assert (choices <> []) as Hne by (intros F; apply E; now rewrite F).
  destruct (multiSelect.redraw ms _) as [drawn|] eqn:R; [|discriminate].
  injection H as <-. apply redraw_inv in R. destruct R as [f ->].
  cbn. repeat split; auto.
Qed.

Lemma multi_start_good (s : session (list Choice)) :
  multiSelect.start term ms = inr s -> good choices (win s).
Proof.
  intros H. apply multi_start_inv in H. destruct H as (Hne & _ & -> & _).
  split; [now apply first_window_good | simpl; lia].
Qed.

(** Wherever the loop stands, its window is good. *)
Lemma multi_listen_good (ins : list input) (l : loop (session (list Choice))) :
  multiSelect.listen term ms ins = inr l -> good choices (win (loopState l)).
Proof.
  unfold multiSelect.listen.
  destruct (multiSelect.start term ms) as [failed|s] eqn:E; [discriminate|].
  intros H. injection H as <-.
  apply (Listen_invariant _ (fun s => good choices (win s))).
  - intros s0 key s' stop G H. eapply winStep_good; eauto.
    eapply multi_handler_win; eauto.
  - now apply multi_start_good.
Qed.

(** The multi-select loop does not panic. *)
Lemma multi_listen_never_panics (ins : list input) (s : session (list Choice)) :
  multiSelect.listen term ms ins <> inr (Panicked s).
Proof.
  unfold multiSelect.listen.
  destruct (multiSelect.start term ms) as [failed|s0] eqn:E; [discriminate|].
  intros H. injection H as H. revert H.
  apply (Listen_never_panics _ (fun s => good choices (win s))).
  - intros s1 key G. apply multi_handler_good. exact G.
  - now apply multi_start_good.
Qed.

End Multi.

(** ** Keys handled one after the other *)

Lemma Choice_eqb_eq (a b : Choice) : Choice_eqb a b = true <-> a = b.
Proof.
  unfold Choice_eqb. destruct a as [v l d], b as [v' l' d']. simpl.
  rewrite !andb_true_iff, !String.eqb_eq, Bool.eqb_true_iff.
  split; [intros [[-> ->] ->]; reflexivity | intros E; injection E; auto].
Qed.

(** What holds at the start and after every key that does not stop the loop
    holds while the loop listens. *)
Lemma Listen_listening {S : Type} (h : S -> keys.Key -> option (S * bool))
    (I : S -> Prop) :
  (forall s key s', I s -> h s key = Some (s', false) -> I s') ->
  forall ins s s', I s -> Listen h s ins = Listening s' -> I s'.
Proof.
  intros step. induction ins as [|[key|] ins IH]; intros s s' Hs; simpl.
  - intros E. injection E as <-. exact Hs.
  - destruct (h s key) as [[s1 [|]]|] eqn:E; try discriminate.
    apply IH. exact (step _ _ _ Hs E).
  - discriminate.
Qed.

Section SingleKeys.
Context {U : UnicodeTables}.
Variable term : Terminal.
Variable ss : singleSelect.t.

Lemma single_listen_app (ins ins' : list input) (s : session Choice) :
  singleSelect.listen term ss ins = inr (Listening s) ->
  singleSelect.listen term ss (ins ++ ins') =
  inr (Listen (singleSelect.handler ss) s ins').
Proof.
  unfold singleSelect.listen.
  destruct (singleSelect.start term ss) as [failed|s0]; [discriminate|].
  intros E. injection E as E. now rewrite Listen_app, E.
Qed.

(** Only Ctrl+C sets [interrupted], and it stops the loop. *)
Lemma single_listening_not_interrupted (ins : list input) (s : session Choice) :
  singleSelect.listen term ss ins = inr (Listening s) -> interrupted s = false.
Proof.
  unfold singleSelect.listen.
  destruct (singleSelect.start term ss) as [failed|s0] eqn:E; [discriminate|].
  intros H. injection H as H. revert H.
  apply (Listen_listening _ (fun s => interrupted s = false)).
  - intros s1 key s' I H. apply single_handler_inv in H.
    destruct H as (x & H & D). simpl in D. destruct D as [f ->]. simpl.
    destruct key as [code runes]. unfold singleSelect.switch in H.
    cbv zeta in H.
    destruct code; cbn [keys.Code keys.Runes] in H; switch_cases H; exact I.
  - apply single_start_inv in E. tauto.
Qed.

(** A key on which the handler stops without an interrupt ends [Render] with
    the selection. *)
Lemma single_render_stop (ins : list input) (s s' : session Choice)
    (key : keys.Key) :
  singleSelect.listen term ss ins = inr (Listening s) ->
  singleSelect.handler ss s key = Some (s', true) ->
  interrupted s' = false ->
  fst (singleSelect.Render term ss (ins ++ [Pressed key])) =
  Returns (selection s') None.
Proof.
  intros L H I. unfold singleSelect.Render.
  rewrite (single_listen_app _ _ _ L). simpl. rewrite H, I. reflexivity.
Qed.

(** A key on which the handler goes on leaves [Render] waiting. *)
Lemma single_render_on (ins : list input) (s s' : session Choice)
    (key : keys.Key) :
  singleSelect.listen term ss ins = inr (Listening s) ->
  singleSelect.handler ss s key = Some (s', false) ->
  singleSelect.listen term ss (ins ++ [Pressed key]) = inr (Listening s') /\
  fst (singleSelect.Render term ss (ins ++ [Pressed key])) = Waiting.
Proof.
  intros L H. unfold singleSelect.Render.
  rewrite (single_listen_app _ _ _ L). simpl. rewrite H. auto.
Qed.

(** Whether Enter finds nothing to confirm. *)
Lemma nothing_to_confirm (s : session Choice) :
  (len (filteredChoices (win s)) =? 0) || Choice_eqb (selection s) zeroChoice
  = true <->
  filteredChoices (win s) = [] \/ selection s = zeroChoice.
Proof. rewrite orb_true_iff, Z.eqb_eq, len_nil_iff, Choice_eqb_eq. tauto. Qed.

(** Enter with nothing to confirm, on a prompt that is not optional. *)
Lemma single_enter_rejected (ins : list input) (s : session Choice) :
  sound (win s) ->
  singleSelect.listen term ss ins = inr (Listening s) ->
  filteredChoices (win s) = [] \/ selection s = zeroChoice ->
  singleSelect.optional ss = false ->
  fst (singleSelect.Render term ss (ins ++ [press keys.Enter])) = Waiting /\
  exists s', singleSelect.listen term ss (ins ++ [press keys.Enter])
             = inr (Listening s') /\
             valMessage s' = "No selection made (required)" /\
             selection s' = selection s.
Proof.
  intros G L Hn Ho. apply nothing_to_confirm in Hn.
  assert (singleSelect.switch ss s (keys.mkKey keys.Enter []) =
          Some (set_valMessage "No selection made (required)" s, false)) as E.
  { unfold singleSelect.switch. simpl. now rewrite Hn, Ho. }
  destruct (single_handler_some ss s _ _ _
              (G : sound (win (set_valMessage _ s))) E) as (s' & H & D).
  simpl in D. destruct D as [f ->].
  destruct (single_render_on ins s _ _ L H) as [L' R].
  split; [exact R|]. eexists. split; [exact L'|]. split; reflexivity.
Qed.

(** Enter that finds a selection to confirm, or an optional prompt. *)
Lemma single_enter_accepted (ins : list input) (s : session Choice) :
  singleSelect.listen term ss ins = inr (Listening s) ->
  (len (filteredChoices (win s)) =? 0) || Choice_eqb (selection s) zeroChoice
  = false \/ singleSelect.optional ss = true ->
  fst (singleSelect.Render term ss (ins ++ [press keys.Enter])) =
  Returns (selection s) None.
Proof.
  intros L H.
  apply (single_render_stop ins s s _ L);
    [|exact (single_listening_not_interrupted ins s L)].
  unfold singleSelect.handler, singleSelect.switch. simpl.
  destruct H as [-> | ->]; [reflexivity|].
  now destruct (_ || _).
Qed.

(** C3 (as amended): with the loop listening in the state [s], Enter is
    rejected with "No selection made (required)" and the loop goes on when
    the prompt is not optional and either nothing is selected or the search
    left no choice to see; on an optional prompt in that case, and whenever a
    choice is selected while the filtered list is not empty, [Render] returns
    the selection as it is, the zero [Choice] when nothing is selected. *)
Theorem single_confirm (ins : list input) (s : session Choice) :
  allocatable (singleSelect.choices ss) ->
  singleSelect.listen term ss ins = inr (Listening s) ->
  let confirmed := ins ++ [press keys.Enter] in
  ((filteredChoices (win s) = [] \/ selection s = zeroChoice) ->
   singleSelect.optional ss = false ->
   fst (singleSelect.Render term ss confirmed) = Waiting /\
   exists s', singleSelect.listen term ss confirmed = inr (Listening s') /\
              valMessage s' = "No selection made (required)" /\
              selection s' = selection s) /\
  ((filteredChoices (win s) = [] \/ selection s = zeroChoice) ->
   singleSelect.optional ss = true ->
   fst (singleSelect.Render term ss confirmed) = Returns (selection s) None) /\
  (filteredChoices (win s) <> [] -> selection s <> zeroChoice ->
   fst (singleSelect.Render term ss confirmed) = Returns (selection s) None).
Proof.
  intros alloc L confirmed.
  pose proof (single_listen_good ss alloc term ins _ L) as [G _].
  simpl in G. split; [|split].
  - now apply single_enter_rejected.
  - intros _ Ho. apply single_enter_accepted; auto.
  - intros Hf Hs. apply single_enter_accepted; [exact L|]. left.
    apply not_true_is_false. rewrite nothing_to_confirm. tauto.
Qed.

End SingleKeys.

(** ** Space and Enter in the single-select prompt *)

Section SingleToggle.
Context {U : UnicodeTables}.
Variable term : Terminal.
Variable ss : singleSelect.t.

(** Space on a choice that is not disabled. *)
Lemma single_space (s : session Choice) (c : Choice) :
  sound (win s) ->
  index (filteredChoices (win s)) (cursorIdx (win s)) = Some c ->
  Disabled c = false ->
  exists f,
    singleSelect.handler ss s (keys.mkKey keys.Space []) =
    Some (write (Draw f)
            (set_valMessage EmptyString
               (set_selection (toggled (selection s) c) s)), false).
Proof.
  intros G I D.
  assert ((len (filteredChoices (win s)) =? 0) = false) as E.
  { apply index_range in I. apply Z.eqb_neq. lia. }
  assert (singleSelect.switch ss s (keys.mkKey keys.Space []) =
          Some (set_valMessage EmptyString
                  (set_selection (toggled (selection s) c) s), false)) as W.
  { unfold singleSelect.switch, toggled. simpl. rewrite E, I, D.
    now destruct (String.eqb (Value (selection s)) (Value c)). }
  destruct (single_handler_some ss s _ _ _
              (G : sound (win (set_valMessage _ (set_selection _ s)))) W)
    as (s' & H & F).
  simpl in F. destruct F as [f ->]. eauto.
Qed.

(** Space pressed [n] times on a choice that is not disabled: the loop goes
    on, with the window it had and the selection toggled [n] times. *)
Lemma single_spaces (n : nat) (ins : list input) (s : session Choice)
    (c : Choice) :
  sound (win s) ->
  singleSelect.listen term ss ins = inr (Listening s) ->
  index (filteredChoices (win s)) (cursorIdx (win s)) = Some c ->
  Disabled c = false ->
  exists s',
    singleSelect.listen term ss (ins ++ repeat (press keys.Space) n) =
    inr (Listening s') /\
    win s' = win s /\
    selection s' = Nat.iter n (fun selected => toggled selected c) (selection s).
Proof.
  revert ins s. induction n as [|n IH]; intros ins s G L I D.
  - exists s. rewrite app_nil_r. auto.
  - destruct (single_space s c G I D) as [f H].
    destruct (single_render_on term ss ins s _ _ L H) as [L1 _].
    destruct (IH _ _ (G : sound (win (write (Draw f) (set_valMessage _
                        (set_selection _ s))))) L1 I D) as (s' & L' & W & E).
    exists s'. split; [|split].
    + change (repeat (press keys.Space) (S n))
        with ([press keys.Space] ++ repeat (press keys.Space) n).
      rewrite app_assoc. exact L'.
    + exact W.
    + rewrite E. simpl selection. clear.
      induction n as [|n IHn]; [reflexivity | simpl; now rewrite IHn].
Qed.

(** C10 (as amended): the zero [Choice] stands for no selection and Space
    compares values only. With nothing selected, Space on a choice that is
    not disabled and whose value is empty leaves nothing selected, however
    often it is pressed, and Enter after it is rejected on a prompt that is
    not optional. While a choice with another value is selected, Space does
    select the choice with the empty value. *)
Theorem empty_value_toggle (n : nat) (ins : list input) (s : session Choice)
    (c : Choice) :
  allocatable (singleSelect.choices ss) ->
  singleSelect.listen term ss ins = inr (Listening s) ->
  index (filteredChoices (win s)) (cursorIdx (win s)) = Some c ->
  Disabled c = false ->
  Value c = EmptyString ->
  (selection s = zeroChoice ->
   (exists s',
      singleSelect.listen term ss (ins ++ repeat (press keys.Space) n) =
      inr (Listening s') /\ selection s' = zeroChoice) /\
   (singleSelect.optional ss = false ->
    fst (singleSelect.Render term ss
           ((ins ++ repeat (press keys.Space) n) ++ [press keys.Enter]))
    = Waiting)) /\
  (Value (selection s) <> EmptyString ->
   exists s',
     singleSelect.listen term ss (ins ++ [press keys.Space]) =
     inr (Listening s') /\ selection s' = c).
Proof.
  intros alloc L I D V.
  pose proof (single_listen_good ss alloc term ins _ L) as [G _]. simpl in G.
  split.
  - intros Hz.
    destruct (single_spaces n ins s c G L I D) as (s' & L' & W & E).
    assert (selection s' = zeroChoice) as Hz'.
    { rewrite E, Hz. clear - V. induction n as [|n IHn]; [reflexivity|].
      simpl. rewrite IHn. unfold toggled. now rewrite V. }
    split; [eauto|]. intros O.
    apply (single_enter_rejected term ss _ s'); auto.
    rewrite W. exact G.
  - intros N.
    destruct (single_spaces 1 ins s c G L I D) as (s' & L' & W & E).
    exists s'. split; [exact L'|]. rewrite E. simpl. unfold toggled.
    rewrite V. destruct (String.eqb_spec (Value (selection s)) EmptyString);
      [contradiction | reflexivity].
Qed.

End SingleToggle.

(** ** Space and Enter in the multi-select prompt *)

Section Toggle.
Variable ms : multiSelect.t.

Lemma removeSelected_none (l : list Choice) (c : Choice) :
  multiSelect.isSelected l c = false -> multiSelect.removeSelected l c = None.
Proof.
  induction l as [|x l IH]; simpl; [reflexivity|].
  destruct (String.eqb (Value x) (Value c)); simpl; [discriminate|].
  intros H. now rewrite IH.
Qed.

Lemma removeSelected_some (l : list Choice) (c : Choice) :
  multiSelect.isSelected l c = true ->
  exists l', multiSelect.removeSelected l c = Some l' /\
             len l' = len l - 1 /\
             Permutation (map Value l) (Value c :: map Value l').
Proof.
  unfold multiSelect.isSelected.
  induction l as [|x l IH]; cbn [existsb multiSelect.removeSelected map];
    [discriminate|].
  destruct (String.eqb_spec (Value x) (Value c)) as [E|E]; cbn [orb].
  - intros _. exists l. rewrite E, len_cons. repeat split; auto. lia.
  - intros H. destruct (IH H) as (l' & -> & Hl & Hp). cbn [option_map].
    exists (x :: l'). repeat split.
    + rewrite !len_cons. lia.
    + cbn [map]. rewrite Hp. apply perm_swap.
Qed.

Lemma removeSelected_last (l : list Choice) (c : Choice) :
  multiSelect.isSelected l c = false ->
  multiSelect.removeSelected (l ++ [c]) c = Some l.
Proof.
  induction l as [|x l IH]; simpl.
  - now rewrite String.eqb_refl.
  - destruct (String.eqb (Value x) (Value c)); simpl; [discriminate|].
    intros H. now rewrite IH.
Qed.

Lemma isSelected_In (l : list Choice) (c : Choice) :
  multiSelect.isSelected l c = true <-> In (Value c) (map Value l).
Proof.
  unfold multiSelect.isSelected. rewrite existsb_exists, in_map_iff.
  split; intros (x & H1 & H2).
  - apply String.eqb_eq in H2. eauto.
  - exists x. rewrite String.eqb_eq. auto.
Qed.

Lemma removeSelected_once (l l' : list Choice) (c : Choice) :
  NoDup (map Value l) -> multiSelect.removeSelected l c = Some l' ->
  multiSelect.isSelected l' c = false.
Proof.
  revert l'. induction l as [|x l IH]; simpl; intros l' N H; [discriminate|].
  inversion N as [|v vs Hx Hl]; subst.
  destruct (String.eqb_spec (Value x) (Value c)) as [E|E].
  - injection H as <-. apply not_true_is_false. rewrite isSelected_In.
    now rewrite <- E.
  - destruct (multiSelect.removeSelected l c) as [r|] eqn:R; [|discriminate].
    injection H as <-. simpl.
    destruct (String.eqb_spec (Value x) (Value c)); [contradiction|].
    simpl. now apply IH.
Qed.

(** Space never selects more than the larger of what was selected and
    [maxAllowed]. *)
Lemma toggledIn_len (selected : list Choice) (c : Choice) :
  len (toggledIn ms selected c) <=
  Z.max (len selected) (multiSelect.maxAllowed ms).
Proof.
  unfold toggledIn.
  destruct (multiSelect.isSelected selected c) eqn:S; simpl.
  - unfold multiSelect.toggleSelection.
    destruct (removeSelected_some _ _ S) as (l' & -> & Hl & _). lia.
  - destruct (Z.leb_spec (multiSelect.maxAllowed ms) (len selected)); [lia|].
    unfold multiSelect.toggleSelection.
    rewrite (removeSelected_none _ _ S).
    destruct (_ || _); [rewrite len_app, len_cons; simpl|]; lia.
Qed.

(** Space twice on a choice that was not selected. *)
Lemma toggledIn_twice_new (selected : list Choice) (c : Choice) :
  multiSelect.isSelected selected c = false ->
  toggledIn ms (toggledIn ms selected c) c = selected.
Proof.
  intros S. unfold toggledIn at 2. rewrite S. simpl.
  destruct (Z.leb_spec (multiSelect.maxAllowed ms) (len selected)) as [M|M].
  - unfold toggledIn. rewrite S. simpl.
    destruct (Z.leb_spec (multiSelect.maxAllowed ms) (len selected));
      [reflexivity | lia].
  - unfold multiSelect.toggleSelection at 1.
    rewrite (removeSelected_none _ _ S).
    destruct ((multiSelect.maxSelectedCount ms =? 0)
              || (len selected <? multiSelect.maxSelectedCount ms)) eqn:A.
    + unfold toggledIn.
      assert (multiSelect.isSelected (selected ++ [c]) c = true) as S'.
      { apply isSelected_In. rewrite map_app. apply in_or_app. right.
        simpl. auto. }
      rewrite S'. simpl. unfold multiSelect.toggleSelection.
      now rewrite removeSelected_last.
    + unfold toggledIn. rewrite S. simpl.
      destruct (Z.leb_spec (multiSelect.maxAllowed ms) (len selected));
        [lia|].
      unfold multiSelect.toggleSelection.
      now rewrite (removeSelected_none _ _ S), A.
Qed.

(** Space twice on a selected choice: the same values, the one of the choice
    now last. *)
Lemma toggledIn_twice_old (selected : list Choice) (c : Choice) :
  0 <= multiSelect.maxSelectedCount ms ->
  NoDup (map Value selected) ->
  len selected <= multiSelect.maxAllowed ms ->
  multiSelect.isSelected selected c = true ->
  Permutation (map Value (toggledIn ms (toggledIn ms selected c) c))
              (map Value selected).
Proof.
  intros M N B S. unfold toggledIn at 2. rewrite S. simpl.
  unfold multiSelect.toggleSelection at 1.
  destruct (removeSelected_some _ _ S) as (l' & R & Hl & Hp). rewrite R.
  pose proof (removeSelected_once _ _ _ N R) as S'.
  unfold toggledIn. rewrite S'. simpl.
  destruct (Z.leb_spec (multiSelect.maxAllowed ms) (len l')); [lia|].
  unfold multiSelect.toggleSelection. rewrite (removeSelected_none _ _ S').
  assert ((multiSelect.maxSelectedCount ms =? 0)
          || (len l' <? multiSelect.maxSelectedCount ms) = true) as A.
  { unfold multiSelect.maxAllowed in *. apply orb_true_iff.
    destruct (Z.eqb_spec (multiSelect.maxSelectedCount ms) 0); [auto|].
    right. apply Z.ltb_lt.
    destruct (Z.eqb_spec (Z.max (multiSelect.maxSelectedCount ms) 0) 0); lia. }
  rewrite A, map_app. simpl. rewrite Hp.
  symmetry. apply Permutation_cons_append.
Qed.

End Toggle.

Section MultiKeys.
Context {U : UnicodeTables}.
Variable term : Terminal.
Variable ms : multiSelect.t.

Lemma multi_listen_app (ins ins' : list input) (s : session (list Choice)) :
  multiSelect.listen term ms ins = inr (Listening s) ->
  multiSelect.listen term ms (ins ++ ins') =
  inr (Listen (multiSelect.handler ms) s ins').
Proof.
  unfold multiSelect.listen.
  destruct (multiSelect.start term ms) as [failed|s0]; [discriminate|].
  intros E. injection E as E. now rewrite Listen_app, E.
Qed.

Lemma multi_listening_not_interrupted (ins : list input)
    (s : session (list Choice)) :
  multiSelect.listen term ms ins = inr (Listening s) -> interrupted s = false.
Proof.
  unfold multiSelect.listen.
  destruct (multiSelect.start term ms) as [failed|s0] eqn:E; [discriminate|].
  intros H. injection H as H. revert H.
  apply (Listen_listening _ (fun s => interrupted s = false)).
  - intros s1 key s' I H. apply multi_handler_inv in H.
    destruct H as (x & H & D). simpl in D. destruct D as [f ->]. simpl.
    destruct key as [code runes]. unfold multiSelect.switch in H.
    cbv zeta in H.
    destruct code; cbn [keys.Code keys.Runes] in H; switch_cases H; exact I.
  - apply multi_start_inv in E. tauto.
Qed.

Lemma multi_render_stop (ins : list input) (s s' : session (list Choice))
    (key : keys.Key) :
  multiSelect.listen term ms ins = inr (Listening s) ->
  multiSelect.handler ms s key = Some (s', true) ->
  interrupted s' = false ->
  fst (multiSelect.Render term ms (ins ++ [Pressed key])) =
  Returns (selection s') None.
Proof.
  intros L H I. unfold multiSelect.Render.
  rewrite (multi_listen_app _ _ _ L). simpl. rewrite H, I. reflexivity.
Qed.

Lemma multi_render_on (ins : list input) (s s' : session (list Choice))
    (key : keys.Key) :
  multiSelect.listen term ms ins = inr (Listening s) ->
  multiSelect.handler ms s key = Some (s', false) ->
  multiSelect.listen term ms (ins ++ [Pressed key]) = inr (Listening s') /\
  fst (multiSelect.Render term ms (ins ++ [Pressed key])) = Waiting.
Proof.
  intros L H. unfold multiSelect.Render.
  rewrite (multi_listen_app _ _ _ L). simpl. rewrite H. auto.
Qed.

(** Space on a choice that is not disabled: the window stays, the selection
    is toggled within [maxAllowed]. *)
Lemma multi_space (s : session (list Choice)) (c : Choice) :
  sound (win s) ->
  index (filteredChoices (win s)) (cursorIdx (win s)) = Some c ->
  Disabled c = false ->
  exists s',
    multiSelect.handler ms s (keys.mkKey keys.Space []) = Some (s', false) /\
    win s' = win s /\ selection s' = toggledIn ms (selection s) c.
Proof.
  intros G I D.
  assert ((len (filteredChoices (win s)) =? 0) = false) as E.
  { apply index_range in I. apply Z.eqb_neq. lia. }
  assert (exists x,
            multiSelect.switch ms s (keys.mkKey keys.Space []) = Some (x, false)
            /\ win x = win s /\ selection x = toggledIn ms (selection s) c)
    as (x & W & Hw & Hs).
  { unfold multiSelect.switch, toggledIn. simpl. rewrite E, I, D.
    destruct (negb (multiSelect.isSelected (selection s) c)
              && (multiSelect.maxAllowed ms <=? len (selection s)));
      [eauto|].
    destruct (_ <? _); eauto. }
  rewrite <- Hw in G.
  destruct (multi_handler_some ms s x _ _ G W) as (s' & H & F).
  simpl in F. destruct F as [f ->]. eauto.
Qed.

(** The keys never select more than the larger of the first selection and
    [maxAllowed]. *)
Lemma multi_switch_count (s s' : session (list Choice)) (key : keys.Key)
    (stop : bool) :
  multiSelect.switch ms s key = Some (s', stop) ->
  len (selection s') <= Z.max (len (selection s)) (multiSelect.maxAllowed ms).
Proof.
  intros H. destruct key as [code runes].
  unfold multiSelect.switch in H. cbv zeta in H.
  destruct code; cbn [keys.Code keys.Runes] in H;
    try (switch_cases H; simpl; lia).
  destruct (len (filteredChoices (win s)) =? 0);
    [switch_cases H; simpl; lia|].
  destruct (index _ _) as [c|]; [|discriminate].
  destruct (Disabled c); [switch_cases H; simpl; lia|].
  pose proof (toggledIn_len ms (selection s) c) as T. unfold toggledIn in T.
  destruct (negb _ && _); switch_cases H; simpl; lia.
Qed.

Lemma multi_count_bounded (ins : list input) (l : loop (session (list Choice))) :
  multiSelect.listen term ms ins = inr l ->
  len (selection (loopState l)) <=
  Z.max (len (multiSelect.initialSelection ms)) (multiSelect.maxAllowed ms).
Proof.
  unfold multiSelect.listen.
  destruct (multiSelect.start term ms) as [failed|s] eqn:E; [discriminate|].
  intros H. injection H as <-.
  apply (Listen_invariant _
           (fun s => len (selection s) <=
                     Z.max (len (multiSelect.initialSelection ms))
                           (multiSelect.maxAllowed ms))).
  - intros s0 key s' stop I H. apply multi_handler_inv in H.
    destruct H as (x & H & D). apply multi_switch_count in H.
    assert (selection s' = selection x) as ->
      by (destruct stop; [now subst | now destruct D as [f ->]]).
    lia.
  - apply multi_start_inv in E.
    destruct E as (_ & _ & _ & _ & _ & _ & _ & ->). lia.
Qed.

End MultiKeys.

(** Space twice in the single-select prompt. *)
Lemma toggled_twice (selected c : Choice) :
  (selected = zeroChoice -> toggled (toggled selected c) c = selected) /\
  (selected = c -> Value c <> EmptyString ->
   toggled (toggled selected c) c = selected) /\
  (Value selected <> Value c -> toggled (toggled selected c) c = zeroChoice).
Proof.
  unfold toggled. split; [|split].
  - intros ->. cbn [Value zeroChoice].
    destruct (String.eqb_spec EmptyString (Value c)) as [V|V].
    + cbn [Value zeroChoice]. now rewrite <- V.
    + now rewrite String.eqb_refl.
  - intros -> V. rewrite String.eqb_refl. cbn [Value zeroChoice].
    destruct (String.eqb_spec EmptyString (Value c)) as [E|E];
      [now elim V | reflexivity].
  - intros V. destruct (String.eqb_spec (Value selected) (Value c));
      [contradiction|]. now rewrite String.eqb_refl.
Qed.

(** ** The claims on both prompts *)

Section Claims.
Context {U : UnicodeTables}.
Variable term : Terminal.

(** C2 (as amended): Space pressed twice on a choice that is not disabled
    leaves the loop listening. In the single-select prompt the selection is
    then what it was when nothing was selected, or when the choice itself was
    selected and its value is not empty; when a choice of another value was
    selected, nothing is selected after the two keys. In the multi-select
    prompt the selection is what it was when the choice was not selected; when
    it was, the selected values are distinct and no more than [maxAllowed],
    the same values are selected after the two keys, in another order. *)
Theorem toggle_twice :
  (forall (ss : singleSelect.t) ins s c,
     allocatable (singleSelect.choices ss) ->
     singleSelect.listen term ss ins = inr (Listening s) ->
     index (filteredChoices (win s)) (cursorIdx (win s)) = Some c ->
     Disabled c = false ->
     exists s2,
       singleSelect.listen term ss (ins ++ [press keys.Space; press keys.Space])
       = inr (Listening s2) /\
       (selection s = zeroChoice -> selection s2 = selection s) /\
       (selection s = c -> Value c <> EmptyString -> selection s2 = selection s) /\
       (Value (selection s) <> Value c -> selection s2 = zeroChoice)) /\
  (forall (ms : multiSelect.t) ins s c,
     allocatable (multiSelect.choices ms) ->
     multiSelect.listen term ms ins = inr (Listening s) ->
     index (filteredChoices (win s)) (cursorIdx (win s)) = Some c ->
     Disabled c = false ->
     exists s2,
       multiSelect.listen term ms (ins ++ [press keys.Space; press keys.Space])
       = inr (Listening s2) /\
       (multiSelect.isSelected (selection s) c = false ->
        selection s2 = selection s) /\
       (multiSelect.isSelected (selection s) c = true ->
        0 <= multiSelect.maxSelectedCount ms ->
        NoDup (map Value (selection s)) ->
        len (selection s) <= multiSelect.maxAllowed ms ->
        Permutation (map Value (selection s2)) (map Value (selection s)))).
Proof.
  split.
  - intros ss ins s c alloc L I D.
    pose proof (single_listen_good ss alloc term ins _ L) as [G _].
    destruct (single_spaces term ss 2 ins s c G L I D) as (s2 & L2 & _ & E).
    exists s2. split; [exact L2|]. rewrite E. cbn [Nat.iter nat_rect].
    apply toggled_twice.
  - intros ms ins s c alloc L I D.
    pose proof (multi_listen_good ms alloc term ins _ L) as [G _].
    simpl in G.
    destruct (multi_space ms s c G I D) as (s1 & H1 & W1 & E1).
    destruct (multi_render_on term ms ins s _ _ L H1) as [L1 _].
    rewrite <- W1 in G, I.
    destruct (multi_space ms s1 c G I D) as (s2 & H2 & W2 & E2).
    destruct (multi_render_on term ms _ s1 _ _ L1 H2) as [L2 _].
    exists s2. rewrite <- app_assoc in L2. split; [exact L2|].
    rewrite E2, E1. split.
    + apply toggledIn_twice_new.
    + intros S M N B. now apply toggledIn_twice_old.
Qed.

(** The multi-select and the single-select loop keep their window [paged]
    once the page has a row. *)
Lemma single_listen_paged (ss : singleSelect.t) (ins : list input)
    (l : loop (session Choice)) :
  allocatable (singleSelect.choices ss) -> 1 <= singleSelect.pageSize ss ->
  singleSelect.listen term ss ins = inr l ->
  paged (singleSelect.pageSizeOf ss) (win (loopState l)).
Proof.
  intros alloc P. unfold singleSelect.listen.
  destruct (singleSelect.start term ss) as [failed|s] eqn:E; [discriminate|].
  intros H. injection H as <-.
  apply single_start_inv in E. destruct E as (Hne & W & _).
  assert (1 <= singleSelect.pageSizeOf ss <= len (singleSelect.choices ss)) as B.
  { apply nonempty_len in Hne. unfold singleSelect.pageSizeOf. lia. }
  apply (Listen_invariant _
           (fun s => pagedIn (singleSelect.choices ss)
                             (singleSelect.pageSizeOf ss) (win s))).
  - intros s0 key s' stop I H. eapply winStep_paged; eauto.
    eapply single_handler_win; eauto.
  - rewrite W. split; [apply first_window_paged; tauto | simpl; lia].
Qed.

Lemma multi_listen_paged (ms : multiSelect.t) (ins : list input)
    (l : loop (session (list Choice))) :
  allocatable (multiSelect.choices ms) -> 1 <= multiSelect.pageSize ms ->
  multiSelect.listen term ms ins = inr l ->
  paged (multiSelect.pageSizeOf ms) (win (loopState l)).
Proof.
  intros alloc P. unfold multiSelect.listen.
  destruct (multiSelect.start term ms) as [failed|s] eqn:E; [discriminate|].
  intros H. injection H as <-.
  apply multi_start_inv in E. destruct E as (Hne & _ & W & _).
  assert (1 <= multiSelect.pageSizeOf ms <= len (multiSelect.choices ms)) as B.
  { apply nonempty_len in Hne. unfold multiSelect.pageSizeOf. lia. }
  apply (Listen_invariant _
           (fun s => pagedIn (multiSelect.choices ms)
                             (multiSelect.pageSizeOf ms) (win s))).
  - intros s0 key s' stop I H. eapply winStep_paged; eauto.
    eapply multi_handler_win; eauto.
  - rewrite W. split; [apply first_window_paged; tauto | simpl; lia].
Qed.

(** C5 (as amended): for a configured page size of one row at least,
    wherever the loop of either prompt stands, after whatever keys, its
    window satisfies [windowOk] for the page size of the session: with
    filtered choices left, the cursor is on one of them, it is inside the
    visible slice, and the slice is no longer than the page. *)
Theorem window_invariant :
  (forall (ss : singleSelect.t) ins l,
     allocatable (singleSelect.choices ss) -> 1 <= singleSelect.pageSize ss ->
     singleSelect.listen term ss ins = inr l ->
     windowOk (singleSelect.pageSizeOf ss) (win (loopState l))) /\
  (forall (ms : multiSelect.t) ins l,
     allocatable (multiSelect.choices ms) -> 1 <= multiSelect.pageSize ms ->
     multiSelect.listen term ms ins = inr l ->
     windowOk (multiSelect.pageSizeOf ms) (win (loopState l))).
Proof.
  split; intros cfg ins l alloc P L; apply paged_windowOk.
  - now apply (single_listen_paged cfg ins).
  - now apply (multi_listen_paged cfg ins).
Qed.

(** With room on the terminal and a choice to show, [Render] reaches the
    loop. *)
Lemma single_start_some (ss : singleSelect.t) :
  fst (makeSpace term (Int.add 9 (singleSelect.pageSizeOf ss))) = None ->
  singleSelect.choices ss <> [] ->
  exists s, singleSelect.start term ss = inr s.
Proof.
  intros M Hne. unfold singleSelect.start. cbv zeta.
  destruct (makeSpace term _) as [[e|] out]; [discriminate|].
  pose proof (nonempty_len _ Hne) as Hl.
  destruct (Z.eqb_spec (len (singleSelect.choices ss)) 0); [lia|].
  assert (forall selected out',
            exists s,
              match singleSelect.redraw ss
                      (mkSession (mkWindow (singleSelect.choices ss) 0 0
                                    (Z.min (len (singleSelect.choices ss))
                                           (singleSelect.pageSizeOf ss)))
                                 EmptyString false EmptyString false selected out')
              with
              | Some s => inr s
              | None => inl (Panics, out' ++ [ResetState])
              end = (inr s : outcome Choice * list output + session Choice))
    as R.
  { intros selected out'. unfold singleSelect.redraw.
    edestruct (redraw_some singleSelect.isSelected singleSelect.selectedCount)
      as [f ->]; [|eauto].
    now apply first_window_good. }
  destruct ((0 <=? singleSelect.defaultChoice ss)
            && (singleSelect.defaultChoice ss <? len (singleSelect.choices ss)))
    eqn:D.
  - apply andb_true_iff in D. destruct D as [D1 D2].
    apply Z.leb_le in D1. apply Z.ltb_lt in D2.
    destruct (index_some (singleSelect.choices ss)
                (singleSelect.defaultChoice ss)) as [c ->]; [lia|].
    apply R.
  - apply R.
Qed.

Lemma multi_start_some (ms : multiSelect.t) :
  fst (makeSpace term (Int.add 9 (multiSelect.pageSizeOf ms))) = None ->
  multiSelect.choices ms <> [] ->
  multiSelect.minRequired ms <= multiSelect.maxAllowed ms ->
  exists s, multiSelect.start term ms = inr s.
Proof.
  intros M Hne B. unfold multiSelect.start. cbv zeta.
  destruct (makeSpace term _) as [[e|] out]; [discriminate|].
  pose proof (nonempty_len _ Hne) as Hl.
  destruct (Z.eqb_spec (len (multiSelect.choices ms)) 0); [lia|].
  destruct (Z.ltb_spec (multiSelect.maxAllowed ms) (multiSelect.minRequired ms));
    [lia|].
  unfold multiSelect.redraw.
  edestruct (redraw_some multiSelect.isSelected (fun selected => len selected))
    as [f ->]; [|eauto].
  now apply first_window_good.
Qed.

(** Every default index in range puts its choice into the first selection. *)
Lemma defaults_In (choices : list Choice) (c : Choice) (l : list Z) :
  forall acc,
    In c acc \/ (exists i, In i l /\ index choices i = Some c) ->
    In c (fold_left
            (fun selected defaultIdx =>
               if (0 <=? defaultIdx) && (defaultIdx <? len choices) then
                 match index choices defaultIdx with
                 | Some c => selected ++ [c]
                 | None => selected
                 end
               else selected)
            l acc).
Proof.
  induction l as [|j l IH]; intros acc H; simpl.
  - destruct H as [H | (i & [] & _)]. exact H.
  - apply IH. destruct H as [H | (i & [-> | Hi] & Hc)].
    + left. destruct (_ && _); [|exact H].
      destruct (index choices j); [apply in_or_app; auto | exact H].
    + left. pose proof (index_range _ _ _ Hc) as [R1 R2].
      apply Z.leb_le in R1. apply Z.ltb_lt in R2. rewrite R1, R2, Hc.
      apply in_or_app. right. simpl. auto.
    + right. eauto.
Qed.

Lemma defaultSelection_In (ms : multiSelect.t) (i : Z) (c : Choice) :
  In i (multiSelect.defaultChoices ms) ->
  index (multiSelect.choices ms) i = Some c ->
  In c (multiSelect.initialSelection ms).
Proof.
  intros Hi Hc. unfold multiSelect.initialSelection.
  assert (0 < len (multiSelect.defaultChoices ms)) as Hl
    by (apply nonempty_len; intros F; rewrite F in Hi; contradiction).
  destruct (Z.ltb_spec 0 (len (multiSelect.defaultChoices ms))); [|lia].
  apply defaults_In. right. eauto.
Qed.

(** C9: a default index that points at a disabled choice selects it. In the
    single-select prompt [Render] then starts with that choice selected, and
    Enter as the first key makes it return the choice, disabled as it is; in
    the multi-select prompt the choice is part of the first selection. Space,
    in both prompts, refuses a disabled choice under the cursor with a
    message, and leaves the selection as it is. *)
Theorem disabled_default_choice :
  (forall (ss : singleSelect.t) c,
     fst (makeSpace term (Int.add 9 (singleSelect.pageSizeOf ss))) = None ->
     index (singleSelect.choices ss) (singleSelect.defaultChoice ss) = Some c ->
     Disabled c = true ->
     (exists s, singleSelect.start term ss = inr s /\ selection s = c) /\
     fst (singleSelect.Render term ss [press keys.Enter]) = Returns c None) /\
  (forall (ms : multiSelect.t) i c,
     fst (makeSpace term (Int.add 9 (multiSelect.pageSizeOf ms))) = None ->
     multiSelect.minRequired ms <= multiSelect.maxAllowed ms ->
     In i (multiSelect.defaultChoices ms) ->
     index (multiSelect.choices ms) i = Some c ->
     Disabled c = true ->
     exists s, multiSelect.start term ms = inr s /\ In c (selection s)) /\
  (forall (ss : singleSelect.t) s c,
     index (filteredChoices (win s)) (cursorIdx (win s)) = Some c ->
     Disabled c = true ->
     singleSelect.switch ss s (keys.mkKey keys.Space []) =
     Some (set_valMessage "Cannot select a disabled choice" s, false)) /\
  (forall (ms : multiSelect.t) s c,
     index (filteredChoices (win s)) (cursorIdx (win s)) = Some c ->
     Disabled c = true ->
     multiSelect.switch ms s (keys.mkKey keys.Space []) =
     Some (set_valMessage "Cannot select a disabled choice" s, false)).
Proof.
  split; [|split; [|split]].
  - intros ss c M I D.
    assert (singleSelect.choices ss <> []) as Hne.
    { apply index_range in I. intros F. rewrite F in I. unfold len in I.
      simpl in I. lia. }
    destruct (single_start_some ss M Hne) as [s E].
    pose proof (single_start_inv ss term s E) as (_ & W & _ & _ & _ & _ & S).
    pose proof (index_range _ _ _ I) as [R1 R2].
    assert (selection s = c) as Sc.
    { rewrite S. apply Z.leb_le in R1. apply Z.ltb_lt in R2.
      rewrite R1, R2. simpl. unfold index in I.
      destruct (singleSelect.defaultChoice ss <? 0); [discriminate|].
      now apply nth_error_nth. }
    split; [eauto|].
    assert (singleSelect.listen term ss [] = inr (Listening s)) as L
      by (unfold singleSelect.listen; now rewrite E).
    rewrite <- Sc.
    apply (single_enter_accepted term ss [] s L). left.
    apply not_true_is_false. rewrite nothing_to_confirm, W, Sc. simpl.
    intros [F | F]; [contradiction|]. rewrite F in D. discriminate.
  - intros ms i c M B Hi I D.
    assert (multiSelect.choices ms <> []) as Hne.
    { apply index_range in I. intros F. rewrite F in I. unfold len in I.
      simpl in I. lia. }
    destruct (multi_start_some ms M Hne B) as [s E].
    exists s. split; [exact E|].
    apply multi_start_inv in E.
    destruct E as (_ & _ & _ & _ & _ & _ & _ & ->).
    now apply (defaultSelection_In ms i).
  - intros ss s c I D. unfold singleSelect.switch. simpl.
    assert ((len (filteredChoices (win s)) =? 0) = false) as E
      by (apply index_range in I; apply Z.eqb_neq; lia).
    now rewrite E, I, D.
  - intros ms s c I D. unfold multiSelect.switch. simpl.
    assert ((len (filteredChoices (win s)) =? 0) = false) as E
      by (apply index_range in I; apply Z.eqb_neq; lia).
    now rewrite E, I, D.
Qed.

End Claims.

(** ** The entry checks *)

Section Entry.
Context {U : UnicodeTables}.
Variable term : Terminal.
Variable ins : list input.

(** C6 (as amended): without choices [Render] fails before it hides the
    cursor or draws a frame, whatever the keys and the other fields: with
    [ErrTerminalTooSmall], and nothing written, when the terminal has fewer
    than 50 columns or fewer rows than 9 plus the page size (at most 0 here);
    with [ErrNoSelectionChoices] otherwise, after the line feeds and the
    cursor movement of [makeSpace]. *)
Theorem no_choices :
  (forall d o pageSize selected,
     let lines := Int.add 9 (Z.min pageSize 0) in
     singleSelect.Render term (singleSelect.mk [] d o pageSize selected) ins =
     if (termHeight term <? lines) || (termWidth term <? 50)
     then (Returns zeroChoice (Some ErrTerminalTooSmall), [])
     else (Returns zeroChoice (Some ErrNoSelectionChoices),
           repeat Newline (Z.to_nat lines) ++ ansiCursorUp lines)) /\
  (forall d o m n pageSize selected,
     let lines := Int.add 9 (Z.min pageSize 0) in
     multiSelect.Render term (multiSelect.mk [] d o m n pageSize selected) ins =
     if (termHeight term <? lines) || (termWidth term <? 50)
     then (Returns [] (Some ErrTerminalTooSmall), [])
     else (Returns [] (Some ErrNoSelectionChoices),
           repeat Newline (Z.to_nat lines) ++ ansiCursorUp lines)).
Proof.
  split; intros; subst lines.
  - unfold singleSelect.Render, singleSelect.listen, singleSelect.start,
      singleSelect.pageSizeOf, makeSpace, getTermDimensions.
    cbn [singleSelect.choices singleSelect.pageSize]. change (len []) with 0.
    now destruct ((termHeight term <? Int.add 9 (Z.min pageSize 0))
                  || (termWidth term <? 50)).
  - unfold multiSelect.Render, multiSelect.listen, multiSelect.start,
      multiSelect.pageSizeOf, makeSpace, getTermDimensions.
    cbn [multiSelect.choices multiSelect.pageSize]. change (len []) with 0.
    now destruct ((termHeight term <? Int.add 9 (Z.min pageSize 0))
                  || (termWidth term <? 50)).
Qed.

(** C7: when the terminal reports no positive width, as it does when the
    call fails, [makeSpace] takes the terminal for too small and both prompts
    return [ErrTerminalTooSmall] with nothing written; the banner and the
    progress bar work with 80 columns then. *)
Theorem no_width_no_prompt (ss : singleSelect.t) (ms : multiSelect.t) :
  termWidth term <= 0 ->
  singleSelect.Render term ss ins =
    (Returns zeroChoice (Some ErrTerminalTooSmall), []) /\
  multiSelect.Render term ms ins = (Returns [] (Some ErrTerminalTooSmall), []) /\
  padLineWidth term = 80 /\ progressWidth term = 80.
Proof.
  intros W.
  assert ((termWidth term <? 50) = true) as N by (apply Z.ltb_lt; lia).
  assert ((termWidth term <=? 0) = true) as P by (now apply Z.leb_le).
  repeat split.
  - unfold singleSelect.Render, singleSelect.listen, singleSelect.start,
      makeSpace, getTermDimensions. rewrite N, orb_true_r. reflexivity.
  - unfold multiSelect.Render, multiSelect.listen, multiSelect.start,
      makeSpace, getTermDimensions. rewrite N, orb_true_r. reflexivity.
  - unfold padLineWidth, getTermDimensions. now rewrite P, orb_true_r.
  - unfold progressWidth, getTermDimensions. now rewrite P.
Qed.

End Entry.

(** ** Backspace and the default choices *)

Section Search.
Context {U : UnicodeTables}.
Variable term : Terminal.

Lemma search_filtered {S : Type} (choices : list Choice) (p : Z)
    (query : string) (s : session S) :
  filteredChoices (win (search choices p query s)) = filterChoices choices query
  /\ searchQuery (search choices p query s) = query.
Proof.
  unfold search. cbv zeta. cbn [win set_win searchQuery set_searchQuery].
  now rewrite resetCursorAfterFilter_filtered.
Qed.

(** C8: Backspace in search mode, with the query the two bytes of U+00E9,
    leaves the first of the two bytes as the query, not the empty string, and
    filters the choices by that byte; the loop goes on. *)
Theorem backspace_removes_one_byte :
  (forall (ss : singleSelect.t) ins s,
     allocatable (singleSelect.choices ss) ->
     singleSelect.listen term ss ins = inr (Listening s) ->
     searchMode s = true -> searchQuery s = runeString 0xE9 ->
     exists s',
       singleSelect.listen term ss (ins ++ [press keys.Backspace])
       = inr (Listening s') /\
       searchQuery s' = bytes [0xC3] /\
       filteredChoices (win s') =
       filterChoices (singleSelect.choices ss) (bytes [0xC3])) /\
  (forall (ms : multiSelect.t) ins s,
     allocatable (multiSelect.choices ms) ->
     multiSelect.listen term ms ins = inr (Listening s) ->
     searchMode s = true -> searchQuery s = runeString 0xE9 ->
     exists s',
       multiSelect.listen term ms (ins ++ [press keys.Backspace])
       = inr (Listening s') /\
       searchQuery s' = bytes [0xC3] /\
       filteredChoices (win s') =
       filterChoices (multiSelect.choices ms) (bytes [0xC3])).
Proof.
  split.
  - intros ss ins s alloc L M Q.
    pose proof (single_listen_good ss alloc term ins _ L) as G. simpl in G.
    assert (singleSelect.switch ss s (keys.mkKey keys.Backspace []) =
            Some (search (singleSelect.choices ss) (singleSelect.pageSizeOf ss)
                         (bytes [0xC3]) s, false)) as W.
    { unfold singleSelect.switch. simpl. rewrite M, Q. reflexivity. }
    assert (good (singleSelect.choices ss) (win (search (singleSelect.choices ss)
              (singleSelect.pageSizeOf ss) (bytes [0xC3]) s))) as [G' _]
      by (eapply winStep_good; eauto using search_win).
    destruct (single_handler_some ss s _ _ _ G' W) as (s' & H & D).
    simpl in D. destruct D as [f ->].
    destruct (single_render_on term ss ins s _ _ L H) as [L' _].
    eexists. split; [exact L'|].
    cbn [win searchQuery write].
    destruct (search_filtered (singleSelect.choices ss)
                (singleSelect.pageSizeOf ss) (bytes [0xC3]) s); auto.
  - intros ms ins s alloc L M Q.
    pose proof (multi_listen_good ms alloc term ins _ L) as G. simpl in G.
    assert (multiSelect.switch ms s (keys.mkKey keys.Backspace []) =
            Some (search (multiSelect.choices ms) (multiSelect.pageSizeOf ms)
                         (bytes [0xC3]) s, false)) as W.
    { unfold multiSelect.switch. simpl. rewrite M, Q. reflexivity. }
    assert (good (multiSelect.choices ms) (win (search (multiSelect.choices ms)
              (multiSelect.pageSizeOf ms) (bytes [0xC3]) s))) as [G' _]
      by (eapply winStep_good; eauto using search_win).
    destruct (multi_handler_some ms s _ _ _ G' W) as (s' & H & D).
    simpl in D. destruct D as [f ->].
    destruct (multi_render_on term ms ins s _ _ L H) as [L' _].
    eexists. split; [exact L'|].
    cbn [win searchQuery write].
    destruct (search_filtered (multiSelect.choices ms)
                (multiSelect.pageSizeOf ms) (bytes [0xC3]) s); auto.
Qed.

End Search.

(** ** Further properties of the two loops *)

Section Further.
Context {U : UnicodeTables}.
Variable term : Terminal.

Lemma single_start_cases (ss : singleSelect.t) :
  (exists v e out, singleSelect.start term ss = inl (Returns v e, out)) \/
  (exists s, singleSelect.start term ss = inr s).
Proof.
  destruct (makeSpace term (Int.add 9 (singleSelect.pageSizeOf ss)))
    as [[e|] out] eqn:M.
  - left. unfold singleSelect.start. cbv zeta. rewrite M. eauto.
  - destruct (Z.eqb_spec (len (singleSelect.choices ss)) 0) as [E|E].
    + left. unfold singleSelect.start. cbv zeta. rewrite M.
      apply Z.eqb_eq in E. rewrite E. eauto.
    + right. apply single_start_some; [now rewrite M|].
      intros F. apply E. now rewrite F.
Qed.

Lemma multi_start_cases (ms : multiSelect.t) :
  (exists v e out, multiSelect.start term ms = inl (Returns v e, out)) \/
  (exists s, multiSelect.start term ms = inr s).
Proof.
  destruct (makeSpace term (Int.add 9 (multiSelect.pageSizeOf ms)))
    as [[e|] out] eqn:M.
  - left. unfold multiSelect.start. cbv zeta. rewrite M. eauto.
  - destruct (Z.eqb_spec (len (multiSelect.choices ms)) 0) as [E|E].
    + left. unfold multiSelect.start. cbv zeta. rewrite M.
      apply Z.eqb_eq in E. rewrite E. eauto.
    + destruct (Z.ltb_spec (multiSelect.maxAllowed ms)
                  (multiSelect.minRequired ms)) as [B|B].
      * left. unfold multiSelect.start. cbv zeta. rewrite M.
        apply Z.eqb_neq in E. rewrite E.
        apply Z.ltb_lt in B. rewrite B. eauto.
      * right. apply multi_start_some; [now rewrite M | | exact B].
        intros F. apply E. now rewrite F.
Qed.

(** X1: neither [Render] panics, whatever the terminal, the configuration
    and the keys: the cursor stays an index of the filtered choices when Space
    reads the choice under it, and the rows [redraw] reads are rows of the
    filtered choices. *)
Theorem render_never_panics (ins : list input) :
  (forall ss : singleSelect.t,
     allocatable (singleSelect.choices ss) ->
     fst (singleSelect.Render term ss ins) <> Panics) /\
  (forall ms : multiSelect.t,
     allocatable (multiSelect.choices ms) ->
     fst (multiSelect.Render term ms ins) <> Panics).
Proof.
  split.
  - intros ss alloc. unfold singleSelect.Render.
    destruct (singleSelect.listen term ss ins) as [failed|l] eqn:L.
    + unfold singleSelect.listen in L.
      destruct (single_start_cases ss) as [(v & e & out & E) | (s & E)];
        rewrite E in L; [|discriminate].
      injection L as <-. discriminate.
    + destruct l as [s|s|s|s]; try discriminate.
      * now destruct (interrupted s).
      * now apply single_listen_never_panics in L.
  - intros ms alloc. unfold multiSelect.Render.
    destruct (multiSelect.listen term ms ins) as [failed|l] eqn:L.
    + unfold multiSelect.listen in L.
      destruct (multi_start_cases ms) as [(v & e & out & E) | (s & E)];
        rewrite E in L; [|discriminate].
      injection L as <-. discriminate.
    + destruct l as [s|s|s|s]; try discriminate.
      * now destruct (interrupted s).
      * now apply multi_listen_never_panics in L.
Qed.

(** X2: when the first selection holds no more than [maxAllowed] choices, no
    sequence of keys selects more than [maxAllowed]. *)
Theorem selected_count_bounded (ms : multiSelect.t) (ins : list input)
    (l : loop (session (list Choice))) :
  len (multiSelect.initialSelection ms) <= multiSelect.maxAllowed ms ->
  multiSelect.listen term ms ins = inr l ->
  len (selection (loopState l)) <= multiSelect.maxAllowed ms.
Proof.
  intros B L. pose proof (multi_count_bounded term ms ins l L). lia.
Qed.

(** X3: Enter in the multi-select prompt is rejected, with the message that
    names [minRequired], while fewer than [minRequired] choices are selected;
    otherwise [Render] returns the selection, in the order the choices were
    selected. *)
Theorem multi_confirm (ms : multiSelect.t) (ins : list input)
    (s : session (list Choice)) :
  allocatable (multiSelect.choices ms) ->
  multiSelect.listen term ms ins = inr (Listening s) ->
  let confirmed := ins ++ [press keys.Enter] in
  (len (selection s) < multiSelect.minRequired ms ->
   fst (multiSelect.Render term ms confirmed) = Waiting /\
   exists s', multiSelect.listen term ms confirmed = inr (Listening s') /\
              valMessage s' = multiSelect.atLeastMessage ms /\
              selection s' = selection s) /\
  (multiSelect.minRequired ms <= len (selection s) ->
   fst (multiSelect.Render term ms confirmed) = Returns (selection s) None).
Proof.
  intros alloc L confirmed.
  pose proof (multi_listen_good ms alloc term ins _ L) as [G _]. simpl in G.
  split.
  - intros B. apply Z.ltb_lt in B.
    assert (multiSelect.switch ms s (keys.mkKey keys.Enter []) =
            Some (set_valMessage (multiSelect.atLeastMessage ms) s, false)) as E.
    { unfold multiSelect.switch. simpl. now rewrite B. }
    destruct (multi_handler_some ms s _ _ _
                (G : sound (win (set_valMessage _ s))) E) as (s' & H & D).
    simpl in D. destruct D as [f ->].
    destruct (multi_render_on term ms ins s _ _ L H) as [L' R].
    split; [exact R|]. eexists. split; [exact L'|]. split; reflexivity.
  - intros B. apply Z.ltb_ge in B.
    apply (multi_render_stop term ms ins s s _ L);
      [|exact (multi_listening_not_interrupted term ms ins s L)].
    unfold multiSelect.handler, multiSelect.switch. simpl. now rewrite B.
Qed.

Lemma single_switch_filtered (ss : singleSelect.t) (s s' : session Choice)
    (key : keys.Key) (stop : bool) :
  singleSelect.switch ss s key = Some (s', stop) ->
  filteredChoices (win s) =
    filterChoices (singleSelect.choices ss) (searchQuery s) ->
  filteredChoices (win s') =
    filterChoices (singleSelect.choices ss) (searchQuery s').
Proof.
  intros H I. destruct key as [code runes].
  unfold singleSelect.switch in H. cbv zeta in H.
  destruct code; cbn [keys.Code keys.Runes] in H; switch_cases H;
    cbn [win searchQuery set_win set_valMessage set_searchMode set_interrupted
         set_selection];
    rewrite ?navigateUp_filtered, ?navigateDown_filtered; try exact I;
    match goal with
    | |- context [search ?c ?p ?q ?s0] =>
        destruct (search_filtered c p q s0) as [-> ->]; reflexivity
    end.
Qed.

Lemma multi_switch_filtered (ms : multiSelect.t) (s s' : session (list Choice))
    (key : keys.Key) (stop : bool) :
  multiSelect.switch ms s key = Some (s', stop) ->
  filteredChoices (win s) =
    filterChoices (multiSelect.choices ms) (searchQuery s) ->
  filteredChoices (win s') =
    filterChoices (multiSelect.choices ms) (searchQuery s').
Proof.
  intros H I. destruct key as [code runes].
  unfold multiSelect.switch in H. cbv zeta in H.
  destruct code; cbn [keys.Code keys.Runes] in H; switch_cases H;
    cbn [win searchQuery set_win set_valMessage set_searchMode set_interrupted
         set_selection];
    rewrite ?navigateUp_filtered, ?navigateDown_filtered; try exact I;
    match goal with
    | |- context [search ?c ?p ?q ?s0] =>
        destruct (search_filtered c p q s0) as [-> ->]; reflexivity
    end.
Qed.


Lemma single_switch_written (ss : singleSelect.t) (s s' : session Choice)
    (key : keys.Key) (stop : bool) :
  singleSelect.switch ss s key = Some (s', stop) -> written s' = written s.
Proof.
  intros H. destruct key as [code runes].
  unfold singleSelect.switch in H. cbv zeta in H.
  destruct code; cbn [keys.Code keys.Runes] in H; switch_cases H; reflexivity.
Qed.

Lemma multi_switch_written (ms : multiSelect.t) (s s' : session (list Choice))
    (key : keys.Key) (stop : bool) :
  multiSelect.switch ms s key = Some (s', stop) -> written s' = written s.
Proof.
  intros H. destruct key as [code runes].
  unfold multiSelect.switch in H. cbv zeta in H.
  destruct code; cbn [keys.Code keys.Runes] in H; switch_cases H; reflexivity.
Qed.

Lemma makeSpace_no_reset (lines : Z) :
  ~ In ResetState (snd (makeSpace term lines)).
Proof.
  unfold makeSpace, getTermDimensions, ansiCursorUp.
  destruct (_ || _); simpl; [tauto|].
  intros H. apply in_app_or in H. destruct H as [H | H].
  - apply repeat_spec in H. discriminate.
  - destruct (0 <? lines); simpl in H; intuition discriminate.
Qed.

(** X5: Ctrl+C, whenever it comes, ends [Render] with [ErrInterrupted]; the
    deferred [resetState] is then the last thing written, and it was not
    written before. *)
Theorem interrupt_resets_once :
  (forall (ss : singleSelect.t) ins s,
     singleSelect.listen term ss ins = inr (Listening s) ->
     singleSelect.Render term ss (ins ++ [press keys.CtrlC]) =
       (Returns zeroChoice (Some ErrInterrupted), written s ++ [ResetState]) /\
     ~ In ResetState (written s)) /\
  (forall (ms : multiSelect.t) ins s,
     multiSelect.listen term ms ins = inr (Listening s) ->
     multiSelect.Render term ms (ins ++ [press keys.CtrlC]) =
       (Returns [] (Some ErrInterrupted), written s ++ [ResetState]) /\
     ~ In ResetState (written s)).
Proof.
  split.
  - intros ss ins s L. split.
    + unfold singleSelect.Render. rewrite (single_listen_app term ss _ _ _ L).
      reflexivity.
    + revert L. unfold singleSelect.listen.
      destruct (singleSelect.start term ss) as [failed|s0] eqn:E;
        [discriminate|].
      intros H. injection H as H. revert H.
      apply (Listen_listening _ (fun s => ~ In ResetState (written s))).
      * intros s1 key s' I H. apply single_handler_inv in H.
        destruct H as (x & H & D). simpl in D. destruct D as [f ->].
        apply single_switch_written in H. simpl. rewrite H.
        intros F. apply in_app_or in F. simpl in F. intuition discriminate.
      * unfold singleSelect.start in E. cbv zeta in E.
        pose proof (makeSpace_no_reset
                      (Int.add 9 (singleSelect.pageSizeOf ss))) as M.
        destruct (makeSpace term _) as [[e|] out]; [discriminate|].
        destruct (len _ =? 0); [discriminate|].
        destruct (if _ : bool then _ else _); [|discriminate].
        destruct (singleSelect.redraw ss _) as [drawn|] eqn:R; [|discriminate].
        injection E as <-. apply redraw_inv in R. destruct R as [f ->].
        simpl in *. intros F. apply in_app_or in F. destruct F as [F | F].
        -- apply in_app_or in F. simpl in F. intuition discriminate.
        -- simpl in F. intuition discriminate.
  - intros ms ins s L. split.
    + unfold multiSelect.Render. rewrite (multi_listen_app term ms _ _ _ L).
      reflexivity.
    + revert L. unfold multiSelect.listen.
      destruct (multiSelect.start term ms) as [failed|s0] eqn:E;
        [discriminate|].
      intros H. injection H as H. revert H.
      apply (Listen_listening _ (fun s => ~ In ResetState (written s))).
      * intros s1 key s' I H. apply multi_handler_inv in H.
        destruct H as (x & H & D). simpl in D. destruct D as [f ->].
        apply multi_switch_written in H. simpl. rewrite H.
        intros F. apply in_app_or in F. simpl in F. intuition discriminate.
      * unfold multiSelect.start in E. cbv zeta in E.
        pose proof (makeSpace_no_reset
                      (Int.add 9 (multiSelect.pageSizeOf ms))) as M.
        destruct (makeSpace term _) as [[e|] out]; [discriminate|].
        destruct (len _ =? 0); [discriminate|].
        destruct (_ <? _); [discriminate|].
        destruct (multiSelect.redraw ms _) as [drawn|] eqn:R; [|discriminate].
        injection E as <-. apply redraw_inv in R. destruct R as [f ->].
        simpl in *. intros F. apply in_app_or in F. destruct F as [F | F].
        -- apply in_app_or in F. simpl in F. intuition discriminate.
        -- simpl in F. intuition discriminate.
Qed.

End Further.

(** C1: with three default choices and [maxSelectedCount] 1, [maxAllowed] is
    1, [Render] starts with three choices selected, and Enter as the first
    key makes it return the three. *)
Theorem defaults_exceed_max {U : UnicodeTables} :
  multiSelect.maxAllowed threeDefaultsMaxOne = 1 /\
  (exists s, multiSelect.start tty threeDefaultsMaxOne = inr s /\
             selection s = [Apple; Banana; Cherry]) /\
  fst (multiSelect.Render tty threeDefaultsMaxOne [press keys.Enter]) =
  Returns [Apple; Banana; Cherry] None.
Proof.
  split; [reflexivity | split; [|reflexivity]].
  eexists. split; reflexivity.
Qed.

(** ** The progress counter and the spinner's frames *)

Lemma add_one (z : Z) : Int.minInt <= z < Int.maxInt -> Int.add z 1 = z + 1.
Proof.
  intros H. unfold Int.add. apply wrap_id. unfold Int.inRange. lia.
Qed.

Lemma sub_one (z : Z) : Int.minInt < z <= Int.maxInt -> Int.sub z 1 = z - 1.
Proof.
  intros H. unfold Int.sub. apply wrap_id. unfold Int.inRange. lia.
Qed.

Lemma Increment_counts (pr : Progress.t) :
  0 <= Progress.current pr <= Progress.steps pr ->
  Progress.steps pr < Int.maxInt ->
  Progress.steps (Progress.Increment pr) = Progress.steps pr /\
  Progress.current (Progress.Increment pr)
  = Z.min (Progress.current pr + 1) (Progress.steps pr).
Proof.
  intros Hc Hs. unfold Progress.Increment.
  destruct (Z.leb_spec (Progress.steps pr) 0); [split; [reflexivity | lia]|].
  cbn [Progress.steps Progress.current].
  rewrite add_one by (rewrite minInt_eq; lia).
  split; [reflexivity|].
  destruct (Z.ltb_spec (Progress.steps pr) (Progress.current pr + 1)); lia.
Qed.

(** X7: [Increment] counts the steps done and stops at [steps]: from a
    progress with [0 <= current <= steps] and [steps] below the largest
    [int], [k] calls leave [current = min(current + k, steps)] and [steps]
    as it was; with [steps] zero, as [NewProgress] leaves it, nothing
    changes. *)
Theorem increment_saturates (pr : Progress.t) (k : nat) :
  0 <= Progress.current pr <= Progress.steps pr ->
  Progress.steps pr < Int.maxInt ->
  Progress.steps (Nat.iter k Progress.Increment pr) = Progress.steps pr /\
  Progress.current (Nat.iter k Progress.Increment pr)
  = Z.min (Progress.current pr + Z.of_nat k) (Progress.steps pr).
Proof.
  intros Hc Hs. induction k as [|k [IHs IHc]].
  - simpl. split; [reflexivity | lia].
  - rewrite !Nat.iter_succ.
    destruct (Increment_counts (Nat.iter k Progress.Increment pr))
      as [Es Ec]; [lia | lia |].
    rewrite Es, Ec, IHs, IHc. split; [reflexivity | lia].
Qed.

Lemma index_nonneg {A : Type} (l : list A) (i : Z) :
  0 <= i -> index l i = nth_error l (Z.to_nat i).
Proof. intros H. unfold index. destruct (Z.ltb_spec i 0); [lia | reflexivity]. Qed.

Lemma renderLoop_frames (sp : Spinner.t) (passes : nat) :
  Spinner.frames sp <> [] ->
  forall i, 0 <= i -> i + Z.of_nat passes <= Int.maxInt ->
  exists drawn,
    Spinner.renderLoop sp i passes = Some drawn /\
    List.length drawn = passes /\
    forall k, (k < passes)%nat ->
      nth_error drawn k
      = index (Spinner.frames sp)
              ((i + Z.of_nat k) mod len (Spinner.frames sp)).
Proof.
  intros Hf. assert (0 < len (Spinner.frames sp)) as Hl.
  { pose proof (len_nonneg (Spinner.frames sp)) as Hn.
    destruct (Z.eq_dec (len (Spinner.frames sp)) 0) as [E|E]; [|lia].
    apply len_nil_iff in E. contradiction. }
  induction passes as [|passes IH]; intros i Hi Hb.
  - exists []. repeat split. intros k Hk. lia.
  - cbn [Spinner.renderLoop]. unfold Spinner.currFrame.
    destruct (Z.eqb_spec (len (Spinner.frames sp)) 0); [lia|].
    rewrite Z.rem_mod_nonneg by lia.
    pose proof (Z.mod_pos_bound i (len (Spinner.frames sp)) Hl) as Hm.
    destruct (index_some (Spinner.frames sp) _ Hm) as [frame E]. rewrite E.
    rewrite add_one by (rewrite minInt_eq; lia).
    destruct (IH (i + 1)) as (drawn & -> & Hn & Hk); [lia | lia |].
    exists (frame :: drawn). cbn [option_map List.length].
    split; [reflexivity | split; [now rewrite Hn|]].
    intros [|k] Hlt; cbn [nth_error].
    + now rewrite Z.add_0_r, E.
    + rewrite Hk by lia. do 2 f_equal. lia.
Qed.

(** X8: with a frame at least, the spinner's loop draws the frames in turn
    and starts over after the last one, without a panic, for as many passes
    as an [int] counts; with no frame and a label, [Start] does not return
    early (it does so only when the label is empty as well), and the first
    pass of the loop panics on the division by [len(sp.frames)]. *)
Theorem spinner_frames (sp : Spinner.t) (passes : nat) :
  Z.of_nat passes <= Int.maxInt ->
  (Spinner.frames sp <> [] ->
   exists drawn,
     Spinner.Start sp passes = Some drawn /\
     List.length drawn = passes /\
     forall k, (k < passes)%nat ->
       nth_error drawn k
       = index (Spinner.frames sp)
               (Z.of_nat k mod len (Spinner.frames sp))) /\
  (Spinner.frames sp = [] ->
   Spinner.Start sp passes
   = if isEmpty (Spinner.label sp) then Some []
     else match passes with O => Some [] | S _ => None end).
Proof.
  intros Hp. split.
  - intros Hf. unfold Spinner.Start.
    destruct (Z.eqb_spec (len (Spinner.frames sp)) 0) as [E|_];
      [apply len_nil_iff in E; contradiction|].
    rewrite andb_false_r.
    destruct (renderLoop_frames sp passes Hf 0) as (drawn & E & Hn & Hk);
      [lia | lia |].
    exists drawn. repeat split; assumption.
  - intros Hf. unfold Spinner.Start. rewrite Hf. cbn [len List.length Z.of_nat].
    cbn [Z.eqb]. rewrite andb_true_r.
    destruct (isEmpty (Spinner.label sp)); [reflexivity|].
    destruct passes; [reflexivity|].
    cbn [Spinner.renderLoop]. unfold Spinner.currFrame. rewrite Hf.
    reflexivity.
Qed.

(** ** The text prompts *)

Lemma prefixTo_some {A : Type} (l : list A) (i : Z) :
  0 <= i <= len l -> prefixTo l i = Some (firstn (Z.to_nat i) l).
Proof.
  intros H. unfold prefixTo.
  destruct (Z.ltb_spec i 0); [lia|]. destruct (Z.ltb_spec (len l) i); [lia|].
  reflexivity.
Qed.

Lemma suffixFrom_some {A : Type} (l : list A) (i : Z) :
  0 <= i <= len l -> suffixFrom l i = Some (skipn (Z.to_nat i) l).
Proof.
  intros H. unfold suffixFrom.
  destruct (Z.ltb_spec i 0); [lia|]. destruct (Z.ltb_spec (len l) i); [lia|].
  reflexivity.
Qed.

Lemma len_firstn {A : Type} (l : list A) (i : Z) :
  0 <= i <= len l -> len (firstn (Z.to_nat i) l) = i.
Proof. unfold len. intros H. rewrite length_firstn. lia. Qed.

Lemma len_skipn {A : Type} (l : list A) (i : Z) :
  0 <= i <= len l -> len (skipn (Z.to_nat i) l) = len l - i.
Proof. unfold len. intros H. rewrite length_skipn. lia. Qed.

Lemma makeSpace_roomy (term : Terminal) (lines : Z) :
  roomy term lines ->
  makeSpace term lines
  = (None, repeat Newline (Z.to_nat lines) ++ ansiCursorUp lines).
Proof.
  intros [Hh Hw]. unfold makeSpace, getTermDimensions.
  destruct (Z.ltb_spec (termHeight term) lines); [lia|].
  destruct (Z.ltb_spec (termWidth term) 50); [lia | reflexivity].
Qed.

Section Edit.
Variable validator : option (string -> string * bool).
Variable redraw :
  list Z -> Z -> string -> option bool -> edit.state -> edit.state.
Hypothesis redraw_draws : draws redraw.

Lemma live_draws (s : edit.state) :
  exists f, edit.live validator redraw s = Some (edit.draw f s, false).
Proof.
  unfold edit.live. destruct validator as [validate|].
  - destruct (validate _) as [msg ok].
    destruct (redraw_draws (edit.inBuf s) (edit.cursorPos s) msg (Some ok) s)
      as [f ->]. eauto.
  - destruct (redraw_draws (edit.inBuf s) (edit.cursorPos s) EmptyString None s)
      as [f ->]. eauto.
Qed.

Lemma insert_some (r : Z) (s : edit.state) :
  inside s -> len (edit.inBuf s) < Int.maxInt ->
  edit.insert r s
  = Some (edit.set_cursorPos (edit.cursorPos s + 1)
            (edit.set_inBuf
               (firstn (Z.to_nat (edit.cursorPos s)) (edit.inBuf s)
                ++ r :: skipn (Z.to_nat (edit.cursorPos s)) (edit.inBuf s))
               s)).
Proof.
  intros Hi Hl. unfold edit.insert.
  rewrite prefixTo_some, suffixFrom_some by exact Hi.
  rewrite add_one by (rewrite minInt_eq; unfold inside in Hi; lia).
  reflexivity.
Qed.

Lemma len_inserted {A : Type} (l : list A) (i : Z) (x : A) :
  0 <= i <= len l ->
  len (firstn (Z.to_nat i) l ++ x :: skipn (Z.to_nat i) l) = len l + 1.
Proof.
  intros H. rewrite len_app, len_cons, len_firstn, len_skipn by exact H. lia.
Qed.

Lemma len_removed {A : Type} (l : list A) (i : Z) :
  0 < i <= len l ->
  len (firstn (Z.to_nat (i - 1)) l ++ skipn (Z.to_nat i) l) = len l - 1.
Proof.
  intros H. rewrite len_app, len_firstn, len_skipn by lia. lia.
Qed.

(** What a key does to the buffer and the cursor of a text prompt. *)
Lemma edit_handler_step (s : edit.state) (key : keys.Key) :
  inside s -> len (edit.inBuf s) < Int.maxInt ->
  exists s' stop,
    edit.handler validator redraw s key = Some (s', stop) /\ inside s' /\
    len (edit.inBuf s') <= len (edit.inBuf s) + 1.
Proof.
  intros Hi Hl. unfold inside in Hi. unfold edit.handler. cbv zeta.
  set (s0 := edit.set_receivedInput true s).
  assert (inside s0) as H0 by exact Hi.
  assert (len (edit.inBuf s0) < Int.maxInt) as L0 by exact Hl.
  change (edit.inBuf s) with (edit.inBuf s0).
  assert (forall x, inside x -> len (edit.inBuf x) <= len (edit.inBuf s0) + 1 ->
          exists s' stop, edit.live validator redraw x = Some (s', stop) /\ inside s' /\
                          len (edit.inBuf s') <= len (edit.inBuf s0) + 1) as Live.
  { intros x Hx Lx. destruct (live_draws x) as [f ->].
    exists (edit.draw f x), false. auto. }
  unfold inside in H0. clearbody s0.
  destruct (keys.Code key).
  - (* CtrlC *)
    exists (edit.set_interrupted true s0), true. repeat split; cbn; try lia;
      apply H0.
  - apply Live; [exact H0 | lia].
  - (* Left *)
    destruct (Z.ltb_spec 0 (edit.cursorPos s0)).
    + apply Live; [|cbn; lia]. unfold inside. cbn.
      rewrite sub_one by (rewrite minInt_eq; lia). lia.
    + apply Live; [exact H0 | lia].
  - apply Live; [exact H0 | lia].
  - (* Right *)
    destruct (Z.ltb_spec (edit.cursorPos s0) (len (edit.inBuf s0))).
    + apply Live; [|cbn; lia]. unfold inside. cbn.
      rewrite add_one by (rewrite minInt_eq; lia). lia.
    + apply Live; [exact H0 | lia].
  - apply Live; [exact H0 | lia].
  - apply Live; [exact H0 | lia].
  - (* Enter *)
    destruct validator as [validate|].
    + destruct (validate _) as [msg [|]]; cbn [negb].
      * exists s0, true. repeat split; try apply H0; lia.
      * destruct (redraw_draws (edit.inBuf s0) (edit.cursorPos s0) msg
                    (Some false) s0) as [f ->].
        exists (edit.draw f s0), false. repeat split; try apply H0. cbn. lia.
    + exists s0, true. repeat split; try apply H0; lia.
  - (* Space *)
    rewrite insert_some by assumption.
    apply Live; unfold inside; cbn; rewrite len_inserted by exact H0; lia.
  - (* Backspace *)
    destruct (Z.ltb_spec 0 (edit.cursorPos s0)).
    + rewrite sub_one by (rewrite minInt_eq; lia).
      rewrite prefixTo_some, suffixFrom_some by lia.
      apply Live; unfold inside; cbn; rewrite len_removed by lia; lia.
    + apply Live; [exact H0 | lia].
  - (* a rune *)
    destruct (keys.Runes key) as [|r rs].
    + apply Live; [exact H0 | lia].
    + rewrite insert_some by assumption.
      apply Live; unfold inside; cbn; rewrite len_inserted by exact H0; lia.
  - apply Live; [exact H0 | lia].
Qed.

(** The loop of a text prompt never panics, and leaves the cursor inside the
    buffer. *)
Lemma edit_listen_inside (ins : list input) :
  forall s,
    inside s -> len (edit.inBuf s) + len ins < Int.maxInt ->
    (forall s', Listen (edit.handler validator redraw) s ins <> Panicked s') /\
    inside (loopState (Listen (edit.handler validator redraw) s ins)).
Proof.
  induction ins as [|[key|] ins IH]; intros s Hi Hl; cbn [Listen].
  - split; [discriminate | exact Hi].
  - rewrite len_cons in Hl. pose proof (len_nonneg ins).
    destruct (edit_handler_step s key Hi) as (s' & stop & -> & Hi' & Hl');
      [lia|].
    destruct stop; [split; [discriminate | exact Hi']|].
    apply IH; [exact Hi' | lia].
  - split; [discriminate | exact Hi].
Qed.

Lemma edit_start_cases (term : Terminal) :
  (exists out,
     edit.start redraw term
     = inl (Returns EmptyString (Some ErrTerminalTooSmall), out)) \/
  (exists s,
     edit.start redraw term = inr s /\ edit.inBuf s = [] /\
     edit.cursorPos s = 0 /\ edit.interrupted s = false).
Proof.
  unfold edit.start. destruct (makeSpace term 8) as [[e|] out]; [eauto|].
  right.
  destruct (redraw_draws [] 0 EmptyString None
              (edit.mkState [] 0 false false
                 (map inl out ++ [inl HideAndSaveCursor]))) as [f ->].
  eexists. repeat split.
Qed.

Lemma edit_render_never_panics (term : Terminal) (ins : list input) :
  len ins < Int.maxInt ->
  fst (edit.Render validator redraw term ins) <> Panics /\
  forall l, edit.listen validator redraw term ins = inr l ->
            inside (loopState l).
Proof.
  intros Hl. unfold edit.Render, edit.listen.
  destruct (edit_start_cases term) as [[out ->] | (s & -> & Eb & Ec & _)].
  - split; [discriminate | discriminate].
  - assert (inside s) as Hi by (unfold inside; rewrite Eb, Ec; cbn; lia).
    destruct (edit_listen_inside ins s Hi) as [Hp Hin].
    { rewrite Eb. cbn. exact Hl. }
    split.
    + destruct (Listen (edit.handler validator redraw) s ins) as [x|x|x|x] eqn:E; cbn;
        try discriminate.
      * destruct (edit.interrupted x); discriminate.
      * exfalso. exact (Hp x eq_refl).
    + intros l E. injection E as <-. exact Hin.
Qed.

(** What the key of a rune and the Backspace key do. *)
Lemma handler_rune (s : edit.state) (r : Z) :
  inside s -> len (edit.inBuf s) < Int.maxInt ->
  exists f,
    edit.handler validator redraw s (runeKey r)
    = Some (edit.draw f
              (edit.mkState
                 (firstn (Z.to_nat (edit.cursorPos s)) (edit.inBuf s)
                  ++ r :: skipn (Z.to_nat (edit.cursorPos s)) (edit.inBuf s))
                 (edit.cursorPos s + 1) true (edit.interrupted s)
                 (edit.written s)),
            false).
Proof.
  intros Hi Hl. unfold edit.handler. cbv zeta. cbn [keys.Code keys.Runes runeKey].
  rewrite insert_some by assumption.
  match goal with
  | |- context [edit.live validator redraw ?x] =>
      destruct (live_draws x) as [f ->]
  end.
  exists f. reflexivity.
Qed.

Lemma handler_backspace (s : edit.state) :
  0 < edit.cursorPos s <= len (edit.inBuf s) ->
  len (edit.inBuf s) <= Int.maxInt ->
  exists f,
    edit.handler validator redraw s backspaceKey
    = Some (edit.draw f
              (edit.mkState
                 (firstn (Z.to_nat (edit.cursorPos s - 1)) (edit.inBuf s)
                  ++ skipn (Z.to_nat (edit.cursorPos s)) (edit.inBuf s))
                 (edit.cursorPos s - 1) true (edit.interrupted s)
                 (edit.written s)),
            false).
Proof.
  intros Hi Hl.
  unfold edit.handler. cbv zeta. cbn [keys.Code backspaceKey].
  cbn [edit.cursorPos edit.inBuf edit.set_receivedInput].
  destruct (Z.ltb_spec 0 (edit.cursorPos s)); [|lia].
  rewrite sub_one by (rewrite minInt_eq; lia).
  rewrite prefixTo_some, suffixFrom_some by lia.
  match goal with
  | |- context [edit.live validator redraw ?x] =>
      destruct (live_draws x) as [f ->]
  end.
  exists f. reflexivity.
Qed.

(** Runes typed at the end of the buffer are appended to it. *)
Lemma edit_typed (rs : list Z) :
  forall s,
    edit.cursorPos s = len (edit.inBuf s) ->
    len (edit.inBuf s) + len rs < Int.maxInt ->
    exists s',
      Listen (edit.handler validator redraw) s (map typed rs) = Listening s' /\
      edit.inBuf s' = edit.inBuf s ++ rs /\
      edit.cursorPos s' = len (edit.inBuf s') /\
      edit.interrupted s' = edit.interrupted s.
Proof.
  induction rs as [|r rs IH]; intros s Hc Hl; cbn [map Listen].
  - exists s. rewrite app_nil_r. auto.
  - rewrite len_cons in Hl. pose proof (len_nonneg rs).
    pose proof (len_nonneg (edit.inBuf s)).
    change (typed r) with (Pressed (runeKey r)). cbn iota.
    destruct (handler_rune s r) as [f ->];
      [unfold inside; lia | lia |].
    rewrite Hc. unfold len at 1 2. rewrite Nat2Z.id, firstn_all, skipn_all.
    match goal with
    | |- context [Listen _ ?x _] =>
        destruct (IH x) as (s' & E & Eb & Ec & Ei)
    end.
    + cbn [edit.inBuf edit.cursorPos edit.draw]. rewrite len_app.
      change (len [r]) with 1. lia.
    + cbn [edit.inBuf edit.cursorPos edit.draw]. rewrite len_app.
      change (len [r]) with 1. lia.
    + exists s'. split; [exact E|]. cbn in Eb, Ei.
      rewrite <- app_assoc in Eb. cbn [app] in Eb. auto.
Qed.

Lemma live_inv (x y : edit.state) (b : bool) :
  edit.live validator redraw x = Some (y, b) ->
  b = false /\ edit.interrupted y = edit.interrupted x /\
  edit.inBuf y = edit.inBuf x /\ edit.cursorPos y = edit.cursorPos x.
Proof.
  destruct (live_draws x) as [f ->]. intros E. injection E as <- <-. auto.
Qed.

Lemma insert_interrupted (r : Z) (x y : edit.state) :
  edit.insert r x = Some y -> edit.interrupted y = edit.interrupted x.
Proof.
  unfold edit.insert.
  destruct (prefixTo (edit.inBuf x) (edit.cursorPos x)); [|discriminate].
  destruct (suffixFrom (edit.inBuf x) (edit.cursorPos x)); [|discriminate].
  intros E. injection E as <-. reflexivity.
Qed.

(** A key stops the loop as an interrupt, or as Enter on a text the
    validator accepts; no other key sets [interrupted]. *)
Lemma edit_handler_stop (s s' : edit.state) (key : keys.Key) (stop : bool) :
  edit.interrupted s = false ->
  edit.handler validator redraw s key = Some (s', stop) ->
  if stop
  then edit.interrupted s' = true \/
       accepts validator (runesString (edit.inBuf s'))
  else edit.interrupted s' = false.
Proof.
  intros Hi. unfold edit.handler. cbv zeta.
  set (s0 := edit.set_receivedInput true s).
  assert (edit.interrupted s0 = false) as H0 by exact Hi.
  change (edit.inBuf s) with (edit.inBuf s0).
  change (edit.cursorPos s) with (edit.cursorPos s0).
  clearbody s0.
  assert (forall x, edit.interrupted x = false ->
          edit.live validator redraw x = Some (s', stop) ->
          if stop
          then edit.interrupted s' = true \/
               accepts validator (runesString (edit.inBuf s'))
          else edit.interrupted s' = false) as Live.
  { intros x Hx E. destruct (live_inv x s' stop E) as (-> & -> & _). exact Hx. }
  destruct (keys.Code key); try (now apply Live).
  - (* CtrlC *)
    intros E. injection E as <- <-. now left.
  - (* Left *)
    apply Live. now destruct (0 <? edit.cursorPos s0).
  - (* Right *)
    apply Live. now destruct (edit.cursorPos s0 <? len (edit.inBuf s0)).
  - (* Enter *)
    destruct validator as [validate|] eqn:V.
    + destruct (validate _) as [msg ok] eqn:Ev. destruct ok; cbn [negb].
      * intros E. injection E as <- <-. right.
        intros v' Ev'. injection Ev' as <-. now rewrite Ev.
      * destruct (redraw_draws (edit.inBuf s0) (edit.cursorPos s0) msg
                    (Some false) s0) as [f ->].
        intros E. injection E as <- <-. exact H0.
    + intros E. injection E as <- <-. right. intros v' Ev'. discriminate.
  - (* Space *)
    destruct (edit.insert 32 s0) as [x|] eqn:Ex; [|discriminate].
    apply Live. now rewrite (insert_interrupted _ _ _ Ex).
  - (* Backspace *)
    destruct (0 <? edit.cursorPos s0); [|now apply Live].
    destruct (prefixTo (edit.inBuf s0) _); [|discriminate].
    destruct (suffixFrom (edit.inBuf s0) _); [|discriminate].
    now apply Live.
  - (* a rune *)
    destruct (keys.Runes key) as [|r rs]; [now apply Live|].
    destruct (edit.insert r s0) as [x|] eqn:Ex; [|discriminate].
    apply Live. now rewrite (insert_interrupted _ _ _ Ex).
Qed.

(** When [Listen] stops without an interrupt, the validator has accepted
    the text of the buffer. *)
Lemma edit_stopped (ins : list input) :
  forall s s',
    edit.interrupted s = false ->
    Listen (edit.handler validator redraw) s ins = Stopped s' ->
    edit.interrupted s' = true \/
    accepts validator (runesString (edit.inBuf s')).
Proof.
  induction ins as [|[key|] ins IH]; intros s s' Hi; cbn [Listen];
    try discriminate.
  destruct (edit.handler validator redraw s key) as [[s1 stop]|] eqn:E;
    [|discriminate].
  pose proof (edit_handler_stop s s1 key stop Hi E) as H.
  destruct stop.
  - intros S. injection S as <-. exact H.
  - now apply IH.
Qed.

(** A rune typed and erased again leaves the buffer and the cursor as they
    were. *)
Lemma edit_type_erase (s : edit.state) (r : Z) :
  inside s -> len (edit.inBuf s) < Int.maxInt ->
  exists s1 s2,
    edit.handler validator redraw s (runeKey r) = Some (s1, false) /\
    edit.handler validator redraw s1 backspaceKey = Some (s2, false) /\
    edit.inBuf s1
    = firstn (Z.to_nat (edit.cursorPos s)) (edit.inBuf s)
      ++ r :: skipn (Z.to_nat (edit.cursorPos s)) (edit.inBuf s) /\
    edit.cursorPos s1 = edit.cursorPos s + 1 /\
    edit.inBuf s2 = edit.inBuf s /\ edit.cursorPos s2 = edit.cursorPos s.
Proof.
  intros Hi Hl. pose proof Hi as Hi'. unfold inside in Hi'.
  destruct (handler_rune s r Hi Hl) as [f E1].
  match type of E1 with _ = Some (?x, _) => set (s1 := x) in * end.
  destruct (handler_backspace s1) as [g E2].
  { cbn [s1 edit.inBuf edit.cursorPos edit.draw].
    rewrite len_inserted by exact Hi'. lia. }
  { cbn [s1 edit.inBuf edit.cursorPos edit.draw].
    rewrite len_inserted by exact Hi'. lia. }
  exists s1. eexists. split; [exact E1|]. split; [exact E2|].
  cbn [s1 edit.inBuf edit.cursorPos edit.draw].
  split; [reflexivity|]. split; [reflexivity|]. split; [|lia].
  replace (edit.cursorPos s + 1 - 1) with (edit.cursorPos s) by lia.
  assert (List.length (firstn (Z.to_nat (edit.cursorPos s)) (edit.inBuf s))
          = Z.to_nat (edit.cursorPos s)) as Ef.
  { rewrite length_firstn. unfold len in Hi'. lia. }
  rewrite firstn_app, Ef, Nat.sub_diag, firstn_O, app_nil_r.
  rewrite firstn_firstn, Nat.min_id.
  replace (Z.to_nat (edit.cursorPos s + 1))
    with (List.length (firstn (Z.to_nat (edit.cursorPos s)) (edit.inBuf s))
          + 1)%nat
    by (rewrite Ef; lia).
  rewrite skipn_app.
  rewrite skipn_all2 by lia.
  replace (_ + 1 - _)%nat with 1%nat by lia.
  cbn [skipn app]. apply firstn_skipn.
Qed.

(** The runes typed, then Enter: [Render] returns their text, trimmed. *)
Lemma edit_render_typed (term : Terminal) (rs : list Z) :
  roomy term 8 -> len rs < Int.maxInt ->
  accepts validator (runesString rs) ->
  fst (edit.Render validator redraw term (map typed rs ++ [press keys.Enter]))
  = Returns (TrimRight (runesString rs) CRLF) None.
Proof.
  intros Hr Hl Ha. unfold edit.Render, edit.listen.
  destruct (edit_start_cases term) as [[out E] | (s & E & Eb & Ec & Ei)].
  - exfalso. revert E. unfold edit.start. rewrite makeSpace_roomy by exact Hr.
    discriminate.
  - rewrite E, Listen_app.
    destruct (edit_typed rs s) as (s' & -> & Eb' & Ec' & Ei').
    { rewrite Eb, Ec. reflexivity. }
    { rewrite Eb. cbn. exact Hl. }
    rewrite Eb in Eb'. cbn [app] in Eb'.
    cbn [Listen press]. unfold edit.handler. cbv zeta. cbn [keys.Code].
    cbn [edit.inBuf edit.set_receivedInput]. rewrite Eb'.
    destruct validator as [validate|] eqn:V.
    + specialize (Ha validate eq_refl).
      destruct (validate (runesString rs)) as [msg ok]. cbn in Ha. subst ok.
      cbn. rewrite Ei', Ei, Eb'. reflexivity.
    + cbn. rewrite Ei', Ei, Eb'. reflexivity.
Qed.

(** When [Render] returns a text, it is the text of a buffer the validator
    accepted, trimmed. *)
Lemma edit_render_returns (term : Terminal) (ins : list input) (v : string) :
  fst (edit.Render validator redraw term ins) = Returns v None ->
  exists rs,
    accepts validator (runesString rs) /\ v = TrimRight (runesString rs) CRLF.
Proof.
  unfold edit.Render, edit.listen.
  destruct (edit_start_cases term) as [[out ->] | (s & -> & Eb & Ec & Ei)];
    [discriminate|].
  destruct (Listen (edit.handler validator redraw) s ins) as [x|x|x|x] eqn:E;
    cbn; try discriminate.
  destruct (edit_stopped ins s x Ei E) as [Hx|Hx].
  - rewrite Hx. discriminate.
  - destruct (edit.interrupted x); [discriminate|]. cbn.
    intros R. injection R as <-. eauto.
Qed.

End Edit.

Section Frames.
Variable validator : option (string -> string * bool).
Variable redraw :
  list Z -> Z -> string -> option bool -> edit.state -> edit.state.
Variable shows : inputFrame -> Prop.
Hypothesis redraw_shows :
  forall input cursor msg ok s,
    exists f, redraw input cursor msg ok s = edit.draw f s /\ shows f.

Lemma shows_draws : draws redraw.
Proof.
  intros input cursor msg ok s.
  destruct (redraw_shows input cursor msg ok s) as (f & E & _). eauto.
Qed.

Lemma shown_draw (f : inputFrame) (s : edit.state) :
  shown shows s -> shows f -> shown shows (edit.draw f s).
Proof.
  intros Hs Hf g. cbn. rewrite in_app_iff. intros [H|[H|[]]].
  - now apply Hs.
  - injection H as <-. exact Hf.
Qed.

Lemma live_shown (x y : edit.state) (b : bool) :
  shown shows x -> edit.live validator redraw x = Some (y, b) -> shown shows y.
Proof.
  intros Hx. unfold edit.live. destruct validator as [validate|].
  - destruct (validate _) as [msg ok].
    destruct (redraw_shows (edit.inBuf x) (edit.cursorPos x) msg (Some ok) x)
      as (f & -> & Hf).
    intros E. injection E as <- <-. now apply shown_draw.
  - destruct (redraw_shows (edit.inBuf x) (edit.cursorPos x) EmptyString None x)
      as (f & -> & Hf).
    intros E. injection E as <- <-. now apply shown_draw.
Qed.

Lemma insert_written (r : Z) (x y : edit.state) :
  edit.insert r x = Some y -> edit.written y = edit.written x.
Proof.
  unfold edit.insert.
  destruct (prefixTo (edit.inBuf x) (edit.cursorPos x)); [|discriminate].
  destruct (suffixFrom (edit.inBuf x) (edit.cursorPos x)); [|discriminate].
  intros E. injection E as <-. reflexivity.
Qed.

Lemma edit_handler_shown (s s' : edit.state) (key : keys.Key) (stop : bool) :
  shown shows s -> edit.handler validator redraw s key = Some (s', stop) ->
  shown shows s'.
Proof.
  intros Hs. unfold edit.handler. cbv zeta.
  set (s0 := edit.set_receivedInput true s).
  assert (shown shows s0) as H0 by exact Hs.
  change (edit.inBuf s) with (edit.inBuf s0).
  change (edit.cursorPos s) with (edit.cursorPos s0).
  clearbody s0.
  assert (forall x, edit.written x = edit.written s0 -> shown shows x) as Same.
  { intros x E f. rewrite E. apply H0. }
  destruct (keys.Code key); try (now apply live_shown).
  - intros E. injection E as <- <-. now apply Same.
  - apply live_shown. now destruct (0 <? edit.cursorPos s0); apply Same.
  - apply live_shown.
    now destruct (edit.cursorPos s0 <? len (edit.inBuf s0)); apply Same.
  - destruct validator as [validate|].
    + destruct (validate _) as [msg ok]. destruct ok; cbn [negb].
      * intros E. injection E as <- <-. exact H0.
      * destruct (redraw_shows (edit.inBuf s0) (edit.cursorPos s0) msg
                    (Some false) s0) as (f & -> & Hf).
        intros E. injection E as <- <-. now apply shown_draw.
    + intros E. injection E as <- <-. exact H0.
  - destruct (edit.insert 32 s0) as [x|] eqn:Ex; [|discriminate].
    apply live_shown. apply Same. exact (insert_written _ _ _ Ex).
  - destruct (0 <? edit.cursorPos s0); [|now apply live_shown].
    destruct (prefixTo (edit.inBuf s0) _); [|discriminate].
    destruct (suffixFrom (edit.inBuf s0) _); [|discriminate].
    apply live_shown. now apply Same.
  - destruct (keys.Runes key) as [|r rs]; [now apply live_shown|].
    destruct (edit.insert r s0) as [x|] eqn:Ex; [|discriminate].
    apply live_shown. apply Same. exact (insert_written _ _ _ Ex).
Qed.

(** Every frame [Render] writes is as [shows] says. *)
Lemma edit_render_shown (term : Terminal) (ins : list input) (f : inputFrame) :
  In (inr f) (snd (edit.Render validator redraw term ins)) -> shows f.
Proof.
  unfold edit.Render, edit.listen.
  destruct (edit.start redraw term) as [[r out]|s] eqn:E.
  - revert E. unfold edit.start.
    destruct (makeSpace term 8) as [[e|] out']; [|discriminate].
    intros E. injection E as <- <-. cbn. rewrite in_map_iff.
    intros (x & Hx & _). discriminate.
  - assert (shown shows s) as Hs.
    { revert E. unfold edit.start.
      destruct (makeSpace term 8) as [[e|] out']; [discriminate|].
      match goal with
      | |- context [redraw ?a ?b ?c ?d ?x] =>
          destruct (redraw_shows a b c d x) as (g & -> & Hg)
      end.
      intros E. injection E as <-. apply shown_draw; [|exact Hg].
      intros h. cbn. rewrite in_app_iff, in_map_iff.
      intros [(x & Hx & _)|[Hx|[]]]; discriminate. }
    pose proof (Listen_invariant (edit.handler validator redraw) (shown shows)) as Inv.
    specialize (Inv (fun a key b stop Ha Hk =>
                       edit_handler_shown a b key stop Ha Hk) ins s Hs).
    destruct (Listen (edit.handler validator redraw) s ins) as [x|x|x|x];
      cbn in Inv |- *;
      try destruct (edit.interrupted x); cbn;
      try rewrite in_app_iff; intros H;
      repeat match goal with
             | H : _ \/ _ |- _ => destruct H as [H|H]
             | H : In _ [_] |- _ => destruct H as [H|[]]; discriminate
             end;
      now apply Inv.
Qed.

End Frames.

Lemma text_redraw_draws (ti : textInput.t) : draws (textInput.redraw ti).
Proof. intros input cursor msg ok s. eexists. reflexivity. Qed.

Lemma secure_redraw_draws (si : SecureInput.t) : draws (SecureInput.redraw si).
Proof. intros input cursor msg ok s. eexists. reflexivity. Qed.

(** [TrimRight] removes bytes of the cutset from the end, and leaves none
    there. *)
Lemma TrimRight_tail (s cutset : string) :
  exists tail,
    s = (TrimRight s cutset ++ tail)%string /\
    Forall (fun c => inCutset cutset c = true) (list_ascii_of_string tail).
Proof.
  induction s as [|a s (tail & E & Ht)]; cbn [TrimRight].
  - exists EmptyString. split; [reflexivity | constructor].
  - destruct (TrimRight s cutset) as [|k kept] eqn:T.
    + destruct (inCutset cutset a) eqn:Ia.
      * exists (String a s). split; [reflexivity|]. cbn in E. subst tail.
        cbn. constructor; assumption.
      * exists tail. cbn in E. subst tail. split; [reflexivity | exact Ht].
    + exists tail. cbn. cbn in E. rewrite <- E. split; [reflexivity | exact Ht].
Qed.

Lemma TrimRight_end (s cutset u : string) (c : ascii) :
  TrimRight s cutset = (u ++ String c EmptyString)%string ->
  inCutset cutset c = false.
Proof.
  revert u. induction s as [|a s IH]; intros u; cbn [TrimRight].
  - destruct u; discriminate.
  - destruct (TrimRight s cutset) as [|k kept] eqn:T.
    + destruct (inCutset cutset a) eqn:Ia.
      * destruct u; discriminate.
      * destruct u as [|x [|y u]]; cbn; intros E; try discriminate.
        injection E as <-. exact Ia.
    + destruct u as [|x u]; cbn; intros E; [discriminate|].
      injection E as _ E. now apply IH with u.
Qed.

(** X9: neither text prompt panics on a slice expression, for every terminal,
    configuration and sequence of keys (fewer than the largest [int]): in
    every state the loop reaches the cursor stands inside the buffer or right
    after it. *)
Theorem text_prompts_never_panic (term : Terminal) (ins : list input) :
  len ins < Int.maxInt ->
  (forall ti,
     fst (textInput.Render term ti ins) <> Panics /\
     forall l, textInput.listen term ti ins = inr l -> inside (loopState l)) /\
  (forall si,
     fst (SecureInput.Render term si ins) <> Panics /\
     forall l, SecureInput.listen term si ins = inr l -> inside (loopState l)).
Proof.
  intros Hl. split.
  - intros ti.
    exact (edit_render_never_panics _ _ (text_redraw_draws ti) term ins Hl).
  - intros si.
    exact (edit_render_never_panics _ _ (secure_redraw_draws si) term ins Hl).
Qed.

(** X10: on a terminal with room for the prompt, runes typed one after the
    other and then Enter make either text prompt return the text of the
    runes, without the carriage returns and line feeds at its end, when the
    validator (if there is one) accepts the text; so Enter as the first key
    returns the empty string, also where a default value is configured: the
    default value is drawn in the placeholder and never returned. *)
Theorem typed_text_returned (term : Terminal) (rs : list Z) :
  roomy term 8 -> len rs < Int.maxInt ->
  (forall ti,
     accepts (textInput.validator ti) (runesString rs) ->
     fst (textInput.Render term ti (map typed rs ++ [press keys.Enter]))
     = Returns (TrimRight (runesString rs) CRLF) None) /\
  (forall si,
     accepts (SecureInput.validator si) (runesString rs) ->
     fst (SecureInput.Render term si (map typed rs ++ [press keys.Enter]))
     = Returns (TrimRight (runesString rs) CRLF) None) /\
  (forall ti val,
     textInput.validator ti = None ->
     fst (textInput.Render term (textInput.WithDefaultValue val ti)
            [press keys.Enter])
     = Returns EmptyString None).
Proof.
  intros Hr Hl. split; [|split].
  - intros ti Ha.
    exact (edit_render_typed _ _ (text_redraw_draws ti) term rs Hr Hl Ha).
  - intros si Ha.
    exact (edit_render_typed _ _ (secure_redraw_draws si) term rs Hr Hl Ha).
  - intros ti val Hv.
    apply (edit_render_typed _ _
             (text_redraw_draws (textInput.WithDefaultValue val ti)) term []
             Hr).
    + rewrite maxInt_eq. reflexivity.
    + intros validate E. cbn in E. congruence.
Qed.

(** X11: in either text prompt, with the cursor anywhere in the buffer, the
    key of a rune puts the rune at the cursor and Backspace right after it
    takes it out again: the buffer and the cursor are as they were. *)
Theorem type_then_erase (s : edit.state) (r : Z) :
  inside s -> len (edit.inBuf s) < Int.maxInt ->
  (forall ti, exists s1 s2,
     textInput.handler ti s (runeKey r) = Some (s1, false) /\
     textInput.handler ti s1 backspaceKey = Some (s2, false) /\
     edit.inBuf s1
     = firstn (Z.to_nat (edit.cursorPos s)) (edit.inBuf s)
       ++ r :: skipn (Z.to_nat (edit.cursorPos s)) (edit.inBuf s) /\
     edit.cursorPos s1 = edit.cursorPos s + 1 /\
     edit.inBuf s2 = edit.inBuf s /\ edit.cursorPos s2 = edit.cursorPos s) /\
  (forall si, exists s1 s2,
     SecureInput.handler si s (runeKey r) = Some (s1, false) /\
     SecureInput.handler si s1 backspaceKey = Some (s2, false) /\
     edit.inBuf s1
     = firstn (Z.to_nat (edit.cursorPos s)) (edit.inBuf s)
       ++ r :: skipn (Z.to_nat (edit.cursorPos s)) (edit.inBuf s) /\
     edit.cursorPos s1 = edit.cursorPos s + 1 /\
     edit.inBuf s2 = edit.inBuf s /\ edit.cursorPos s2 = edit.cursorPos s).
Proof.
  intros Hi Hl. split.
  - intros ti. exact (edit_type_erase _ _ (text_redraw_draws ti) s r Hi Hl).
  - intros si. exact (edit_type_erase _ _ (secure_redraw_draws si) s r Hi Hl).
Qed.

(** X12: a text either text prompt returns without an error is the text of a
    buffer its validator accepted, less the carriage returns and line feeds
    at the end of it: the validator sees the text before it is trimmed, and
    what is returned does not end in a carriage return or a line feed. *)
Theorem validated_text_returned (term : Terminal) (ins : list input)
    (v : string) :
  (forall ti,
     fst (textInput.Render term ti ins) = Returns v None ->
     exists rs tail,
       accepts (textInput.validator ti) (runesString rs) /\
       runesString rs = (v ++ tail)%string /\
       Forall (fun c => inCutset CRLF c = true) (list_ascii_of_string tail) /\
       forall u c, v = (u ++ String c EmptyString)%string ->
                   inCutset CRLF c = false) /\
  (forall si,
     fst (SecureInput.Render term si ins) = Returns v None ->
     exists rs tail,
       accepts (SecureInput.validator si) (runesString rs) /\
       runesString rs = (v ++ tail)%string /\
       Forall (fun c => inCutset CRLF c = true) (list_ascii_of_string tail) /\
       forall u c, v = (u ++ String c EmptyString)%string ->
                   inCutset CRLF c = false).
Proof.
  split.
  - intros ti R.
    destruct (edit_render_returns _ _ (text_redraw_draws ti) term ins v R)
      as (rs & Ha & ->).
    destruct (TrimRight_tail (runesString rs) CRLF) as (tail & E & Ht).
    exists rs, tail. repeat split; try assumption.
    intros u c. apply TrimRight_end.
  - intros si R.
    destruct (edit_render_returns _ _ (secure_redraw_draws si) term ins v R)
      as (rs & Ha & ->).
    destruct (TrimRight_tail (runesString rs) CRLF) as (tail & E & Ht).
    exists rs, tail. repeat split; try assumption.
    intros u c. apply TrimRight_end.
Qed.

(** X13: the prompt for a secret never writes the text typed: a frame it
    draws shows after the prompt either nothing or, with the echo on, one
    asterisk for each rune of the buffer, and nothing at all once
    [WithNoEcho] is set. *)
Theorem secure_input_echo (term : Terminal) (si : SecureInput.t)
    (ins : list input) (f : inputFrame) :
  In (inr f) (snd (SecureInput.Render term si ins)) ->
  shownInput f = None \/
  (SecureInput.noEcho si = false /\
   exists n, 0 < n /\ shownInput f = Some (SecureInput.stars n)).
Proof.
  apply (edit_render_shown (SecureInput.validator si) (SecureInput.redraw si)
           (fun f =>
              shownInput f = None \/
              (SecureInput.noEcho si = false /\
               exists n, 0 < n /\ shownInput f = Some (SecureInput.stars n)))).
  intros input cursor msg ok s. eexists. split; [reflexivity|].
  cbn [shownInput].
  destruct (Z.eqb_spec (len input) 0) as [E|E]; cbn [negb andb]; [now left|].
  destruct (SecureInput.noEcho si); cbn [negb]; [now left|].
  right. split; [reflexivity|]. exists (len input).
  split; [pose proof (len_nonneg input); lia | reflexivity].
Qed.

Lemma edit_render_small (validator : option (string -> string * bool))
    (redraw : list Z -> Z -> string -> option bool -> edit.state -> edit.state)
    (term : Terminal) (ins : list input) :
  ~ roomy term 8 ->
  edit.Render validator redraw term ins
  = (Returns EmptyString (Some ErrTerminalTooSmall), []).
Proof.
  intros H. unfold edit.Render, edit.listen, edit.start, makeSpace,
    getTermDimensions.
  destruct (Z.ltb_spec (termHeight term) 8); [reflexivity|].
  destruct (Z.ltb_spec (termWidth term) 50); [reflexivity|].
  exfalso. apply H. split; lia.
Qed.

Lemma edit_render_ended (validator : option (string -> string * bool))
    (redraw : list Z -> Z -> string -> option bool -> edit.state -> edit.state)
    (term : Terminal) (ins rest : list input) (s : edit.state) :
  edit.listen validator redraw term ins = inr (Listening s) ->
  edit.Render validator redraw term (ins ++ press keys.CtrlC :: rest)
  = (Returns EmptyString (Some ErrInterrupted),
     edit.written s ++ [inl ResetState]) /\
  edit.Render validator redraw term (ins ++ ReadError :: rest)
  = (Returns EmptyString (Some ErrKeyboard),
     edit.written s ++ [inl ResetState]).
Proof.
  unfold edit.Render, edit.listen.
  destruct (edit.start redraw term) as [failed|s0]; [discriminate|].
  intros E. injection E as E. rewrite !Listen_app, E. split; reflexivity.
Qed.

(** X6: a text prompt on a terminal of fewer than 8 rows or 50 columns
    returns [ErrTerminalTooSmall] and writes nothing, whatever the keys and
    the validator; while the loop listens, Ctrl+C makes [Render] return
    [ErrInterrupted] and a keyboard error makes it return that error, with
    the empty string whatever was typed, the deferred [resetState] the last
    thing written, and the keys after them not read. *)
Theorem text_prompt_errors (term : Terminal) (ins rest : list input) :
  (forall ti,
     (~ roomy term 8 ->
      textInput.Render term ti ins
      = (Returns EmptyString (Some ErrTerminalTooSmall), [])) /\
     (forall s,
        textInput.listen term ti ins = inr (Listening s) ->
        textInput.Render term ti (ins ++ press keys.CtrlC :: rest)
        = (Returns EmptyString (Some ErrInterrupted),
           edit.written s ++ [inl ResetState]) /\
        textInput.Render term ti (ins ++ ReadError :: rest)
        = (Returns EmptyString (Some ErrKeyboard),
           edit.written s ++ [inl ResetState]))) /\
  (forall si,
     (~ roomy term 8 ->
      SecureInput.Render term si ins
      = (Returns EmptyString (Some ErrTerminalTooSmall), [])) /\
     (forall s,
        SecureInput.listen term si ins = inr (Listening s) ->
        SecureInput.Render term si (ins ++ press keys.CtrlC :: rest)
        = (Returns EmptyString (Some ErrInterrupted),
           edit.written s ++ [inl ResetState]) /\
        SecureInput.Render term si (ins ++ ReadError :: rest)
        = (Returns EmptyString (Some ErrKeyboard),
           edit.written s ++ [inl ResetState]))).
Proof.
  split.
  - intros ti. split.
    + apply edit_render_small.
    + intros s. apply edit_render_ended.
  - intros si. split.
    + apply edit_render_small.
    + intros s. apply edit_render_ended.
Qed.

(** ** Colours *)

Lemma cat_assoc (a b c : string) :
  ((a ++ b) ++ c)%string = (a ++ b ++ c)%string.
Proof. induction a as [|x a IH]; cbn; [reflexivity | now rewrite IH]. Qed.

Lemma cat_empty (a : string) : (a ++ EmptyString)%string = a.
Proof. induction a as [|x a IH]; cbn; [reflexivity | now rewrite IH]. Qed.

Lemma length_cat (a b : string) :
  String.length (a ++ b) = (String.length a + String.length b)%nat.
Proof. induction a as [|x a IH]; cbn; [reflexivity | now rewrite IH]. Qed.

Lemma substring_whole (s : string) : substring 0 (String.length s) s = s.
Proof. induction s as [|x s IH]; cbn; [reflexivity | now rewrite IH]. Qed.

Lemma substring_head (a b : string) :
  substring 0 (String.length a) (a ++ b) = a.
Proof.
  induction a as [|x a IH]; cbn; [now destruct b | now rewrite IH].
Qed.

Lemma substring_past (a b : string) (n m : nat) :
  substring (String.length a + n) m (a ++ b) = substring n m b.
Proof. induction a as [|x a IH]; cbn; [reflexivity | exact IH]. Qed.

Lemma strlen_nat (s : string) : Z.to_nat (strlen s) = String.length s.
Proof. unfold strlen. apply Nat2Z.id. Qed.

Lemma sliceTo_head (a b : string) : sliceTo (a ++ b) (strlen a) = a.
Proof. unfold sliceTo. rewrite strlen_nat. apply substring_head. Qed.

Lemma sliceFrom_past (a b : string) : sliceFrom (a ++ b) (strlen a) = b.
Proof.
  unfold sliceFrom. rewrite strlen_nat, length_cat.
  replace (String.length a) with (String.length a + 0)%nat at 1 by lia.
  rewrite substring_past.
  replace (String.length a + String.length b - String.length a)%nat
    with (String.length b) by lia.
  apply substring_whole.
Qed.

Lemma slice_middle (a b c : string) :
  slice (a ++ b ++ c) (strlen a) (strlen a + strlen b) = b.
Proof.
  unfold slice. rewrite strlen_nat.
  replace (Z.to_nat (strlen a + strlen b) - String.length a)%nat
    with (String.length b) by (unfold strlen; lia).
  replace (String.length a) with (String.length a + 0)%nat at 1 by lia.
  rewrite substring_past. apply substring_head.
Qed.

Lemma Contains_comma (x : ascii) (a : string) :
  Contains (String x a) "," = (Ascii.eqb x "," || Contains a ",").
Proof.
  cbn [Contains HasPrefix]. destruct a; now rewrite andb_true_r.
Qed.

Lemma commas_next (a rest : string) (i c1 : Z) :
  Contains a "," = false ->
  styles.commas (a ++ String "," rest) i c1
  = if c1 =? -1
    then styles.commas rest (i + strlen a + 1) (i + strlen a)
    else (c1, i + strlen a).
Proof.
  revert i. induction a as [|x a IH]; intros i H.
  - cbn [append styles.commas]. rewrite Ascii.eqb_refl.
    change (strlen EmptyString) with 0. rewrite !Z.add_0_r. reflexivity.
  - cbn [append styles.commas]. rewrite Contains_comma in H.
    apply orb_false_iff in H. destruct H as [-> H].
    rewrite IH by exact H.
    unfold strlen. cbn [String.length].
    replace (i + 1 + Z.of_nat (String.length a) + 1)
      with (i + Z.of_nat (S (String.length a)) + 1) by lia.
    replace (i + 1 + Z.of_nat (String.length a))
      with (i + Z.of_nat (S (String.length a))) by lia.
    reflexivity.
Qed.

(** The decimal numeral of a byte has a digit and no comma. *)
Lemma Itoa_byte (z : Z) :
  isByte z = true ->
  Contains (Itoa z) "," = false /\ isEmpty (Itoa z) = false.
Proof.
  intros H.
  assert (forallb (fun n => negb (Contains (Itoa (Z.of_nat n)) ",")
                            && negb (isEmpty (Itoa (Z.of_nat n))))
                  (seq 0 256) = true) as All by (vm_compute; reflexivity).
  rewrite forallb_forall in All.
  unfold isByte in H. apply andb_true_iff in H. destruct H as [H0 H1].
  apply Z.leb_le in H0, H1.
  specialize (All (Z.to_nat z)). rewrite Z2Nat.id in All by exact H0.
  assert (In (Z.to_nat z) (seq 0 256)) as Hin by (apply in_seq; lia).
  apply All in Hin. apply andb_true_iff in Hin. destruct Hin as [A B].
  apply negb_true_iff in A, B. auto.
Qed.

Lemma isEmpty_cat (a b : string) :
  isEmpty a = false -> isEmpty (a ++ b) = false.
Proof. destruct a; [discriminate | reflexivity]. Qed.

Lemma strlen_pos (a : string) : isEmpty a = false -> 0 < strlen a.
Proof. destruct a; [discriminate|]. unfold strlen. cbn [String.length]. lia. Qed.

Lemma strlen_cat (a b : string) : strlen (a ++ b) = strlen a + strlen b.
Proof. unfold strlen. rewrite length_cat. lia. Qed.

(** What [toSGR] reads from a colour of the form [rgb:R,G,B]. *)
Lemma toSGR_rgb_text (R G B : string) (bg : bool) :
  Contains R "," = false -> Contains G "," = false -> isEmpty R = false ->
  styles.toSGR ("rgb:" ++ R ++ "," ++ G ++ "," ++ B)%string bg
  = (((if bg then "48;2;" else "38;2;") ++ R ++ ";" ++ G ++ ";" ++ B)%string,
     true).
Proof.
  intros Cr Cg Er.
  pose proof (strlen_pos R Er) as Pr.
  assert (0 <= strlen G) as Pg by (unfold strlen; lia).
  set (rest := (R ++ "," ++ G ++ "," ++ B)%string).
  assert (isEmpty ("rgb:" ++ rest) = false) as E1 by reflexivity.
  assert ((4 <? strlen ("rgb:" ++ rest)) = true) as E2.
  { apply Z.ltb_lt. rewrite strlen_cat. unfold rest. rewrite strlen_cat.
    change (strlen "rgb:") with 4.
    assert (0 <= strlen ("," ++ G ++ "," ++ B)) by (unfold strlen; lia). lia. }
  assert (sliceTo ("rgb:" ++ rest) 4 = "rgb:") as E3
    by exact (sliceTo_head "rgb:" rest).
  assert (sliceFrom ("rgb:" ++ rest) 4 = rest) as E4
    by exact (sliceFrom_past "rgb:" rest).
  assert (styles.commas rest 0 (-1) = (strlen R, strlen R + 1 + strlen G))
    as E5.
  { unfold rest.
    change ("," ++ G ++ "," ++ B)%string with (String "," (G ++ String "," B)).
    rewrite commas_next by exact Cr. rewrite Z.eqb_refl.
    rewrite commas_next by exact Cg.
    destruct (Z.eqb_spec (0 + strlen R) (-1)); [lia|].
    f_equal; lia. }
  assert (sliceTo rest (strlen R) = R) as E6 by apply sliceTo_head.
  assert (slice rest (strlen R + 1) (strlen R + 1 + strlen G) = G) as E7.
  { unfold rest. rewrite <- (cat_assoc R ",").
    replace (strlen R + 1) with (strlen (R ++ ","))
      by (rewrite strlen_cat; reflexivity).
    apply slice_middle. }
  assert (sliceFrom rest (strlen R + 1 + strlen G + 1) = B) as E8.
  { unfold rest.
    rewrite <- (cat_assoc G "," B), <- (cat_assoc "," (G ++ ",") B),
      <- (cat_assoc R ("," ++ G ++ ",") B).
    replace (strlen R + 1 + strlen G + 1)
      with (strlen (R ++ "," ++ G ++ ","))
      by (rewrite !strlen_cat; change (strlen ",") with 1; lia).
    apply sliceFrom_past. }
  unfold styles.toSGR. cbv zeta.
  rewrite E1, E2, E3, String.eqb_refl, E4, E5. cbv beta iota.
  destruct (Z.eqb_spec (strlen R) (-1)); [lia|].
  destruct (Z.eqb_spec (strlen R + 1 + strlen G) (-1)); [lia|].
  cbv beta iota. rewrite E6, E7, E8. destruct bg; reflexivity.
Qed.

Lemma isByte_range (z : Z) : isByte z = true <-> 0 <= z <= 255.
Proof. unfold isByte. rewrite andb_true_iff, !Z.leb_le. tauto. Qed.

Lemma ColorFromRGB_bytes (r g b : Z) :
  styles.ColorFromRGB r g b
  = if isByte r && isByte g && isByte b
    then ("rgb:" ++ Itoa r ++ "," ++ Itoa g ++ "," ++ Itoa b)%string
    else EmptyString.
Proof.
  unfold styles.ColorFromRGB, isByte.
  destruct (Z.ltb_spec r 0), (Z.ltb_spec 255 r), (Z.ltb_spec g 0),
           (Z.ltb_spec 255 g), (Z.ltb_spec b 0), (Z.ltb_spec 255 b),
           (Z.leb_spec 0 r), (Z.leb_spec r 255), (Z.leb_spec 0 g),
           (Z.leb_spec g 255), (Z.leb_spec 0 b), (Z.leb_spec b 255);
    cbn [orb andb]; try reflexivity; lia.
Qed.

Lemma ColorFromANSI_byte (i : Z) :
  styles.ColorFromANSI i
  = if isByte i then ("ansi:" ++ Itoa i)%string else EmptyString.
Proof.
  unfold styles.ColorFromANSI, isByte.
  destruct (Z.ltb_spec i 0), (Z.ltb_spec 255 i), (Z.leb_spec 0 i),
           (Z.leb_spec i 255); cbn [orb andb]; try reflexivity; lia.
Qed.

(** The escape sequence parameters of a colour given by its three bytes. *)
Lemma toSGR_rgb (r g b : Z) (bg : bool) :
  isByte r = true -> isByte g = true -> isByte b = true ->
  styles.toSGR (styles.ColorFromRGB r g b) bg
  = (((if bg then "48;2;" else "38;2;")
      ++ Itoa r ++ ";" ++ Itoa g ++ ";" ++ Itoa b)%string, true).
Proof.
  intros Hr Hg Hb.
  destruct (Itoa_byte r Hr) as [Cr Er], (Itoa_byte g Hg) as [Cg Eg].
  rewrite ColorFromRGB_bytes, Hr, Hg, Hb. cbn [andb].
  now apply toSGR_rgb_text.
Qed.

Lemma toSGR_empty (bg : bool) : styles.toSGR EmptyString bg = (EmptyString, false).
Proof. reflexivity. Qed.

Lemma toSGR_ansi (i : Z) (bg : bool) :
  isByte i = true ->
  styles.toSGR (styles.ColorFromANSI i) bg
  = (((if bg then "48;5;" else "38;5;") ++ Itoa i)%string, true).
Proof.
  intros Hi. destruct (Itoa_byte i Hi) as [_ Ei].
  rewrite ColorFromANSI_byte, Hi. set (N := Itoa i) in *.
  pose proof (strlen_pos N Ei) as Pn.
  assert (isEmpty ("ansi:" ++ N) = false) as E1 by reflexivity.
  assert ((4 <? strlen ("ansi:" ++ N)) = true) as E2.
  { apply Z.ltb_lt. rewrite strlen_cat. change (strlen "ansi:") with 5. lia. }
  assert ((5 <? strlen ("ansi:" ++ N)) = true) as E3.
  { apply Z.ltb_lt. rewrite strlen_cat. change (strlen "ansi:") with 5. lia. }
  assert (sliceTo ("ansi:" ++ N) 4 = "ansi") as E4
    by exact (sliceTo_head "ansi" (":" ++ N)).
  assert (sliceTo ("ansi:" ++ N) 5 = "ansi:") as E5
    by exact (sliceTo_head "ansi:" N).
  assert (TrimPrefix ("ansi:" ++ N) "ansi:" = N) as E6.
  { unfold TrimPrefix.
    assert (HasPrefix ("ansi:" ++ N) "ansi:" = true) as ->
      by (apply HasPrefix_iff; eauto).
    apply sliceFrom_past. }
  unfold styles.toSGR. cbv zeta.
  rewrite E1, E2, E3, E4, E5, E6, Ei, String.eqb_refl.
  destruct bg; reflexivity.
Qed.

(** X14: a colour made by [ColorFromRGB] or [ColorFromANSI] from numbers that
    fit a byte is read back by [toSGR] as the parameters [38;2;r;g;b] and
    [38;5;n] of the escape sequence ([48] for a background), the numbers in
    decimal; from any number that does not fit a byte both make the empty
    colour, for which [toSGR] has no parameters. *)
Theorem colour_codes (r g b i : Z) (bg : bool) :
  styles.toSGR (styles.ColorFromRGB r g b) bg
  = (if isByte r && isByte g && isByte b
     then (((if bg then "48;2;" else "38;2;")
            ++ Itoa r ++ ";" ++ Itoa g ++ ";" ++ Itoa b)%string, true)
     else (EmptyString, false)) /\
  styles.toSGR (styles.ColorFromANSI i) bg
  = (if isByte i
     then (((if bg then "48;5;" else "38;5;") ++ Itoa i)%string, true)
     else (EmptyString, false)).
Proof.
  split.
  - destruct (isByte r) eqn:Hr, (isByte g) eqn:Hg, (isByte b) eqn:Hb;
      cbn [andb]; try (now apply toSGR_rgb);
      rewrite ColorFromRGB_bytes, Hr, Hg, Hb; reflexivity.
  - destruct (isByte i) eqn:Hi; [now apply toSGR_ansi|].
    rewrite ColorFromANSI_byte, Hi. reflexivity.
Qed.

Lemma hexValue_digit (c : ascii) (d : Z) :
  hexValue c = Some d ->
  digitValue c = Some d /\ 0 <= d < 16 /\
  isASCIIByte c = true /\ asciiSpace c = false /\ Ascii.eqb c "#" = false.
Proof.
  destruct c as [[] [] [] [] [] [] [] []]; vm_compute; intros E;
    try discriminate; injection E as <-; repeat split; discriminate.
Qed.

Lemma digitValue_nonneg (c : ascii) (d : Z) : digitValue c = Some d -> 0 <= d.
Proof.
  unfold digitValue.
  destruct (Z.leb_spec 48 (Z.of_N (N_of_ascii c)));
    destruct (Z.leb_spec (Z.of_N (N_of_ascii c)) 57); cbn [andb];
    try (intros E; injection E as <-; lia);
    destruct (Z.leb_spec 97 (Z.lor (Z.of_N (N_of_ascii c)) 32));
    destruct (Z.leb_spec (Z.lor (Z.of_N (N_of_ascii c)) 32) 122); cbn [andb];
    intros E; try discriminate; injection E as <-; lia.
Qed.

Lemma parseDigits_range (base maxVal : Z) (s : string) :
  0 <= base ->
  forall n v, 0 <= n <= maxVal -> parseDigits base maxVal s n = Some v ->
              0 <= v <= maxVal.
Proof.
  intros Hb. induction s as [|c s IH]; intros n v Hn; cbn [parseDigits].
  - intros E. injection E as <-. exact Hn.
  - destruct (digitValue c) as [d|] eqn:D; [|discriminate].
    pose proof (digitValue_nonneg c d D).
    destruct (base <=? d); [discriminate|].
    destruct (Z.ltb_spec maxVal (n * base + d)); [discriminate|].
    apply IH. nia.
Qed.

Lemma ParseUint_byte (s : string) (v : Z) :
  ParseUint s 16 8 = Some v -> isByte v = true.
Proof.
  unfold ParseUint. destruct (isEmpty s); [discriminate|].
  change (2 ^ 8 - 1) with 255. intros E.
  apply parseDigits_range in E; [|lia|lia]. apply isByte_range. exact E.
Qed.

Lemma ParseUint_hex (h1 h2 : ascii) (d1 d2 : Z) :
  hexValue h1 = Some d1 -> hexValue h2 = Some d2 ->
  ParseUint (String h1 (String h2 EmptyString)) 16 8 = Some (16 * d1 + d2).
Proof.
  intros H1 H2.
  destruct (hexValue_digit h1 d1 H1) as (D1 & B1 & _).
  destruct (hexValue_digit h2 d2 H2) as (D2 & B2 & _).
  unfold ParseUint. cbn [isEmpty parseDigits]. change (2 ^ 8 - 1) with 255.
  rewrite D1, D2.
  destruct (Z.leb_spec 16 d1); [lia|].
  destruct (Z.ltb_spec 255 (0 * 16 + d1)); [lia|].
  destruct (Z.leb_spec 16 d2); [lia|].
  destruct (Z.ltb_spec 255 ((0 * 16 + d1) * 16 + d2)); [lia|].
  f_equal. lia.
Qed.

(** What [ColorFromHex] makes of the text left when the white space and the
    [#] are taken off. *)
Lemma ColorFromHex_trimmed {W : UnicodeSpaces} (hx t : string) :
  TrimPrefix (TrimSpace hx) "#" = t ->
  styles.ColorFromHex hx
  = if negb (strlen t =? 6) then EmptyString
    else
      match ParseUint (slice t 0 2) 16 8, ParseUint (slice t 2 4) 16 8,
            ParseUint (slice t 4 6) 16 8 with
      | Some r, Some g, Some b => styles.ColorFromRGB r g b
      | _, _, _ => EmptyString
      end.
Proof.
  intros <-. unfold styles.ColorFromHex. cbv zeta.
  set (t := TrimPrefix (TrimSpace hx) "#").
  destruct (negb _); [reflexivity|]. cbn [fold_left].
  change (0 + 2) with 2. change (2 + 2) with 4. change (4 + 2) with 6.
  destruct (ParseUint (slice t 0 2) 16 8) as [r|] eqn:Er;
    [|destruct (ParseUint (slice t 2 4) 16 8),
               (ParseUint (slice t 4 6) 16 8); reflexivity].
  destruct (ParseUint (slice t 2 4) 16 8) as [g|] eqn:Eg;
    [|destruct (ParseUint (slice t 4 6) 16 8); reflexivity].
  destruct (ParseUint (slice t 4 6) 16 8) as [b|] eqn:Eb; [|reflexivity].
  rewrite ColorFromRGB_bytes, (ParseUint_byte _ _ Er), (ParseUint_byte _ _ Eg),
    (ParseUint_byte _ _ Eb).
  cbn [andb Z.ltb Z.compare]. rewrite !cat_assoc. reflexivity.
Qed.

(** X15: [ColorFromHex] reads six hexadecimal digits of either case, with or
    without a [#] before them, as the three bytes of a colour: it returns
    what [ColorFromRGB] returns for the value [16 * d1 + d2] of each pair, the
    digits now decimal numbers. *)
Theorem hex_colour {W : UnicodeSpaces} (h1 h2 h3 h4 h5 h6 : ascii)
    (d1 d2 d3 d4 d5 d6 : Z) :
  hexValue h1 = Some d1 -> hexValue h2 = Some d2 -> hexValue h3 = Some d3 ->
  hexValue h4 = Some d4 -> hexValue h5 = Some d5 -> hexValue h6 = Some d6 ->
  let digits :=
    String h1 (String h2 (String h3 (String h4 (String h5
      (String h6 EmptyString))))) in
  let colour :=
    styles.ColorFromRGB (16 * d1 + d2) (16 * d3 + d4) (16 * d5 + d6) in
  styles.ColorFromHex digits = colour /\
  styles.ColorFromHex (String "#" digits) = colour /\
  colour
  = ("rgb:" ++ Itoa (16 * d1 + d2) ++ "," ++ Itoa (16 * d3 + d4) ++ ","
     ++ Itoa (16 * d5 + d6))%string.
Proof.
  intros H1 H2 H3 H4 H5 H6 digits colour.
  destruct (hexValue_digit h1 d1 H1) as (_ & B1 & A1 & S1 & N1).
  destruct (hexValue_digit h2 d2 H2) as (_ & B2 & _).
  destruct (hexValue_digit h3 d3 H3) as (_ & B3 & _).
  destruct (hexValue_digit h4 d4 H4) as (_ & B4 & _).
  destruct (hexValue_digit h5 d5 H5) as (_ & B5 & _).
  destruct (hexValue_digit h6 d6 H6) as (_ & B6 & A6 & S6 & _).
  assert (forall t, t = digits ->
          (if negb (strlen t =? 6) then EmptyString
           else
             match ParseUint (slice t 0 2) 16 8, ParseUint (slice t 2 4) 16 8,
                   ParseUint (slice t 4 6) 16 8 with
             | Some r, Some g, Some b => styles.ColorFromRGB r g b
             | _, _, _ => EmptyString
             end) = colour) as Parsed.
  { intros t ->. unfold digits. cbn [strlen String.length Z.of_nat].
    cbn [Z.eqb Pos.eqb Pos.of_succ_nat Pos.succ negb].
    change (slice _ 0 2) with (String h1 (String h2 EmptyString)).
    change (slice _ 2 4) with (String h3 (String h4 EmptyString)).
    change (slice _ 4 6) with (String h5 (String h6 EmptyString)).
    rewrite (ParseUint_hex h1 h2 d1 d2 H1 H2), (ParseUint_hex h3 h4 d3 d4 H3 H4),
      (ParseUint_hex h5 h6 d5 d6 H5 H6).
    reflexivity. }
  split; [|split].
  - rewrite (ColorFromHex_trimmed digits digits); [now apply Parsed|].
    unfold digits. cbn [TrimSpace]. rewrite A1, S1. cbn [negb].
    cbn [list_ascii_of_string rev app trimSpaceEnd]. rewrite A6, S6.
    cbn [negb string_of_list_ascii].
    unfold TrimPrefix. cbn [HasPrefix]. rewrite N1. reflexivity.
  - rewrite (ColorFromHex_trimmed (String "#" digits) digits);
      [now apply Parsed|].
    unfold digits. cbn [TrimSpace isASCIIByte asciiSpace]. 
    change (negb (N_of_ascii "#" <? 128)%N) with false. cbv iota.
    change (((9 <=? N_of_ascii "#") && (N_of_ascii "#" <=? 13)
             || (N_of_ascii "#" =? 32))%N) with false. cbv iota.
    cbn [list_ascii_of_string rev app trimSpaceEnd]. rewrite A6, S6.
    cbn [negb string_of_list_ascii].
    reflexivity.
  - unfold colour. rewrite ColorFromRGB_bytes.
    assert (isByte (16 * d1 + d2) = true) as -> by (apply isByte_range; lia).
    assert (isByte (16 * d3 + d4) = true) as -> by (apply isByte_range; lia).
    assert (isByte (16 * d5 + d6) = true) as -> by (apply isByte_range; lia).
    reflexivity.
Qed.

(** X16: whatever text it is given, [ColorFromHex] returns the empty colour
    or a colour [ColorFromRGB] makes from three bytes, which [toSGR] reads
    back as the three numbers: it never makes a colour [toSGR] cannot read. *)
Theorem hex_never_malformed {W : UnicodeSpaces} (hx : string) :
  styles.ColorFromHex hx = EmptyString \/
  exists r g b,
    isByte r = true /\ isByte g = true /\ isByte b = true /\
    styles.ColorFromHex hx = styles.ColorFromRGB r g b /\
    forall bg,
      styles.toSGR (styles.ColorFromHex hx) bg
      = (((if bg then "48;2;" else "38;2;")
          ++ Itoa r ++ ";" ++ Itoa g ++ ";" ++ Itoa b)%string, true).
Proof.
  rewrite (ColorFromHex_trimmed hx _ eq_refl).
  set (t := TrimPrefix (TrimSpace hx) "#").
  destruct (negb (strlen t =? 6)); [now left|].
  destruct (ParseUint (slice t 0 2) 16 8) as [r|] eqn:Er; [|now left].
  destruct (ParseUint (slice t 2 4) 16 8) as [g|] eqn:Eg; [|now left].
  destruct (ParseUint (slice t 4 6) 16 8) as [b|] eqn:Eb; [|now left].
  right. exists r, g, b.
  pose proof (ParseUint_byte _ _ Er). pose proof (ParseUint_byte _ _ Eg).
  pose proof (ParseUint_byte _ _ Eb).
  repeat split; try assumption. intros bg. now apply toSGR_rgb.
Qed.

Lemma toSGR_code (c : styles.color) (bg : bool) (code : string) :
  styles.toSGR c bg = (code, true) -> isEmpty code = false.
Proof.
  unfold styles.toSGR. cbv zeta.
  destruct (isEmpty c); [discriminate|].
  destruct ((4 <? strlen c) && String.eqb (sliceTo c 4) "rgb:").
  - destruct (styles.commas (sliceFrom c 4) 0 (-1)) as [c1 c2].
    destruct ((c1 =? -1) || (c2 =? -1)); [discriminate|].
    destruct bg; intros E; injection E as <-; reflexivity.
  - destruct ((5 <? strlen c) && String.eqb (sliceTo c 5) "ansi:");
      [|discriminate].
    destruct (isEmpty (TrimPrefix c "ansi:")); [discriminate|].
    destruct bg; intros E; injection E as <-; reflexivity.
Qed.

Lemma writeCode_code (code built : string) (first : bool) :
  isEmpty code = false ->
  styles.writeCode code (built, first)
  = ((if first then built ++ code else built ++ ";" ++ code)%string, false).
Proof.
  intros E. unfold styles.writeCode. rewrite E.
  destruct first; cbn [negb]; [reflexivity | now rewrite cat_assoc].
Qed.

Lemma isEmpty_eq (s : string) : isEmpty s = true -> s = EmptyString.
Proof. destruct s; [reflexivity | discriminate]. Qed.

(** X17: [Sprint] returns the text as it is when the text is empty, when
    colours are off ([NO_COLOR], no terminal) or when the attributes give no
    parameter (none set, or colours [toSGR] cannot read); otherwise it
    returns the text between one escape sequence, whose parameters are those
    of the attributes set, in the order bold, dim, italic, underline,
    strikethrough, foreground, background, with a semicolon between two of
    them, and the reset sequence. *)
Theorem sprint_codes (noColor noTTY : bool) (st : styles.attribs)
    (text : string) :
  styles.Sprint noColor noTTY st text
  = if isEmpty text || noColor || noTTY then text
    else
      match sgrCodes st with
      | [] => text
      | codes =>
          (ESC ++ "[" ++ String.concat ";" codes ++ "m" ++ text
           ++ ESC ++ "[0m")%string
      end.
Proof.
  unfold styles.Sprint.
  destruct (isEmpty text), noColor, noTTY; cbn [orb]; try reflexivity.
  destruct st as [fg bg dim bold italic underline strikethrough].
  unfold sgrCodes, styles.noAttribs.
  cbn [styles.fg styles.bg styles.dim styles.bold styles.italic
       styles.underline styles.strikethrough].
  destruct (styles.toSGR fg false) as [c1 ok1] eqn:E1.
  destruct (styles.toSGR bg true) as [c2 ok2] eqn:E2.
  assert (isEmpty fg = true -> ok1 = false) as F1.
  { intros H. apply isEmpty_eq in H. subst fg. cbn in E1. congruence. }
  assert (isEmpty bg = true -> ok2 = false) as F2.
  { intros H. apply isEmpty_eq in H. subst bg. cbn in E2. congruence. }
  assert (ok1 = true -> isEmpty c1 = false) as N1
    by (intros ->; exact (toSGR_code _ _ _ E1)).
  assert (ok2 = true -> isEmpty c2 = false) as N2
    by (intros ->; exact (toSGR_code _ _ _ E2)).
  clear E1 E2.
  destruct ok1; [specialize (N1 eq_refl) | clear N1];
    destruct ok2; [specialize (N2 eq_refl) | clear N2 | specialize (N2 eq_refl) | clear N2];
    destruct (isEmpty fg); try (specialize (F1 eq_refl); discriminate);
    destruct (isEmpty bg); try (specialize (F2 eq_refl); discriminate);
    clear F1 F2;
    destruct bold, dim, italic, underline, strikethrough;
    cbn [negb andb orb app]; try reflexivity;
    repeat first
      [ rewrite (writeCode_code c1) by exact N1
      | rewrite (writeCode_code c2) by exact N2
      | rewrite writeCode_code by reflexivity ];
    cbn [fst snd String.concat]; rewrite ?cat_assoc; reflexivity.
Qed.

(** ** What the selection prompts can return *)

Lemma index_In {A : Type} (l : list A) (i : Z) (x : A) :
  index l i = Some x -> In x l.
Proof.
  unfold index. destruct (i <? 0); [discriminate|]. apply nth_error_In.
Qed.

Lemma filterChoices_In {U : UnicodeTables} (choices : list Choice)
    (query : string) (c : Choice) :
  In c (filterChoices choices query) -> In c choices.
Proof.
  rewrite filterChoices_filter. destruct (isEmpty query); [auto|].
  intros H. apply filter_In in H. tauto.
Qed.

Lemma removeSelected_In (l l' : list Choice) (c x : Choice) :
  multiSelect.removeSelected l c = Some l' -> In x l' -> In x l.
Proof.
  revert l'. induction l as [|y l IH]; intros l'; cbn [multiSelect.removeSelected].
  - discriminate.
  - destruct (String.eqb (Value y) (Value c)).
    + intros E. injection E as <-. now right.
    + destruct (multiSelect.removeSelected l c) as [r|]; [|discriminate].
      cbn [option_map]. intros E. injection E as <-.
      intros [<-|H]; [now left | right; now apply (IH r)].
Qed.

Lemma toggleSelection_In (ms : multiSelect.t) (l : list Choice) (c x : Choice) :
  In x (multiSelect.toggleSelection ms l c) -> In x l \/ x = c.
Proof.
  unfold multiSelect.toggleSelection.
  destruct (multiSelect.removeSelected l c) as [r|] eqn:E.
  - intros H. left. exact (removeSelected_In _ _ _ _ E H).
  - destruct (_ || _); [|auto]. rewrite in_app_iff.
    intros [H|[<-|[]]]; auto.
Qed.

Section Selected.
Context {U : UnicodeTables}.

(** A key leaves the selection of the single-select prompt as it is, clears
    it, or selects the choice under the cursor, which is not disabled. *)
Lemma single_switch_selection (ss : singleSelect.t) (s s' : session Choice)
    (key : keys.Key) (stop : bool) :
  singleSelect.switch ss s key = Some (s', stop) ->
  selection s' = selection s \/ selection s' = zeroChoice \/
  (In (selection s') (filteredChoices (win s)) /\
   Disabled (selection s') = false).
Proof.
  intros H. destruct key as [code runes].
  unfold singleSelect.switch in H. cbv zeta in H.
  destruct code; cbn [keys.Code keys.Runes] in H; switch_cases H;
    cbn [selection set_win set_valMessage set_searchMode set_interrupted
         set_selection search set_searchQuery]; auto.
  right. right. split; [|assumption].
  eapply index_In. eassumption.
Qed.

(** A key leaves the selection of the multi-select prompt as it is, or
    toggles the choice under the cursor, which is not disabled. *)
Lemma multi_switch_selection (ms : multiSelect.t) (s s' : session (list Choice))
    (key : keys.Key) (stop : bool) :
  multiSelect.switch ms s key = Some (s', stop) ->
  forall x, In x (selection s') ->
    In x (selection s) \/
    (In x (filteredChoices (win s)) /\ Disabled x = false).
Proof.
  intros H. destruct key as [code runes].
  unfold multiSelect.switch in H. cbv zeta in H.
  destruct code; cbn [keys.Code keys.Runes] in H; switch_cases H;
    cbn [selection set_win set_valMessage set_searchMode set_interrupted
         set_selection search set_searchQuery]; auto;
    intros x Hx; apply toggleSelection_In in Hx; destruct Hx as [Hx| ->];
    auto; right; (split; [eapply index_In; eassumption | assumption]).
Qed.

Lemma single_start_failed (term : Terminal) (ss : singleSelect.t)
    (r : outcome Choice) (out : list output) (c : Choice) :
  singleSelect.start term ss = inl (r, out) -> r <> Returns c None.
Proof.
  unfold singleSelect.start. cbv zeta.
  destruct (makeSpace term _) as [[e|] o].
  - intros E. injection E as <- <-. discriminate.
  - destruct (len (singleSelect.choices ss) =? 0).
    + intros E. injection E as <- <-. discriminate.
    + match goal with
      | |- context [match ?x with Some _ => _ | None => _ end] =>
          destruct x as [sel|]
      end.
      * destruct (singleSelect.redraw ss _); [discriminate|].
        intros E. injection E as <- <-. discriminate.
      * intros E. injection E as <- <-. discriminate.
Qed.

Lemma multi_start_failed (term : Terminal) (ms : multiSelect.t)
    (r : outcome (list Choice)) (out : list output) (cs : list Choice) :
  multiSelect.start term ms = inl (r, out) -> r <> Returns cs None.
Proof.
  unfold multiSelect.start. cbv zeta.
  destruct (makeSpace term _) as [[e|] o].
  - intros E. injection E as <- <-. discriminate.
  - destruct (len (multiSelect.choices ms) =? 0).
    + intros E. injection E as <- <-. discriminate.
    + destruct (multiSelect.maxAllowed ms <? multiSelect.minRequired ms).
      * intros E. injection E as <- <-. discriminate.
      * destruct (multiSelect.redraw ms _); [discriminate|].
        intros E. injection E as <- <-. discriminate.
Qed.

(** X18: what a selection prompt returns without an error was selected when
    [Render] began (the default choices, or what the receiver held), or is a
    choice of the configured list that is not disabled: no key selects a
    disabled choice or a choice that is not in the list; the single-select
    prompt may also return the zero [Choice], for no selection. *)
Theorem returned_choices (term : Terminal) (ins : list input) :
  (forall ss c,
     fst (singleSelect.Render term ss ins) = Returns c None ->
     exists s0,
       singleSelect.start term ss = inr s0 /\
       (c = selection s0 \/ c = zeroChoice \/
        selectable (singleSelect.choices ss) c)) /\
  (forall ms cs,
     fst (multiSelect.Render term ms ins) = Returns cs None ->
     forall c, In c cs ->
       In c (multiSelect.initialSelection ms) \/
       selectable (multiSelect.choices ms) c).
Proof.
  split.
  - intros ss c. unfold singleSelect.Render, singleSelect.listen.
    destruct (singleSelect.start term ss) as [[r out]|s0] eqn:E.
    + intros R. exfalso. exact (single_start_failed _ _ _ _ c E R).
    + intros R. exists s0. split; [reflexivity|].
      pose (I := fun s : session Choice =>
                   filteredChoices (win s)
                   = filterChoices (singleSelect.choices ss) (searchQuery s) /\
                   (selection s = selection s0 \/ selection s = zeroChoice \/
                    selectable (singleSelect.choices ss) (selection s))).
      assert (I (loopState (Listen (singleSelect.handler ss) s0 ins))) as [_ H].
      { apply (Listen_invariant _ I).
        - intros s key s' stop [F S] H. apply single_handler_inv in H.
          destruct H as (x & H & D).
          assert (I x) as Ix.
          { split; [exact (single_switch_filtered ss s x key stop H F)|].
            destruct (single_switch_selection ss s x key stop H)
              as [->|[->|[Hin Hd]]]; auto.
            right. right. split; [|exact Hd].
            rewrite F in Hin. exact (filterChoices_In _ _ _ Hin). }
          destruct stop; [now subst|]. destruct D as [f ->]. exact Ix.
        - split; [|now left]. apply single_start_inv in E.
          destruct E as (_ & -> & -> & _). reflexivity. }
      destruct (Listen (singleSelect.handler ss) s0 ins) as [x|x|x|x];
        cbn [loopState] in H; cbn in R; try discriminate.
      destruct (interrupted x); [discriminate|]. cbn in R.
      injection R as <-. intuition auto.
  - intros ms cs. unfold multiSelect.Render, multiSelect.listen.
    destruct (multiSelect.start term ms) as [[r out]|s0] eqn:E.
    + intros R. exfalso. exact (multi_start_failed _ _ _ _ cs E R).
    + intros R.
      pose (I := fun s : session (list Choice) =>
                   filteredChoices (win s)
                   = filterChoices (multiSelect.choices ms) (searchQuery s) /\
                   forall c, In c (selection s) ->
                     In c (multiSelect.initialSelection ms) \/
                     selectable (multiSelect.choices ms) c).
      assert (I (loopState (Listen (multiSelect.handler ms) s0 ins))) as [_ H].
      { apply (Listen_invariant _ I).
        - intros s key s' stop [F S] H. apply multi_handler_inv in H.
          destruct H as (x & H & D).
          assert (I x) as Ix.
          { split; [exact (multi_switch_filtered ms s x key stop H F)|].
            intros c Hc.
            destruct (multi_switch_selection ms s x key stop H c Hc)
              as [Hs|[Hin Hd]]; [now apply S|].
            right. split; [|exact Hd].
            rewrite F in Hin. exact (filterChoices_In _ _ _ Hin). }
          destruct stop; [now subst|]. destruct D as [f ->]. exact Ix.
        - apply multi_start_inv in E.
          destruct E as (_ & _ & Ew & Eq & _ & _ & _ & Es). split.
          + rewrite Ew, Eq. reflexivity.
          + intros c Hc. rewrite Es in Hc. auto. }
      destruct (Listen (multiSelect.handler ms) s0 ins) as [x|x|x|x];
        cbn [loopState] in H; cbn in R; try discriminate.
      destruct (interrupted x); [discriminate|]. cbn in R.
      injection R as <-. exact H.
Qed.

End Selected.

(** ** The cursor at the ends of the list *)

Lemma navigateDown_cursor (p : Z) (w : window) :
  sound w -> filteredChoices w <> [] ->
  len (filteredChoices w) < Int.maxInt ->
  cursorIdx (navigateDown p w)
  = Z.min (cursorIdx w + 1) (len (filteredChoices w) - 1).
Proof.
  intros (_ & _ & Hc & Hn) Hne Hl. specialize (Hn Hne).
  unfold navigateDown.
  rewrite sub_one by (rewrite minInt_eq; lia).
  destruct (Z.ltb_spec (cursorIdx w) (len (filteredChoices w) - 1)); [|lia].
  rewrite add_one by (rewrite minInt_eq; lia).
  destruct (endIdx w <=? cursorIdx w + 1); cbn [cursorIdx]; lia.
Qed.

Lemma navigateUp_cursor (p : Z) (w : window) :
  sound w -> len (filteredChoices w) < Int.maxInt ->
  cursorIdx (navigateUp p w) = Z.max (cursorIdx w - 1) 0.
Proof.
  intros (_ & _ & Hc & _) Hl. unfold navigateUp.
  destruct (Z.ltb_spec 0 (cursorIdx w)); [|lia].
  rewrite sub_one by (rewrite minInt_eq; lia).
  destruct (cursorIdx w - 1 <? startIdx w); cbn [cursorIdx]; lia.
Qed.

Section Moves.
Variable S : Type.
Variable h : session S -> keys.Key -> option (session S * bool).
Variable p : Z.

Hypothesis h_down :
  forall s, sound (win s) -> len (filteredChoices (win s)) <= Int.maxInt ->
    exists f,
      h s (keys.mkKey keys.Down [])
      = Some (write (Draw f) (set_win (navigateDown p (win s)) s), false).

Hypothesis h_up :
  forall s, sound (win s) -> len (filteredChoices (win s)) <= Int.maxInt ->
    exists f,
      h s (keys.mkKey keys.Up [])
      = Some (write (Draw f) (set_win (navigateUp p (win s)) s), false).

Lemma moves_down (n : nat) :
  forall s,
    sound (win s) -> filteredChoices (win s) <> [] ->
    len (filteredChoices (win s)) < Int.maxInt ->
    exists s',
      Listen h s (repeat (press keys.Down) n) = Listening s' /\
      sound (win s') /\
      filteredChoices (win s') = filteredChoices (win s) /\
      selection s' = selection s /\
      cursorIdx (win s')
      = Z.min (cursorIdx (win s) + Z.of_nat n)
              (len (filteredChoices (win s)) - 1).
Proof.
  induction n as [|n IH]; intros s Hs Hne Hl; cbn [repeat Listen].
  - exists s. do 4 (split; [first [reflexivity | exact Hs]|]).
    destruct Hs as (_ & _ & Hc & Hn). specialize (Hn Hne). lia.
  - unfold press at 1. destruct (h_down s Hs) as [f ->]; [lia|].
    pose proof (navigateDown_cursor p (win s) Hs Hne Hl) as Ec.
    assert (sound (navigateDown p (win s))) as Hs'
      by (apply navigateDown_sound; [lia | exact Hs]).
    pose proof (navigateDown_filtered p (win s)) as Ef.
    destruct (IH (write (Draw f) (set_win (navigateDown p (win s)) s)))
      as (s' & -> & H1 & H2 & H3 & H4).
    + exact Hs'.
    + cbn [win write set_win]. now rewrite Ef.
    + cbn [win write set_win]. now rewrite Ef.
    + exists s'. cbn [win write set_win selection] in H2, H3, H4.
      rewrite Ef in H2, H4. rewrite Ec in H4.
      split; [reflexivity|]. split; [exact H1|]. split; [exact H2|].
      split; [exact H3|].
      destruct Hs as (_ & _ & Hc & Hn). specialize (Hn Hne). lia.
Qed.

Lemma moves_up (n : nat) :
  forall s,
    sound (win s) -> len (filteredChoices (win s)) < Int.maxInt ->
    exists s',
      Listen h s (repeat (press keys.Up) n) = Listening s' /\
      sound (win s') /\
      filteredChoices (win s') = filteredChoices (win s) /\
      selection s' = selection s /\
      cursorIdx (win s') = Z.max (cursorIdx (win s) - Z.of_nat n) 0.
Proof.
  induction n as [|n IH]; intros s Hs Hl; cbn [repeat Listen].
  - exists s. do 4 (split; [first [reflexivity | exact Hs]|]).
    destruct Hs as (_ & _ & Hc & _). lia.
  - unfold press at 1. destruct (h_up s Hs) as [f ->]; [lia|].
    pose proof (navigateUp_cursor p (win s) Hs Hl) as Ec.
    assert (sound (navigateUp p (win s))) as Hs'
      by (apply navigateUp_sound; [lia | exact Hs]).
    pose proof (navigateUp_filtered p (win s)) as Ef.
    destruct (IH (write (Draw f) (set_win (navigateUp p (win s)) s)))
      as (s' & -> & H1 & H2 & H3 & H4).
    + exact Hs'.
    + cbn [win write set_win]. now rewrite Ef.
    + exists s'. cbn [win write set_win selection] in H2, H3, H4.
      rewrite Ef in H2. rewrite Ec in H4.
      split; [reflexivity|]. split; [exact H1|]. split; [exact H2|].
      split; [exact H3|].
      destruct Hs as (_ & _ & Hc & _). lia.
Qed.

(** [n] times Down and then [m] times Up. *)
Lemma moves_down_up (n m : nat) (s : session S) :
  sound (win s) -> filteredChoices (win s) <> [] ->
  len (filteredChoices (win s)) < Int.maxInt ->
  exists s',
    Listen h s (repeat (press keys.Down) n ++ repeat (press keys.Up) m)
    = Listening s' /\
    filteredChoices (win s') = filteredChoices (win s) /\
    selection s' = selection s /\
    cursorIdx (win s')
    = Z.max (Z.min (cursorIdx (win s) + Z.of_nat n)
                   (len (filteredChoices (win s)) - 1) - Z.of_nat m) 0.
Proof.
  intros Hs Hne Hl. rewrite Listen_app.
  destruct (moves_down n s Hs Hne Hl) as (s1 & -> & H1 & H2 & H3 & H4).
  destruct (moves_up m s1 H1) as (s2 & -> & G1 & G2 & G3 & G4);
    [now rewrite H2|].
  exists s2. rewrite G2, G3, G4, H2, H3, H4. auto.
Qed.

End Moves.

Section Ends.
Context {U : UnicodeTables}.

Lemma single_down (ss : singleSelect.t) (s : session Choice) :
  sound (win s) -> len (filteredChoices (win s)) <= Int.maxInt ->
  exists f,
    singleSelect.handler ss s (keys.mkKey keys.Down [])
    = Some (write (Draw f)
              (set_win (navigateDown (singleSelect.pageSizeOf ss) (win s)) s),
            false).
Proof.
  intros Hs Hl.
  destruct (single_handler_some ss s
              (set_win (navigateDown (singleSelect.pageSizeOf ss) (win s)) s)
              (keys.mkKey keys.Down []) false)
    as (s' & -> & f & ->); [|reflexivity|eauto].
  cbn [win set_win]. now apply navigateDown_sound.
Qed.

Lemma single_up (ss : singleSelect.t) (s : session Choice) :
  sound (win s) -> len (filteredChoices (win s)) <= Int.maxInt ->
  exists f,
    singleSelect.handler ss s (keys.mkKey keys.Up [])
    = Some (write (Draw f)
              (set_win (navigateUp (singleSelect.pageSizeOf ss) (win s)) s),
            false).
Proof.
  intros Hs Hl.
  destruct (single_handler_some ss s
              (set_win (navigateUp (singleSelect.pageSizeOf ss) (win s)) s)
              (keys.mkKey keys.Up []) false)
    as (s' & -> & f & ->); [|reflexivity|eauto].
  cbn [win set_win]. now apply navigateUp_sound.
Qed.

Lemma multi_down (ms : multiSelect.t) (s : session (list Choice)) :
  sound (win s) -> len (filteredChoices (win s)) <= Int.maxInt ->
  exists f,
    multiSelect.handler ms s (keys.mkKey keys.Down [])
    = Some (write (Draw f)
              (set_win (navigateDown (multiSelect.pageSizeOf ms) (win s)) s),
            false).
Proof.
  intros Hs Hl.
  destruct (multi_handler_some ms s
              (set_win (navigateDown (multiSelect.pageSizeOf ms) (win s)) s)
              (keys.mkKey keys.Down []) false)
    as (s' & -> & f & ->); [|reflexivity|eauto].
  cbn [win set_win]. now apply navigateDown_sound.
Qed.

Lemma multi_up (ms : multiSelect.t) (s : session (list Choice)) :
  sound (win s) -> len (filteredChoices (win s)) <= Int.maxInt ->
  exists f,
    multiSelect.handler ms s (keys.mkKey keys.Up [])
    = Some (write (Draw f)
              (set_win (navigateUp (multiSelect.pageSizeOf ms) (win s)) s),
            false).
Proof.
  intros Hs Hl.
  destruct (multi_handler_some ms s
              (set_win (navigateUp (multiSelect.pageSizeOf ms) (win s)) s)
              (keys.mkKey keys.Up []) false)
    as (s' & -> & f & ->); [|reflexivity|eauto].
  cbn [win set_win]. now apply navigateUp_sound.
Qed.

(** X19: the cursor of either selection prompt moves one row for each Down
    or Up key and stops at the last and at the first row; it does not wrap
    around: after [n] times Down and [m] times Up from the first frame it is
    on row [max(min(n, len(choices) - 1) - m, 0)], with all the choices still
    listed and the selection as it was. *)
Theorem cursor_stops_at_ends (term : Terminal) (n m : nat) :
  (forall ss s0,
     allocatable (singleSelect.choices ss) ->
     singleSelect.start term ss = inr s0 ->
     exists s,
       singleSelect.listen term ss
         (repeat (press keys.Down) n ++ repeat (press keys.Up) m)
       = inr (Listening s) /\
       filteredChoices (win s) = singleSelect.choices ss /\
       selection s = selection s0 /\
       cursorIdx (win s)
       = Z.max (Z.min (Z.of_nat n) (len (singleSelect.choices ss) - 1)
                - Z.of_nat m) 0) /\
  (forall ms s0,
     allocatable (multiSelect.choices ms) ->
     multiSelect.start term ms = inr s0 ->
     exists s,
       multiSelect.listen term ms
         (repeat (press keys.Down) n ++ repeat (press keys.Up) m)
       = inr (Listening s) /\
       filteredChoices (win s) = multiSelect.choices ms /\
       selection s = selection s0 /\
       cursorIdx (win s)
       = Z.max (Z.min (Z.of_nat n) (len (multiSelect.choices ms) - 1)
                - Z.of_nat m) 0).
Proof.
  split.
  - intros ss s0 Ha E. apply allocatable_lt in Ha.
    pose proof (single_start_good ss term s0 E) as [Hs _].
    destruct (single_start_inv ss term s0 E) as (Hne & Ew & _).
    assert (filteredChoices (win s0) = singleSelect.choices ss) as Ef
      by now rewrite Ew.
    assert (cursorIdx (win s0) = 0) as Ec by now rewrite Ew.
    destruct (moves_down_up Choice (singleSelect.handler ss)
                (singleSelect.pageSizeOf ss) (single_down ss) (single_up ss)
                n m s0 Hs) as (s & L & F & Sel & C).
    + now rewrite Ef.
    + rewrite Ef, maxInt_eq. lia.
    + exists s. unfold singleSelect.listen. rewrite E, L.
      rewrite F, C, Ef, Ec. auto.
  - intros ms s0 Ha E. apply allocatable_lt in Ha.
    pose proof (multi_start_good ms term s0 E) as [Hs _].
    destruct (multi_start_inv ms term s0 E) as (Hne & _ & Ew & _).
    assert (filteredChoices (win s0) = multiSelect.choices ms) as Ef
      by now rewrite Ew.
    assert (cursorIdx (win s0) = 0) as Ec by now rewrite Ew.
    destruct (moves_down_up (list Choice) (multiSelect.handler ms)
                (multiSelect.pageSizeOf ms) (multi_down ms) (multi_up ms)
                n m s0 Hs) as (s & L & F & Sel & C).
    + now rewrite Ef.
    + rewrite Ef, maxInt_eq. lia.
    + exists s. unfold multiSelect.listen. rewrite E, L.
      rewrite F, C, Ef, Ec. auto.
Qed.

End Ends.


(** * Examples *)

(** Gives the state the loop has reached, by evaluation, where the goal asks
    for one. *)
Ltac reached :=
  match goal with
  | |- exists s, ?r = inr (Listening s) /\ _ =>
      let v := eval vm_compute in r in
      match v with
      | inr (Listening ?s0) =>
          let st := fresh "state" in
          pose (st := s0); exists st; split; [vm_compute; reflexivity|]
      end
  | |- exists l, ?r = inr l /\ _ =>
      let v := eval vm_compute in r in
      match v with
      | inr ?l0 =>
          let st := fresh "state" in
          pose (st := l0); exists st; split; [vm_compute; reflexivity|]
      end
  end.

(** Closes a goal evaluation decides. *)
Ltac evaluated := vm_compute; first [reflexivity | discriminate | lia | tauto].

Lemma allocatable_small (l : list Choice) :
  (List.length l <= 1000)%nat -> allocatable l.
Proof.
  unfold allocatable, len. change (2 ^ 62) with 4611686018427387904. lia.
Defined.

(** C2, as it was stated, fails in the single-select prompt: with Apple
    selected and the cursor on Banana, Space twice leaves nothing selected. *)
Lemma toggle_twice_loses_selection :
  exists s,
    singleSelect.listen (U := noTables) tty appleByDefault [press keys.Down]
    = inr (Listening s) /\
    index (filteredChoices (win s)) (cursorIdx (win s)) = Some Banana /\
    Disabled Banana = false /\
    selection s = Apple /\
    exists s2,
      singleSelect.listen (U := noTables) tty appleByDefault
        [press keys.Down; press keys.Space; press keys.Space]
      = inr (Listening s2) /\
      selection s2 = zeroChoice /\ selection s2 <> selection s.
Proof.
  reached. do 3 (split; [evaluated|]). reached. split; evaluated.
Qed.

(** [toggle_twice] on Apple: in the single-select prompt with nothing
    selected, in the multi-select prompt with Apple and Durian selected, the
    cursor on Apple in both. *)
Lemma toggle_twice_witness :
  (exists s,
     singleSelect.listen (U := noTables) tty withUnnamed [press keys.Down]
     = inr (Listening s) /\
     allocatable (singleSelect.choices withUnnamed) /\
     index (filteredChoices (win s)) (cursorIdx (win s)) = Some Apple /\
     Disabled Apple = false /\
     selection s = zeroChoice /\
     exists s2,
       singleSelect.listen (U := noTables) tty withUnnamed
         ([press keys.Down] ++ [press keys.Space; press keys.Space])
       = inr (Listening s2) /\
       selection s2 = selection s) /\
  (exists s,
     multiSelect.listen (U := noTables) tty fruitBasket [] = inr (Listening s) /\
     allocatable (multiSelect.choices fruitBasket) /\
     index (filteredChoices (win s)) (cursorIdx (win s)) = Some Apple /\
     Disabled Apple = false /\
     multiSelect.isSelected (selection s) Apple = true /\
     0 <= multiSelect.maxSelectedCount fruitBasket /\
     NoDup (map Value (selection s)) /\
     len (selection s) <= multiSelect.maxAllowed fruitBasket /\
     exists s2,
       multiSelect.listen (U := noTables) tty fruitBasket
         ([] ++ [press keys.Space; press keys.Space])
       = inr (Listening s2) /\
       Permutation (map Value (selection s2)) (map Value (selection s))).
Proof.
  split.
  - reached. split; [apply allocatable_small; simpl; lia|].
    do 3 (split; [evaluated|]).
    destruct (proj1 (toggle_twice (U := noTables) tty) withUnnamed
                [press keys.Down] state Apple) as (s2 & L2 & Hz & _);
      [apply allocatable_small; simpl; lia | evaluated..|].
    exists s2. split; [exact L2 | apply Hz; evaluated].
  - reached. split; [apply allocatable_small; simpl; lia|].
    do 4 (split; [evaluated|]).
    assert (NoDup (map Value (selection state))) as N.
    { repeat constructor; simpl; intuition discriminate. }
    split; [exact N|]. split; [evaluated|].
    destruct (proj2 (toggle_twice (U := noTables) tty) fruitBasket [] state
                Apple) as (s2 & L2 & _ & P);
      [apply allocatable_small; simpl; lia | evaluated..|].
    exists s2. split; [exact L2 | apply P; [evaluated.. | exact N | evaluated]].
Defined.

(** C3, as it was stated, fails: with Apple selected, a search that leaves no
    choice to see makes Enter a rejected key; [Render] goes on waiting. *)
Lemma confirm_rejected_with_selection :
  exists s,
    singleSelect.listen (U := noTables) tty appleByDefault
      [press keys.Tab; typed 122] = inr (Listening s) /\
    selection s = Apple /\
    filteredChoices (win s) = [] /\
    singleSelect.optional appleByDefault = false /\
    fst (singleSelect.Render (U := noTables) tty appleByDefault
           [press keys.Tab; typed 122; press keys.Enter]) = Waiting /\
    exists s',
      singleSelect.listen (U := noTables) tty appleByDefault
        [press keys.Tab; typed 122; press keys.Enter] = inr (Listening s') /\
      valMessage s' = "No selection made (required)".
Proof.
  reached. do 4 (split; [evaluated|]). reached. evaluated.
Qed.

(** [single_confirm] where the loop starts with Apple selected. *)
Lemma single_confirm_witness :
  exists s,
    singleSelect.listen (U := noTables) tty appleByDefault [] = inr (Listening s)
    /\ allocatable (singleSelect.choices appleByDefault)
    /\ filteredChoices (win s) <> [] /\ selection s <> zeroChoice /\
    fst (singleSelect.Render (U := noTables) tty appleByDefault
           ([] ++ [press keys.Enter])) = Returns (selection s) None.
Proof.
  reached. split; [apply allocatable_small; simpl; lia|].
  do 2 (split; [evaluated|]).
  apply (single_confirm (U := noTables) tty appleByDefault [] _);
    [apply allocatable_small; simpl; lia | evaluated..].
Defined.

(** C5, as it was stated, fails on a page of no rows: after Down the cursor
    is on Banana, and the window starts and ends after it. *)
Lemma no_rows_no_window :
  exists s,
    singleSelect.listen (U := noTables) tty pageOfNoRows [press keys.Down]
    = inr (Listening s) /\
    win s = mkWindow [Apple; Banana] 1 2 2 /\
    filteredChoices (win s) <> [] /\
    cursorIdx (win s) < startIdx (win s) /\
    ~ windowOk (singleSelect.pageSizeOf pageOfNoRows) (win s).
Proof.
  reached. do 3 (split; [evaluated|]).
  intros W. destruct W as (_ & [W _] & _); [discriminate|].
  vm_compute in W. apply W. reflexivity.
Qed.

(** [window_invariant] after Down, a search for "an" and Down again. *)
Lemma window_invariant_witness :
  (exists l,
     singleSelect.listen (U := noTables) tty appleByDefault
       [press keys.Down; press keys.Tab; typed 97; typed 110; press keys.Down]
     = inr l /\
     allocatable (singleSelect.choices appleByDefault) /\
     1 <= singleSelect.pageSize appleByDefault /\
     windowOk (singleSelect.pageSizeOf appleByDefault) (win (loopState l))) /\
  (exists l,
     multiSelect.listen (U := noTables) tty fruitBasket
       [press keys.Down; press keys.Tab; typed 97; typed 110; press keys.Down]
     = inr l /\
     allocatable (multiSelect.choices fruitBasket) /\
     1 <= multiSelect.pageSize fruitBasket /\
     windowOk (multiSelect.pageSizeOf fruitBasket) (win (loopState l))).
Proof.
  split.
  - reached. split; [apply allocatable_small; simpl; lia|].
    split; [evaluated|].
    apply (proj1 (window_invariant (U := noTables) tty) appleByDefault
             [press keys.Down; press keys.Tab; typed 97; typed 110;
              press keys.Down]);
      [apply allocatable_small; simpl; lia | evaluated..].
  - reached. split; [apply allocatable_small; simpl; lia|].
    split; [evaluated|].
    apply (proj2 (window_invariant (U := noTables) tty) fruitBasket
             [press keys.Down; press keys.Tab; typed 97; typed 110;
              press keys.Down]);
      [apply allocatable_small; simpl; lia | evaluated..].
Defined.

(** C6, as it was stated, fails on a terminal of 40 columns: without choices
    [Render] returns [ErrTerminalTooSmall]. *)
Lemma no_choices_on_narrow_terminal :
  singleSelect.Render (U := noTables) narrow singleSelect.NewSingleSelect []
  = (Returns zeroChoice (Some ErrTerminalTooSmall), []) /\
  multiSelect.Render (U := noTables) narrow multiSelect.NewMultiSelect []
  = (Returns [] (Some ErrTerminalTooSmall), []).
Proof. split; evaluated. Qed.

(** [no_width_no_prompt] where standard output is no terminal. *)
Lemma no_width_no_prompt_witness :
  termWidth notty <= 0 /\
  singleSelect.Render (U := noTables) notty appleByDefault [] =
    (Returns zeroChoice (Some ErrTerminalTooSmall), []) /\
  multiSelect.Render (U := noTables) notty fruitBasket [] =
    (Returns [] (Some ErrTerminalTooSmall), []) /\
  padLineWidth notty = 80 /\ progressWidth notty = 80.
Proof.
  split; [evaluated|].
  apply (no_width_no_prompt (U := noTables) notty [] appleByDefault fruitBasket).
  evaluated.
Defined.

(** [backspace_removes_one_byte] after Tab and the key of U+00E9. *)
Lemma backspace_removes_one_byte_witness :
  (exists s,
     singleSelect.listen (U := noTables) tty appleByDefault
       [press keys.Tab; typed 0xE9] = inr (Listening s) /\
     allocatable (singleSelect.choices appleByDefault) /\
     searchMode s = true /\ searchQuery s = runeString 0xE9 /\
     exists s',
       singleSelect.listen (U := noTables) tty appleByDefault
         ([press keys.Tab; typed 0xE9] ++ [press keys.Backspace])
       = inr (Listening s') /\
       searchQuery s' = bytes [0xC3] /\
       filteredChoices (win s') =
       filterChoices (U := noTables) (singleSelect.choices appleByDefault)
                     (bytes [0xC3])) /\
  (exists s,
     multiSelect.listen (U := noTables) tty fruitBasket
       [press keys.Tab; typed 0xE9] = inr (Listening s) /\
     allocatable (multiSelect.choices fruitBasket) /\
     searchMode s = true /\ searchQuery s = runeString 0xE9 /\
     exists s',
       multiSelect.listen (U := noTables) tty fruitBasket
         ([press keys.Tab; typed 0xE9] ++ [press keys.Backspace])
       = inr (Listening s') /\
       searchQuery s' = bytes [0xC3] /\
       filteredChoices (win s') =
       filterChoices (U := noTables) (multiSelect.choices fruitBasket)
                     (bytes [0xC3])).
Proof.
  split.
  - reached. split; [apply allocatable_small; simpl; lia|].
    do 2 (split; [evaluated|]).
    apply (proj1 (backspace_removes_one_byte (U := noTables) tty)
             appleByDefault [press keys.Tab; typed 0xE9] state);
      [apply allocatable_small; simpl; lia | evaluated..].
  - reached. split; [apply allocatable_small; simpl; lia|].
    do 2 (split; [evaluated|]).
    apply (proj2 (backspace_removes_one_byte (U := noTables) tty)
             fruitBasket [press keys.Tab; typed 0xE9] state);
      [apply allocatable_small; simpl; lia | evaluated..].
Defined.

(** [disabled_default_choice] on Durian, the default of [durianByDefault]
    and one of the defaults of [fruitBasket], and with the cursor moved to
    Durian. *)
Lemma disabled_default_choice_witness :
  (fst (makeSpace tty (Int.add 9 (singleSelect.pageSizeOf durianByDefault)))
   = None /\
   index (singleSelect.choices durianByDefault)
         (singleSelect.defaultChoice durianByDefault) = Some Durian /\
   Disabled Durian = true /\
   (exists s, singleSelect.start tty durianByDefault = inr s /\
              selection s = Durian) /\
   fst (singleSelect.Render (U := noTables) tty durianByDefault
          [press keys.Enter]) = Returns Durian None) /\
  (fst (makeSpace tty (Int.add 9 (multiSelect.pageSizeOf fruitBasket))) = None /\
   multiSelect.minRequired fruitBasket <= multiSelect.maxAllowed fruitBasket /\
   In 2 (multiSelect.defaultChoices fruitBasket) /\
   index (multiSelect.choices fruitBasket) 2 = Some Durian /\
   exists s, multiSelect.start tty fruitBasket = inr s /\
             In Durian (selection s)) /\
  (exists s,
     singleSelect.listen (U := noTables) tty durianByDefault [press keys.Down]
     = inr (Listening s) /\
     index (filteredChoices (win s)) (cursorIdx (win s)) = Some Durian /\
     singleSelect.switch (U := noTables) durianByDefault s
       (keys.mkKey keys.Space [])
     = Some (set_valMessage "Cannot select a disabled choice" s, false)) /\
  (exists s,
     multiSelect.listen (U := noTables) tty fruitBasket
       [press keys.Down; press keys.Down] = inr (Listening s) /\
     index (filteredChoices (win s)) (cursorIdx (win s)) = Some Durian /\
     multiSelect.switch (U := noTables) fruitBasket s (keys.mkKey keys.Space [])
     = Some (set_valMessage "Cannot select a disabled choice" s, false)).
Proof.
  split; [|split; [|split]].
  - do 3 (split; [evaluated|]).
    apply (proj1 (disabled_default_choice (U := noTables) tty)
             durianByDefault Durian); evaluated.
  - do 4 (split; [evaluated|]).
    apply (proj1 (proj2 (disabled_default_choice (U := noTables) tty))
             fruitBasket 2 Durian); evaluated.
  - reached. split; [evaluated|].
    apply (proj1 (proj2 (proj2 (disabled_default_choice (U := noTables) tty)))
             durianByDefault state Durian); evaluated.
  - reached. split; [evaluated|].
    apply (proj2 (proj2 (proj2 (disabled_default_choice (U := noTables) tty)))
             fruitBasket state Durian); evaluated.
Defined.

(** C10, as it was stated, fails: with Apple selected first, Space on the
    choice with the empty value selects it, and [Render] returns it. *)
Lemma empty_value_returned :
  Value Unnamed = EmptyString /\ Disabled Unnamed = false /\
  fst (singleSelect.Render (U := noTables) tty withUnnamed
         [press keys.Down; press keys.Space; press keys.Up; press keys.Space;
          press keys.Enter]) = Returns Unnamed None.
Proof. repeat split; evaluated. Qed.

(** [empty_value_toggle] where the loop starts on [withUnnamed], and Space is
    pressed three times. *)
Lemma empty_value_toggle_witness :
  exists s,
    singleSelect.listen (U := noTables) tty withUnnamed [] = inr (Listening s) /\
    allocatable (singleSelect.choices withUnnamed) /\
    index (filteredChoices (win s)) (cursorIdx (win s)) = Some Unnamed /\
    Disabled Unnamed = false /\ Value Unnamed = EmptyString /\
    selection s = zeroChoice /\
    singleSelect.optional withUnnamed = false /\
    (exists s',
       singleSelect.listen (U := noTables) tty withUnnamed
         ([] ++ repeat (press keys.Space) 3) = inr (Listening s') /\
       selection s' = zeroChoice) /\
    fst (singleSelect.Render (U := noTables) tty withUnnamed
           (([] ++ repeat (press keys.Space) 3) ++ [press keys.Enter]))
    = Waiting.
Proof.
  reached. split; [apply allocatable_small; simpl; lia|].
  do 5 (split; [evaluated|]).
  destruct (empty_value_toggle (U := noTables) tty withUnnamed 3 [] state
              Unnamed) as [T _];
    [apply allocatable_small; simpl; lia | evaluated..|].
  destruct T as [E R]; [evaluated|].
  split; [exact E | apply R; evaluated].
Defined.

(** [render_never_panics] on keys of every kind. *)
Lemma render_never_panics_witness :
  (allocatable (singleSelect.choices appleByDefault) /\
   fst (singleSelect.Render (U := noTables) tty appleByDefault
          [press keys.Down; press keys.Space; press keys.Tab; typed 122;
           press keys.Space; press keys.Backspace; press keys.Escape;
           press keys.Other; ReadError]) <> Panics) /\
  (allocatable (multiSelect.choices fruitBasket) /\
   fst (multiSelect.Render (U := noTables) tty fruitBasket
          [press keys.Down; press keys.Space; press keys.Tab; typed 122;
           press keys.Space; press keys.Backspace; press keys.Escape;
           press keys.Other; ReadError]) <> Panics).
Proof.
  split; (split; [apply allocatable_small; simpl; lia|]).
  - apply (proj1 (render_never_panics (U := noTables) tty _) appleByDefault).
    apply allocatable_small; simpl; lia.
  - apply (proj2 (render_never_panics (U := noTables) tty _) fruitBasket).
    apply allocatable_small; simpl; lia.
Defined.

(** [selected_count_bounded] of two out of three, with Space on each of the
    three choices. *)
Lemma selected_count_bounded_witness :
  exists l,
    multiSelect.listen (U := noTables) tty twoOfThree
      [press keys.Space; press keys.Down; press keys.Space; press keys.Down;
       press keys.Space] = inr l /\
    len (multiSelect.initialSelection twoOfThree)
    <= multiSelect.maxAllowed twoOfThree /\
    len (selection (loopState l)) <= multiSelect.maxAllowed twoOfThree.
Proof.
  reached. split; [evaluated|].
  apply (selected_count_bounded (U := noTables) tty twoOfThree
           [press keys.Space; press keys.Down; press keys.Space;
            press keys.Down; press keys.Space]); evaluated.
Defined.

(** An example: of three choices with exactly two to select, Apple and
    Banana are selected, Space on Cherry is refused with "Cannot select more than 2
    choices", and Enter makes [Render] return Apple and Banana; before the
    first Space, Enter is refused with "At least 2 choices must be
    selected". *)
Theorem two_of_three {U : UnicodeTables} :
  (exists s,
     multiSelect.listen tty twoOfThree
       [press keys.Space; press keys.Down; press keys.Space; press keys.Down;
        press keys.Space] = inr (Listening s) /\
     valMessage s = "Cannot select more than 2 choices" /\
     selection s = [Apple; Banana]) /\
  fst (multiSelect.Render tty twoOfThree
         [press keys.Space; press keys.Down; press keys.Space; press keys.Down;
          press keys.Space; press keys.Enter]) = Returns [Apple; Banana] None /\
  (exists s,
     multiSelect.listen tty twoOfThree [press keys.Enter] = inr (Listening s) /\
     valMessage s = "At least 2 choices must be selected").
Proof.
  split; [|split].
  - reached. split; evaluated.
  - evaluated.
  - reached. evaluated.
Qed.

(** [multi_confirm] of two out of three, before and after two choices are
    selected. *)
Lemma multi_confirm_witness :
  (exists s,
     multiSelect.listen (U := noTables) tty twoOfThree [press keys.Space]
     = inr (Listening s) /\
     allocatable (multiSelect.choices twoOfThree) /\
     len (selection s) < multiSelect.minRequired twoOfThree /\
     fst (multiSelect.Render (U := noTables) tty twoOfThree
            ([press keys.Space] ++ [press keys.Enter])) = Waiting) /\
  (exists s,
     multiSelect.listen (U := noTables) tty twoOfThree
       [press keys.Space; press keys.Down; press keys.Space]
     = inr (Listening s) /\
     allocatable (multiSelect.choices twoOfThree) /\
     multiSelect.minRequired twoOfThree <= len (selection s) /\
     fst (multiSelect.Render (U := noTables) tty twoOfThree
            ([press keys.Space; press keys.Down; press keys.Space]
             ++ [press keys.Enter])) = Returns (selection s) None).
Proof.
  split.
  - reached. split; [apply allocatable_small; simpl; lia|].
    split; [evaluated|].
    apply (multi_confirm (U := noTables) tty twoOfThree [press keys.Space] state);
      [apply allocatable_small; simpl; lia | evaluated..].
  - reached. split; [apply allocatable_small; simpl; lia|].
    split; [evaluated|].
    apply (multi_confirm (U := noTables) tty twoOfThree
             [press keys.Space; press keys.Down; press keys.Space] state);
      [apply allocatable_small; simpl; lia | evaluated..].
Defined.


(** [interrupt_resets_once] with Ctrl+C in the middle of a search. *)
Lemma interrupt_resets_once_witness :
  (exists s,
     singleSelect.listen (U := noTables) tty appleByDefault
       [press keys.Tab; typed 97] = inr (Listening s) /\
     singleSelect.Render (U := noTables) tty appleByDefault
       ([press keys.Tab; typed 97] ++ [press keys.CtrlC]) =
       (Returns zeroChoice (Some ErrInterrupted), written s ++ [ResetState]) /\
     ~ In ResetState (written s)) /\
  (exists s,
     multiSelect.listen (U := noTables) tty fruitBasket
       [press keys.Tab; typed 97] = inr (Listening s) /\
     multiSelect.Render (U := noTables) tty fruitBasket
       ([press keys.Tab; typed 97] ++ [press keys.CtrlC]) =
       (Returns [] (Some ErrInterrupted), written s ++ [ResetState]) /\
     ~ In ResetState (written s)).
Proof.
  split.
  - reached.
    apply (proj1 (interrupt_resets_once (U := noTables) tty) appleByDefault
             [press keys.Tab; typed 97] state).
    evaluated.
  - reached.
    apply (proj2 (interrupt_resets_once (U := noTables) tty) fruitBasket
             [press keys.Tab; typed 97] state).
    evaluated.
Defined.

(** [increment_saturates] of five calls on a progress of three steps. *)
Lemma increment_saturates_witness :
  (0 <= Progress.current threeSteps <= Progress.steps threeSteps /\
   Progress.steps threeSteps < Int.maxInt) /\
  Progress.steps (Nat.iter 5 Progress.Increment threeSteps) = 3 /\
  Progress.current (Nat.iter 5 Progress.Increment threeSteps) = 3.
Proof.
  split; [split; [cbn; lia | evaluated]|].
  apply (increment_saturates threeSteps 5); [cbn; lia | evaluated].
Defined.

(** [spinner_frames] of twelve passes over the ten frames of [NewSpinner]. *)
Lemma spinner_frames_witness :
  Z.of_nat 12 <= Int.maxInt /\
  (exists drawn,
     Spinner.Start Spinner.NewSpinner 12 = Some drawn /\
     List.length drawn = 12%nat /\
     forall k, (k < 12)%nat ->
       nth_error drawn k
       = index (Spinner.frames Spinner.NewSpinner)
               (Z.of_nat k mod len (Spinner.frames Spinner.NewSpinner))).
Proof.
  split; [evaluated|].
  apply (spinner_frames Spinner.NewSpinner 12); [evaluated | discriminate].
Defined.

(** [text_prompts_never_panic] on keys of every kind. *)
Lemma text_prompts_never_panic_witness :
  len editingKeys < Int.maxInt /\
  fst (textInput.Render tty textInput.NewTextInput editingKeys) <> Panics /\
  fst (SecureInput.Render tty SecureInput.NewSecureInput editingKeys)
  <> Panics.
Proof.
  assert (len editingKeys < Int.maxInt) as H by evaluated.
  split; [exact H|]. split.
  - exact (proj1 (proj1 (text_prompts_never_panic tty editingKeys H)
                    textInput.NewTextInput)).
  - exact (proj1 (proj2 (text_prompts_never_panic tty editingKeys H)
                    SecureInput.NewSecureInput)).
Defined.

(** [typed_text_returned] of "hi" typed into a prompt that requires some
    text. *)
Lemma typed_text_returned_witness :
  (roomy tty 8 /\ len [104; 105] < Int.maxInt /\
   accepts (textInput.validator
              (textInput.WithValidator required textInput.NewTextInput))
           (runesString [104; 105])) /\
  fst (textInput.Render tty
         (textInput.WithValidator required textInput.NewTextInput)
         [typed 104; typed 105; press keys.Enter])
  = Returns "hi" None.
Proof.
  assert (accepts (textInput.validator
                     (textInput.WithValidator required textInput.NewTextInput))
                  (runesString [104; 105])) as A.
  { intros validate E. injection E as <-. reflexivity. }
  split; [split; [split; cbn; lia | split; [evaluated | exact A]]|].
  exact (proj1 (typed_text_returned tty [104; 105] ltac:(split; cbn; lia)
                  ltac:(evaluated))
           (textInput.WithValidator required textInput.NewTextInput) A).
Defined.

(** [type_then_erase] of a rune typed between two others. *)
Lemma type_then_erase_witness :
  (inside betweenRunes /\ len (edit.inBuf betweenRunes) < Int.maxInt) /\
  exists s1 s2,
    textInput.handler textInput.NewTextInput betweenRunes (runeKey 233)
    = Some (s1, false) /\
    textInput.handler textInput.NewTextInput s1 backspaceKey
    = Some (s2, false) /\
    edit.inBuf s1 = [104; 233; 105] /\ edit.cursorPos s1 = 2 /\
    edit.inBuf s2 = [104; 105] /\ edit.cursorPos s2 = 1.
Proof.
  split; [split; [unfold inside; cbn; lia | evaluated]|].
  exact (proj1 (type_then_erase betweenRunes 233
                  ltac:(unfold inside; cbn; lia) ltac:(evaluated))
           textInput.NewTextInput).
Defined.

(** [secure_input_echo] of the frame drawn when two runes are typed. *)
Lemma secure_input_echo_witness :
  In (inr (mkInputFrame None None (Some "**") None))
     (snd (SecureInput.Render tty SecureInput.NewSecureInput
             [typed 104; typed 105])) /\
  (shownInput (mkInputFrame None None (Some "**") None) = None \/
   (SecureInput.noEcho SecureInput.NewSecureInput = false /\
    exists n,
      0 < n /\
      shownInput (mkInputFrame None None (Some "**") None)
      = Some (SecureInput.stars n))).
Proof.
  assert (In (inr (mkInputFrame None None (Some "**") None))
             (snd (SecureInput.Render tty SecureInput.NewSecureInput
                     [typed 104; typed 105]))) as H.
  { vm_compute. repeat (first [left; reflexivity | right]). }
  split; [exact H|].
  exact (secure_input_echo tty SecureInput.NewSecureInput
           [typed 104; typed 105] _ H).
Defined.

(** [hex_colour] of the base colour of a theme, [#1e1E2e]. *)
Lemma hex_colour_witness :
  (hexValue "1" = Some 1 /\ hexValue "e" = Some 14 /\ hexValue "E" = Some 14 /\
   hexValue "2" = Some 2) /\
  styles.ColorFromHex (W := noSpaces) "1e1E2e" = styles.ColorFromRGB 30 30 46 /\
  styles.ColorFromHex (W := noSpaces) "#1e1E2e" = styles.ColorFromRGB 30 30 46 /\
  styles.ColorFromRGB 30 30 46 = "rgb:30,30,46".
Proof.
  split; [repeat split|].
  exact (hex_colour (W := noSpaces) "1" "e" "1" "E" "2" "e" 1 14 1 14 2 14
           eq_refl eq_refl eq_refl eq_refl eq_refl eq_refl).
Defined.

(** [text_prompt_errors] on a terminal of 40 columns, and of Ctrl+C after a
    rune. *)
Lemma text_prompt_errors_witness :
  ~ roomy narrow 8 /\
  textInput.Render narrow textInput.NewTextInput [typed 104]
  = (Returns EmptyString (Some ErrTerminalTooSmall), []) /\
  exists s,
    (textInput.listen tty textInput.NewTextInput [typed 104]
     = inr (Listening s) /\ True) /\
    textInput.Render tty textInput.NewTextInput
      ([typed 104] ++ press keys.CtrlC :: [typed 105])
    = (Returns EmptyString (Some ErrInterrupted),
       edit.written s ++ [inl ResetState]).
Proof.
  assert (~ roomy narrow 8) as H by (unfold roomy; cbn; lia).
  split; [exact H|]. split.
  - exact (proj1 (proj1 (text_prompt_errors narrow [typed 104] [])
                    textInput.NewTextInput) H).
  - assert (exists s,
              textInput.listen tty textInput.NewTextInput [typed 104]
              = inr (Listening s) /\ True) as [s [E _]]
      by (reached; exact I).
    exists s. split; [split; [exact E | exact I]|].
    exact (proj1 (proj2 (proj1 (text_prompt_errors tty [typed 104] [typed 105])
                           textInput.NewTextInput) s E)).
Defined.

(** [validated_text_returned] of a prompt that requires some text: Enter on
    the empty buffer is refused, and the text "h" with a line feed is
    accepted and returned without the line feed. *)
Lemma validated_text_returned_witness :
  fst (textInput.Render tty
         (textInput.WithValidator required textInput.NewTextInput)
         [press keys.Enter; typed 104; typed 10; press keys.Enter])
  = Returns "h" None /\
  exists rs tail,
    accepts (Some required) (runesString rs) /\
    runesString rs = ("h" ++ tail)%string /\
    Forall (fun c => inCutset CRLF c = true) (list_ascii_of_string tail) /\
    forall u c, "h" = (u ++ String c EmptyString)%string ->
                inCutset CRLF c = false.
Proof.
  assert (fst (textInput.Render tty
                 (textInput.WithValidator required textInput.NewTextInput)
                 [press keys.Enter; typed 104; typed 10; press keys.Enter])
          = Returns "h" None) as H by (vm_compute; reflexivity).
  split; [exact H|].
  exact (proj1 (validated_text_returned tty
                  [press keys.Enter; typed 104; typed 10; press keys.Enter]
                  "h")
           (textInput.WithValidator required textInput.NewTextInput) H).
Defined.

(** [returned_choices] of the disabled Durian, selected by default and
    returned on Enter. *)
Lemma returned_choices_witness :
  fst (singleSelect.Render (U := noTables) tty durianByDefault
         [press keys.Enter])
  = Returns Durian None /\
  exists s0,
    singleSelect.start tty durianByDefault = inr s0 /\
    (Durian = selection s0 \/ Durian = zeroChoice \/
     selectable (singleSelect.choices durianByDefault) Durian).
Proof.
  assert (fst (singleSelect.Render (U := noTables) tty durianByDefault
                 [press keys.Enter])
          = Returns Durian None) as H by (vm_compute; reflexivity).
  split; [exact H|].
  exact (proj1 (returned_choices (U := noTables) tty [press keys.Enter])
           durianByDefault Durian H).
Defined.

(** [cursor_stops_at_ends] of two choices: five times Down and once Up. *)
Lemma cursor_stops_at_ends_witness :
  exists s0,
    (singleSelect.start tty appleByDefault = inr s0 /\
     allocatable (singleSelect.choices appleByDefault)) /\
    exists s,
      singleSelect.listen (U := noTables) tty appleByDefault
        (repeat (press keys.Down) 5 ++ repeat (press keys.Up) 1)
      = inr (Listening s) /\
      filteredChoices (win s) = [Apple; Banana] /\
      selection s = selection s0 /\
      cursorIdx (win s) = 0.
Proof.
  assert (allocatable (singleSelect.choices appleByDefault)) as A
    by (apply allocatable_small; simpl; lia).
  assert (exists s0, singleSelect.start tty appleByDefault = inr s0 /\ True)
    as [s0 [E _]] by (reached; exact I).
  exists s0. split; [split; [exact E | exact A]|].
  exact (proj1 (cursor_stops_at_ends (U := noTables) tty 5 1)
           appleByDefault s0 A E).
Defined.
